(** * Presubmit query: outdated builds, dispatch policy and the query run

    A shallow embedding of the [query] subcommand of the presubmit tool
    (package [main]: [runQuery], [clsSender], [isBuildOutdated],
    [removeQueuedOutdatedBuilds], [getTestsToRun], [checkEmailAddress]).

    Go maps are finite maps ([gmap Z Z] for [clNumberToPatchsetMap]), Go
    [int]s are [Z] (change numbers and patchsets are only compared, and the
    count of sent CLs is a sum of list lengths), Go [error] values are
    [option Err] with [None] for [nil], and a nil pointer is [None].  The
    collaborators of the command (Jenkins, Gerrit, the log file) are
    functions on an abstract outside world, and a run records every call
    and every printed line as an event. *)

From Stdlib Require Import ZArith List Ascii String Sorting.Sorted Permutation.
From stdpp Require Import base decidable option numbers list sorting gmap strings pretty.

Local Open Scope string_scope.
Local Open Scope list_scope.
Local Open Scope Z_scope.

(** ** Gerrit data and errors *)

(** [gerrit.PresubmitTestType]. *)
Inductive PresubmitTestType : Type :=
| PresubmitTestTypeNone
| PresubmitTestTypeAll.

(** [gerrit.Change], with the parts that the query command reads: the
    accessors [Reference()] and [OwnerEmail()] and the fields [Project] and
    [PresubmitTest]. *)
Record Change : Type := {
  Reference : string;
  Project : string;
  OwnerEmail : string;
  PresubmitTest : PresubmitTestType
}.

(** [gerrit.CLList]. *)
Abbreviation CLList := (list Change).

(** Go [error] values.  [ErrExternal] is an error produced by a collaborator
    (Gerrit, Jenkins, the file system); [ErrChange] is a
    [*gerrit.ChangeError]; [ErrQueryFailed] is the error that [runQuery]
    builds with [fmt.Errorf("Query(%q) failed: %v", ...)]. *)
Inductive Err : Type :=
| ErrExternal (msg : string)
| ErrChange (CL : Change) (cause : Err)
| ErrQueryFailed (query : string) (cause : Err).

(** ** Strings *)

(** [strings.Split(s, sep)] for a one-byte separator: the pieces between the
    separators, always at least one piece. *)
Fixpoint Split (s : string) (sep : ascii) : list string :=
  match s with
  | EmptyString => [EmptyString]
  | String c s' =>
      if Ascii.eqb c sep then EmptyString :: Split s' sep
      else match Split s' sep with
           | piece :: pieces => String c piece :: pieces
           | [] => [String c EmptyString]
           end
  end.

(** [strings.Join(elems, sep)]. *)
Fixpoint Join (elems : list string) (sep : string) : string :=
  match elems with
  | [] => EmptyString
  | [e] => e
  | e :: rest => e +:+ sep +:+ Join rest sep
  end.

(** [strings.HasSuffix(s, suffix)]. *)
Definition HasSuffix (s suffix : string) : bool :=
  let n := String.length s in
  let k := String.length suffix in
  (k <=? n)%nat && String.eqb (substring (n - k) k s) suffix.

(** [strings.ToLower] on the bytes of an ASCII string. *)
Definition lower_ascii (c : ascii) : ascii :=
  let n := nat_of_ascii c in
  if ((65 <=? n) && (n <=? 90))%nat then ascii_of_nat (n + 32) else c.

Fixpoint ToLower (s : string) : string :=
  match s with
  | EmptyString => EmptyString
  | String c s' => String (lower_ascii c) (ToLower s')
  end.

(** ** The outdated-build detector *)

(** clNumberToPatchsetMap is a map from CL numbers to the latest patchset of
    the CL. *)
Abbreviation clNumberToPatchsetMap := (gmap Z Z).

Section OutdatedBuild.

(** [gerrit.ParseRefString] of the jiri library: the change number and the
    patchset of a ref string, or an error. *)
Variable ParseRefString : string -> Err + Z * Z.

(** The first loop of [isBuildOutdated]: every ref is parsed and stored,
    a later ref for the same change overwrites an earlier one, and the
    first parse error ends the loop. *)
Fixpoint parseRefs (refs : list string) (curCLs : clNumberToPatchsetMap)
  : Err + clNumberToPatchsetMap :=
  match refs with
  | [] => inr curCLs
  | ref :: refs' =>
      match ParseRefString ref with
      | inl err => inl err
      | inr (cl, patchset) => parseRefs refs' (<[cl := patchset]> curCLs)
      end
  end.

(** [sortedKeys]: the keys of the map, sorted with [sort.Ints]. *)
Definition sortedKeys (cls : clNumberToPatchsetMap) : list Z :=
  merge_sort Z.le (map fst (map_to_list cls)).

(** The loop over [curCLs] taken when the key sets differ; it returns
    [true] at the first overlapping change that the registry has at an
    equal or newer patchset. *)
Fixpoint overlapLoop (entries : list (Z * Z)) (newCLs : clNumberToPatchsetMap)
  : bool :=
  match entries with
  | [] => false
  | (curCLNumber, curPatchset) :: rest =>
      match newCLs !! curCLNumber with
      | Some newPatchset =>
          if newPatchset >=? curPatchset then true
          else overlapLoop rest newCLs
      | None => overlapLoop rest newCLs
      end
  end.

(** The loop over [newCLNumbers] taken when the key sets agree; a missing
    key reads as Go's zero value. *)
Fixpoint patchsetLoop (newCLNumbers : list Z)
    (curCLs newCLs : clNumberToPatchsetMap) : bool :=
  match newCLNumbers with
  | [] => true
  | clNumber :: rest =>
      let curPatchset := default 0 (curCLs !! clNumber) in
      let newPatchset := default 0 (newCLs !! clNumber) in
      if newPatchset <? curPatchset then false
      else patchsetLoop rest curCLs newCLs
  end.

(** isBuildOutdated checks whether a build (identified by the given refs
    string) is older than the cls in newCLs. *)
Definition isBuildOutdated (curRefs : string) (newCLs : clNumberToPatchsetMap)
  : bool * option Err :=
  match parseRefs (Split curRefs ":"%char) ∅ with
  | inl err => (false, Some err)
  | inr curCLs =>
      let newCLNumbers := sortedKeys newCLs in
      if bool_decide (sortedKeys curCLs = newCLNumbers) then
        (patchsetLoop newCLNumbers curCLs newCLs, None)
      else
        (overlapLoop (map_to_list curCLs) newCLs, None)
  end.

End OutdatedBuild.

(** ** Email check *)

Definition emailWhitelist : list string :=
  ["aaron@azinman.com"; "aaron@empiric.al"].

(** The loop of [checkEmailAddress] over the whitelist. *)
Fixpoint whiteListedLoop (whitelist : list string) (email : string) : bool :=
  match whitelist with
  | [] => false
  | we :: rest =>
      if String.eqb we (ToLower email) then true
      else whiteListedLoop rest email
  end.

(** checkEmailAddress checks whether the given email address is from Google
    or is whitelisted. *)
Definition checkEmailAddress (email : string) : bool :=
  let fromGoogle := HasSuffix email "@google.com" in
  let whiteListed := whiteListedLoop emailWhitelist email in
  fromGoogle || whiteListed.

(** ** Test list *)

(** [tooldata.Config], with the two accessors that [getTestsToRun] calls;
    [TestParts] returns [None] for a nil slice. *)
Record Config : Type := {
  ProjectTests : list string -> list string;
  TestParts : string -> option (list string)
}.

(** Modelled from the spec: [testNameWithPartSuffix] is declared in another
    file of package [main]; the spec gives its result as [<test>-part<i>]. *)
Definition testNameWithPartSuffix (test : string) (i : nat) : string :=
  test +:+ "-part" +:+ pretty i.

(** The inner loop [for i := 0; i <= len(parts); i++]. *)
Definition partsLoop (test : string) (parts : list string) (tests : list string)
  : list string :=
  foldl (fun tests i => tests ++ [testNameWithPartSuffix test i])
        tests (seq 0 (S (length parts))).

(** The loop of [getTestsToRun] over [tmpTests]. *)
Fixpoint testsLoop (config : Config) (tmpTests : list string)
    (tests : list string) : list string :=
  match tmpTests with
  | [] => tests
  | test :: rest =>
      match TestParts config test with
      | Some parts => testsLoop config rest (partsLoop test parts tests)
      | None => testsLoop config rest (tests ++ [test])
      end
  end.

(** [sort.Strings]: increasing order of Go's [<] on strings, which compares
    byte by byte. *)
Definition SortStrings (l : list string) : list string :=
  merge_sort String.le l.

(** ** Jenkins and project data *)

(** [jenkins.QueuedBuild]: the [Id] field and the [ParseRefs()] accessor. *)
Record QueuedBuild : Type := {
  Id : Z;
  QueuedBuild_ParseRefs : string
}.

(** [jenkins.BuildInfo]: the fields [Building], [Number] and [Result] and the
    [ParseRefs()] accessor. *)
Record BuildInfo : Type := {
  Building : bool;
  Number : Z;
  Result : string;
  BuildInfo_ParseRefs : string
}.

(** [project.Projects], as the names of the projects of the manifest;
    [Find] keeps the projects with the given name. *)
Abbreviation Projects := (list string).

Definition Find (projects : Projects) (name : string) : Projects :=
  List.filter (String.eqb name) projects.

(** ** Collaborators, output and the run monad *)

(** Arguments of a [printf] or [Sprintf] call. *)
Inductive Arg : Type :=
| ArgInt (n : Z)
| ArgStr (s : string)
| ArgErr (e : Err).

Inductive Stream : Type := Stdout | Stderr.

(** Pure functions of the libraries ([gerrit], [fmt]) and of the other files
    of package [main]. *)
Class Library : Type := {
  ParseRefString : string -> Err + Z * Z;
  NewOpenCLs : clNumberToPatchsetMap -> CLList -> list CLList * list Err;
  Sprintf : string -> list Arg -> string;
  genStartPresubmitBuildLink : string -> string -> string -> string
}.

(** The command-line flags. *)
Class Flags : Type := {
  jenkinsHostFlag : string;
  presubmitTestJobFlag : string;
  queryStringFlag : string;
  logFilePathFlag : string
}.

(** The collaborators (Jenkins, Gerrit, the log file, the manifest and the
    tool configuration): every call reads and updates the outside world and
    returns its result, [inl] or [Some] for an error.  [gerritBaseUrl],
    [postMessage], [getSubmittableCLs] and [submitCLs] are functions of other
    files of package [main] that talk to Gerrit; they are collaborators
    here. *)
Class Collaborators (World : Type) : Type := {
  Jenkins : string -> World -> option Err * World;
  LastCompletedBuildStatus : string -> World -> (Err + BuildInfo) * World;
  ReadLog : string -> World -> (Err + clNumberToPatchsetMap) * World;
  gerritBaseUrl : World -> (Err + string) * World;
  Query : string -> string -> World -> (Err + CLList) * World;
  WriteLog : string -> CLList -> World -> option Err * World;
  LoadManifest : World -> (Err + Projects) * World;
  LoadConfig : World -> (Err + Config) * World;
  postMessage : string -> list string -> bool -> World -> option Err * World;
  QueuedBuilds : string -> World -> (Err + list QueuedBuild) * World;
  OngoingBuilds : string -> World -> (Err + list BuildInfo) * World;
  CancelQueuedBuild : string -> World -> option Err * World;
  CancelOngoingBuild : string -> Z -> World -> option Err * World;
  AddBuildWithParameter :
    string -> string -> string -> string -> World -> option Err * World;
  getSubmittableCLs : CLList -> World -> list CLList * World;
  submitCLs : CLList -> World -> option Err * World
}.

(** What a run does to the outside, in order: each collaborator call with its
    arguments and its result, and each line printed. *)
Inductive Event : Type :=
| EvJenkins (host : string) (r : option Err)
| EvLastCompletedBuildStatus (job : string) (r : Err + BuildInfo)
| EvReadLog (path : string) (r : Err + clNumberToPatchsetMap)
| EvGerritBaseUrl (r : Err + string)
| EvQuery (url query : string) (r : Err + CLList)
| EvWriteLog (path : string) (cls : CLList) (r : option Err)
| EvLoadManifest (r : Err + Projects)
| EvLoadConfig (r : Err + Config)
| EvPostMessage (message : string) (refs : list string) (success : bool)
    (r : option Err)
| EvQueuedBuilds (job : string) (r : Err + list QueuedBuild)
| EvOngoingBuilds (job : string) (r : Err + list BuildInfo)
| EvCancelQueuedBuild (id : string) (r : option Err)
| EvCancelOngoingBuild (job : string) (number : Z) (r : option Err)
| EvAddBuildWithParameter (job REFS PROJECTS TESTS : string) (r : option Err)
| EvGetSubmittableCLs (cls : CLList) (r : list CLList)
| EvSubmitCLs (cls : CLList) (r : option Err)
| EvPrint (out : Stream) (format : string) (args : list Arg).

(** A Go call either returns or panics. *)
Inductive Outcome (A : Type) : Type :=
| Returned (a : A)
| Panicked.
Arguments Returned {A} a.
Arguments Panicked {A}.

(** The result of running a piece of the program from a world: the events
    in order, the world after them, and the outcome. *)
Record Ran (World A : Type) : Type := MkRan {
  events : list Event;
  after : World;
  outcome : Outcome A
}.
Arguments MkRan {World A}.
Arguments events {World A}.
Arguments after {World A}.
Arguments outcome {World A}.

Definition M (World A : Type) : Type := World -> Ran World A.

Definition ret {World A} (a : A) : M World A :=
  fun w => MkRan [] w (Returned a).

Definition bind {World A B} (m : M World A) (k : A -> M World B) : M World B :=
  fun w =>
    let r := m w in
    match outcome r with
    | Returned a =>
        let r' := k a (after r) in
        MkRan (events r ++ events r') (after r') (outcome r')
    | Panicked => MkRan (events r) (after r) Panicked
    end.

Definition panic {World A} : M World A :=
  fun w => MkRan [] w Panicked.

(** A collaborator call, recorded with its result. *)
Definition call {World A} (f : World -> A * World) (ev : A -> Event)
  : M World A :=
  fun w => let '(a, w') := f w in MkRan [ev a] w' (Returned a).

(** [printf(out, format, args...)] and [fmt.Fprintf(out, format, args...)];
    format strings are spelled as in the Go source. *)
Definition printf {World} (out : Stream) (format : string) (args : list Arg)
  : M World unit :=
  fun w => MkRan [EvPrint out format args] w (Returned tt).

(** The run [r] after the events [evs]. *)
Definition prefix {World A} (evs : list Event) (r : Ran World A) : Ran World A :=
  MkRan (evs ++ events r) (after r) (outcome r).

Declare Scope run_scope.
Delimit Scope run_scope with run.
Notation "x <- m ;; k" := (bind m (fun x => k))
  (at level 100, m at next level, right associativity) : run_scope.
Notation "m ;;; k" := (bind m (fun _ => k))
  (at level 100, right associativity) : run_scope.
Local Open Scope run_scope.

(** ** The query command *)

Section Query.

Context {World : Type} `{!Library} `{!Flags} `{!Collaborators World}.

Local Abbreviation M := (M World).

(** isKnownProject checks whether the given cl's project is in the given
    set of projects. *)
Definition isKnownProject (cl : Change) (projects : Projects) : M bool :=
  let foundProjects := Find projects (Project cl) in
  if (length foundProjects =? 0)%nat then
    printf Stdout "project=%q (%s) not found. Skipped.\n"
      [ArgStr (Project cl); ArgStr (Reference cl)];;;
    ret false
  else ret true.

(** The loop of [removeQueuedOutdatedBuilds]; [err] is the variable of the
    enclosing function, which the empty-refs branch returns. *)
Fixpoint queuedLoop (queuedBuilds : list QueuedBuild)
    (cls : clNumberToPatchsetMap) (err : option Err) : M (option Err) :=
  match queuedBuilds with
  | [] => ret None
  | build :: rest =>
      let refs := QueuedBuild_ParseRefs build in
      if String.eqb refs "" then ret err
      else
        match isBuildOutdated ParseRefString refs cls with
        | (_, Some err) => ret (Some err)
        | (buildOutdated, None) =>
            if buildOutdated then
              e <- call (CancelQueuedBuild (Sprintf "%d" [ArgInt (Id build)]))
                     (EvCancelQueuedBuild (Sprintf "%d" [ArgInt (Id build)]));;
              match e with
              | Some err => ret (Some err)
              | None =>
                  printf Stdout
                    "Cancelled build %s as it is no longer current.\n"
                    [ArgStr refs];;;
                  queuedLoop rest cls err
              end
            else queuedLoop rest cls err
        end
  end.

Definition removeQueuedOutdatedBuilds (cls : clNumberToPatchsetMap)
  : M (option Err) :=
  j <- call (Jenkins jenkinsHostFlag) (EvJenkins jenkinsHostFlag);;
  match j with
  | Some err => ret (Some err)
  | None =>
      q <- call (QueuedBuilds presubmitTestJobFlag)
             (EvQueuedBuilds presubmitTestJobFlag);;
      match q with
      | inl err => ret (Some err)
      | inr queuedBuilds => queuedLoop queuedBuilds cls None
      end
  end.

(** The loop of [removeOngoingOutdatedBuilds]. *)
Fixpoint ongoingLoop (buildInfos : list BuildInfo)
    (cls : clNumberToPatchsetMap) : M (option Err) :=
  match buildInfos with
  | [] => ret None
  | buildInfo :: rest =>
      if negb (Building buildInfo) then ongoingLoop rest cls
      else
        let refs := BuildInfo_ParseRefs buildInfo in
        if negb (String.eqb refs "") then
          match isBuildOutdated ParseRefString refs cls with
          | (_, Some err) =>
              printf Stderr "%v\n" [ArgErr err];;;
              ongoingLoop rest cls
          | (buildOutdated, None) =>
              if buildOutdated then
                e <- call (CancelOngoingBuild presubmitTestJobFlag
                             (Number buildInfo))
                       (EvCancelOngoingBuild presubmitTestJobFlag
                          (Number buildInfo));;
                match e with
                | Some err => ret (Some err)
                | None =>
                    printf Stdout
                      "Cancelled build %s as it is no longer current.\n"
                      [ArgStr refs];;;
                    ongoingLoop rest cls
                end
              else ongoingLoop rest cls
          end
        else ongoingLoop rest cls
  end.

Definition removeOngoingOutdatedBuilds (cls : clNumberToPatchsetMap)
  : M (option Err) :=
  j <- call (Jenkins jenkinsHostFlag) (EvJenkins jenkinsHostFlag);;
  match j with
  | Some err => ret (Some err)
  | None =>
      b <- call (OngoingBuilds presubmitTestJobFlag)
             (EvOngoingBuilds presubmitTestJobFlag);;
      match b with
      | inl err => ret (Some err)
      | inr buildInfos => ongoingLoop buildInfos cls
      end
  end.

(** [collect.Errors(fn, &errs)]: the error of [fn], when there is one, is
    appended to [errs]. *)
Definition collectErrors (fn : M (option Err)) (errs : list (option Err))
  : M (list (option Err)) :=
  e <- fn;;
  match e with
  | Some err => ret (errs ++ [Some err])
  | None => ret errs
  end.

(** removeOutdatedBuilds removes all the outdated presubmit-test builds
    that have the given cl number and equal or smaller patchset number. *)
Definition removeOutdatedBuilds (cls : clNumberToPatchsetMap)
  : M (list (option Err)) :=
  errs <- collectErrors (removeQueuedOutdatedBuilds cls) [];;
  collectErrors (removeOngoingOutdatedBuilds cls) errs.

(** addPresubmitTestBuild uses Jenkins' remote access API to add a build
    for a set of open CLs to run presubmit tests. *)
Definition addPresubmitTestBuild (cls : CLList) (tests : list string)
  : M (option Err) :=
  j <- call (Jenkins jenkinsHostFlag) (EvJenkins jenkinsHostFlag);;
  match j with
  | Some err => ret (Some err)
  | None =>
      let refs := map Reference cls in
      let projects := map Project cls in
      call (AddBuildWithParameter presubmitTestJobFlag
              (Join refs ":") (Join projects ":") (Join tests " "))
           (EvAddBuildWithParameter presubmitTestJobFlag
              (Join refs ":") (Join projects ":") (Join tests " "))
  end.

(** [getTestsToRun]: the tests of the projects, with the part suffixes,
    sorted. *)
Definition getTestsToRun (projects : list string)
  : M (list string * option Err) :=
  c <- call LoadConfig EvLoadConfig;;
  match c with
  | inl err => ret ([], Some err)
  | inr config =>
      let tmpTests := ProjectTests config projects in
      let tests := testsLoop config tmpTests [] in
      ret (SortStrings tests, None)
  end.

(** The sender of one run; the three functions are fields so that tests
    can replace them. *)
Record clsSender : Type := {
  clLists : list CLList;
  projects : option Projects;
  clsSent : Z;
  removeOutdatedFn : clNumberToPatchsetMap -> M (list (option Err));
  addPresubmitFn : CLList -> list string -> M (option Err);
  postMessageFn : string -> list string -> bool -> M (option Err)
}.

Record processCLListResult : Type := {
  clMap : clNumberToPatchsetMap;
  clString : string;
  skipPresubmitTest : bool;
  hasNonGoogleOwner : bool;
  result_projects : list string;
  refs : list string;
  filteredCLList : CLList
}.

(** The local variables of [processCLList]. *)
Record processCLListVars : Type := {
  var_curCLMap : clNumberToPatchsetMap;
  var_clStrings : list string;
  var_skipPresubmitTest : bool;
  var_hasNonGoogleOwner : bool;
  var_projects : list string;
  var_refs : list string;
  var_filteredCLList : CLList
}.

(** The loop of [processCLList]; [None] is the nil pointer that the parse
    failure returns. *)
Fixpoint processCLList_loop (s : clsSender) (curCLList : CLList)
    (v : processCLListVars) : M (option processCLListResult) :=
  match curCLList with
  | [] =>
      ret (Some {|
        clMap := var_curCLMap v;
        clString := Join (var_clStrings v) ", ";
        skipPresubmitTest := var_skipPresubmitTest v;
        hasNonGoogleOwner := var_hasNonGoogleOwner v;
        result_projects := var_projects v;
        refs := var_refs v;
        filteredCLList := var_filteredCLList v |})
  | curCL :: rest =>
      unknown <- match projects s with
                 | Some ps => known <- isKnownProject curCL ps;; ret (negb known)
                 | None => ret false
                 end;;
      if (unknown : bool) then processCLList_loop s rest v
      else
        let filteredCLList := var_filteredCLList v ++ [curCL] in
        match ParseRefString (Reference curCL) with
        | inl err =>
            printf Stderr "%v\n" [ArgErr err];;;
            ret None
        | inr (cl, patchset) =>
            processCLList_loop s rest {|
              var_curCLMap := <[cl := patchset]> (var_curCLMap v);
              var_clStrings :=
                var_clStrings v
                ++ [Sprintf "http://go/vcl/%d/%d" [ArgInt cl; ArgInt patchset]];
              var_skipPresubmitTest :=
                match PresubmitTest curCL with
                | PresubmitTestTypeNone => true
                | _ => var_skipPresubmitTest v
                end;
              var_hasNonGoogleOwner := negb (checkEmailAddress (OwnerEmail curCL));
              var_projects := var_projects v ++ [Project curCL];
              var_refs := var_refs v ++ [Reference curCL];
              var_filteredCLList := filteredCLList |}
        end
  end.

Definition processCLList (s : clsSender) (curCLList : CLList)
  : M (option processCLListResult) :=
  processCLList_loop s curCLList {|
    var_curCLMap := ∅;
    var_clStrings := [];
    var_skipPresubmitTest := false;
    var_hasNonGoogleOwner := false;
    var_projects := [];
    var_refs := [];
    var_filteredCLList := [] |}.

Definition handleNonGoogleOwner (s : clsSender)
    (refs projects tests : list string) : M (option Err) :=
  let link :=
    genStartPresubmitBuildLink (Join refs ":") (Join projects ":")
      (Join tests " ") in
  let message :=
    Sprintf
      "A Vanadium team member will manually trigger presubmit tests for this change:\n%s\n"
      [ArgStr link] in
  e <- postMessageFn s message refs false;;
  match e with
  | Some err => ret (Some err)
  | None => ret None
  end.

(** The loop over the errors that [removeOutdatedFn] returned. *)
Fixpoint printErrors (errs : list (option Err)) : M unit :=
  match errs with
  | [] => ret tt
  | Some err :: rest => printf Stderr "%v\n" [ArgErr err];;; printErrors rest
  | None :: rest => printErrors rest
  end.

(** The loop of [sendCLListsToPresubmitTest]; it returns the new value of
    [s.clsSent] with the error.  A nil [clListInfo] is dereferenced at the
    top of the body, which panics. *)
Fixpoint sendLoop (s : clsSender) (lists : list CLList) (sent : Z)
  : M (Z * option Err) :=
  match lists with
  | [] => ret (sent, None)
  | curCLList :: rest =>
      clListInfo <- processCLList s curCLList;;
      match clListInfo with
      | None => panic
      | Some clListInfo =>
          let curCLList := filteredCLList clListInfo in
          if (length curCLList =? 0)%nat then
            printf Stdout "SKIP: Empty CL set\n" [];;;
            sendLoop s rest sent
          else if skipPresubmitTest clListInfo then
            e <- postMessageFn s "Presubmit tests skipped.\n"
                   (refs clListInfo) true;;
            match e with
            | Some err => ret (sent, Some err)
            | None =>
                printf Stdout "SKIP: Add %s (presubmit=none)\n"
                  [ArgStr (clString clListInfo)];;;
                sendLoop s rest sent
            end
          else
            t <- getTestsToRun (result_projects clListInfo);;
            match t with
            | (_, Some err) => ret (sent, Some err)
            | (tests, None) =>
                if (length tests =? 0)%nat then
                  e <- postMessageFn s "No tests found.\n"
                         (refs clListInfo) true;;
                  match e with
                  | Some err => ret (sent, Some err)
                  | None =>
                      printf Stdout "SKIP: Add %s (no tests found)\n"
                        [ArgStr (clString clListInfo)];;;
                      sendLoop s rest sent
                  end
                else if hasNonGoogleOwner clListInfo then
                  e <- handleNonGoogleOwner s (refs clListInfo)
                         (result_projects clListInfo) tests;;
                  match e with
                  | Some err => ret (sent, Some err)
                  | None =>
                      printf Stdout "SKIP: Add %s (non-google owner)\n"
                        [ArgStr (clString clListInfo)];;;
                      sendLoop s rest sent
                  end
                else
                  errs <- removeOutdatedFn s (clMap clListInfo);;
                  printErrors errs;;;
                  let strCLs := Sprintf "Add %s" [ArgStr (clString clListInfo)] in
                  e <- addPresubmitFn s curCLList tests;;
                  match e with
                  | Some err =>
                      printf Stdout "FAIL: %s\n" [ArgStr strCLs];;;
                      printf Stderr "addPresubmitTestBuild failed: %v\n"
                        [ArgErr err];;;
                      sendLoop s rest sent
                  | None =>
                      printf Stdout "PASS: %s\n" [ArgStr strCLs];;;
                      sendLoop s rest (sent + Z.of_nat (length curCLList))
                  end
            end
      end
  end.

(** sendCLListsToPresubmitTest sends the given clLists to presubmit-test
    Jenkins job one by one to run presubmit-test builds. *)
Definition sendCLListsToPresubmitTest (s : clsSender) : M (Z * option Err) :=
  sendLoop s (clLists s) (clsSent s).

(** [postMessage] of package [main], a call to the review server. *)
Definition postMessageCall (message : string) (refs : list string)
    (success : bool) : M (option Err) :=
  call (postMessage message refs success) (EvPostMessage message refs success).

(** The loop of [runQuery] over the multi-part errors: each is printed, and
    a [*gerrit.ChangeError] is also posted to Gerrit. *)
Fixpoint multiPartLoop (multiPartErrs : list Err) : M unit :=
  match multiPartErrs with
  | [] => ret tt
  | e :: rest =>
      printf Stderr "%v\n" [ArgErr e];;;
      match e with
      | ErrChange CL cause =>
          let clRef := Reference CL in
          let msg :=
            Sprintf "failed to process multi-part CL %s:\n%v\n"
              [ArgStr clRef; ArgErr cause] in
          postErr <- postMessageCall msg [clRef] false;;
          match postErr with
          | Some postErr => printf Stderr "%v\n" [ArgErr postErr]
          | None => ret tt
          end
      | _ => ret tt
      end;;;
      multiPartLoop rest
  end.

(** The loop of [runQuery] over the submittable CLs. *)
Fixpoint submitLoop (submittableCLs : list CLList) : M (option Err) :=
  match submittableCLs with
  | [] => ret None
  | curCLList :: rest =>
      e <- call (submitCLs curCLList) (EvSubmitCLs curCLList);;
      match e with
      | Some err => ret (Some err)
      | None => submitLoop rest
      end
  end.

(** The sender that [runQuery] builds. *)
Definition querySender (newCLLists : list CLList) (projects : Projects)
  : clsSender := {|
  clLists := newCLLists;
  projects := Some projects;
  clsSent := 0;
  removeOutdatedFn := removeOutdatedBuilds;
  addPresubmitFn := addPresubmitTestBuild;
  postMessageFn := postMessageCall |}.

(** [runQuery] from "Get new clLists" on; the result is the value of
    [numSentCLs] at the return, with the error. *)
Definition runQuery_send (prevCLsMap : clNumberToPatchsetMap)
    (curCLs : CLList) : M (Z * option Err) :=
  let numSentCLs := 0 in
  let '(newCLLists, multiPartErrs) := NewOpenCLs prevCLsMap curCLs in
  multiPartLoop multiPartErrs;;;
  l <- call LoadManifest EvLoadManifest;;
  match l with
  | inl err => ret (numSentCLs, Some err)
  | inr projects =>
      let sender := querySender newCLLists projects in
      r <- sendCLListsToPresubmitTest sender;;
      match r with
      | (_, Some err) => ret (numSentCLs, Some err)
      | (sent, None) =>
          let numSentCLs := numSentCLs + sent in
          submittableCLs <- call (getSubmittableCLs curCLs)
                              (EvGetSubmittableCLs curCLs);;
          (if (0 <? length submittableCLs)%nat
           then printf Stdout "Submitting CLs...\n" []
           else ret tt);;;
          e <- submitLoop submittableCLs;;
          match e with
          | Some err => ret (numSentCLs, Some err)
          | None => ret (numSentCLs, None)
          end
      end
  end.

(** [runQuery] from the read of the log file on. *)
Definition runQuery_fromLog : M (Z * option Err) :=
  let numSentCLs := 0 in
  p <- call (ReadLog logFilePathFlag) (EvReadLog logFilePathFlag);;
  match p with
  | inl err => ret (numSentCLs, Some err)
  | inr prevCLsMap =>
  g <- call gerritBaseUrl EvGerritBaseUrl;;
  match g with
  | inl err => ret (numSentCLs, Some err)
  | inr gUrl =>
  c <- call (Query gUrl queryStringFlag) (EvQuery gUrl queryStringFlag);;
  match c with
  | inl err => ret (numSentCLs, Some (ErrQueryFailed queryStringFlag err))
  | inr curCLs =>
  e <- call (WriteLog logFilePathFlag curCLs)
         (EvWriteLog logFilePathFlag curCLs);;
  match e with
  | Some err => ret (numSentCLs, Some err)
  | None =>
      if String.eqb jenkinsHostFlag "" then
        printf Stdout
          "Not sending CLs to run presubmit tests due to empty Jenkins host.\n"
          [];;;
        ret (numSentCLs, None)
      else if (size prevCLsMap =? 0)%nat then
        printf Stdout
          "Not sending CLs to run presubmit tests due to empty log file.\n"
          [];;;
        ret (numSentCLs, None)
      else runQuery_send prevCLsMap curCLs
  end end end end.

(** [runQuery] before the deferred print. *)
Definition runQuery_body : M (Z * option Err) :=
  let numSentCLs := 0 in
  j <- call (Jenkins jenkinsHostFlag) (EvJenkins jenkinsHostFlag);;
  match j with
  | Some err => ret (numSentCLs, Some err)
  | None =>
      st <- call (LastCompletedBuildStatus presubmitTestJobFlag)
              (EvLastCompletedBuildStatus presubmitTestJobFlag);;
      match st with
      | inl err =>
          printf Stderr "%v\n" [ArgErr err];;;
          runQuery_fromLog
      | inr lastBuildInfo =>
          if String.eqb (Result lastBuildInfo) "FAILURE" then
            printf Stdout "%s is failing. Skipping this round.\n"
              [ArgStr presubmitTestJobFlag];;;
            ret (numSentCLs, None)
          else runQuery_fromLog
      end
  end.

(** The deferred function of [runQuery]: it prints [numSentCLs] when the
    body returns and when it panics; the variable is only assigned after
    [sendCLListsToPresubmitTest] has returned, so a panic finds it at 0. *)
Definition deferredPrint (r : Ran World (Z * option Err))
  : Ran World (option Err) :=
  match outcome r with
  | Returned (numSentCLs, err) =>
      MkRan (events r ++ [EvPrint Stdout "%d sent.\n" [ArgInt numSentCLs]])
        (after r) (Returned err)
  | Panicked =>
      MkRan (events r ++ [EvPrint Stdout "%d sent.\n" [ArgInt 0]])
        (after r) Panicked
  end.

(** runQuery implements the "query" subcommand. *)
Definition runQuery : M (option Err) :=
  fun w => deferredPrint (runQuery_body w).

End Query.

(** ** A scripted environment for concrete runs *)

Module Sample.

(** Decimal digits, most significant first. *)
Fixpoint digits (s : string) (acc : Z) : option Z :=
  match s with
  | EmptyString => Some acc
  | String c s' =>
      let n := Z.of_nat (nat_of_ascii c) in
      if (48 <=? n) && (n <=? 57) then digits s' (10 * acc + (n - 48))
      else None
  end.

(** [strconv.Atoi] on unsigned decimal numerals. *)
Definition Atoi (s : string) : option Z :=
  match s with
  | EmptyString => None
  | _ => digits s 0
  end.

(** A ref parser for refs of the form [refs/changes/NN/NNNN/P]: five parts
    separated by slashes, the fourth the change number and the fifth the
    patchset. *)
Definition parseRef (ref : string) : Err + Z * Z :=
  match Split ref "/"%char with
  | [_; _; _; cl; patchset] =>
      match Atoi cl, Atoi patchset with
      | Some cl, Some patchset => inr (cl, patchset)
      | _, _ => inl (ErrExternal ("Atoi failed: " +:+ ref))
      end
  | _ => inl (ErrExternal ("unexpected number of parts: " +:+ ref))
  end.

Definition showArg (a : Arg) : string :=
  match a with
  | ArgInt n => pretty n
  | ArgStr s => s
  | ArgErr _ => "error"
  end.

(** A stand-in for [fmt.Sprintf]: the format followed by the arguments. *)
Definition sprintf (format : string) (args : list Arg) : string :=
  Join (format :: map showArg args) " ".

(** A stand-in for [gerrit.NewOpenCLs]: every change that is absent from
    the previous map, or there with a smaller patchset, is a group of its
    own. *)
Definition newOpenCLs (prev : clNumberToPatchsetMap) (cur : CLList)
  : list CLList * list Err :=
  (omap (fun c : Change =>
           match parseRef (Reference c) with
           | inr (cl, patchset) =>
               match prev !! cl with
               | Some old => if old <? patchset then Some [c] else None
               | None => Some [c]
               end
           | inl _ => None
           end) cur, []).

Definition library : Library := {|
  ParseRefString := parseRef;
  NewOpenCLs := newOpenCLs;
  Sprintf := sprintf;
  genStartPresubmitBuildLink := fun refs projects tests =>
    "https://jenkins/start?REFS=" +:+ refs +:+ "&PROJECTS=" +:+ projects
    +:+ "&TESTS=" +:+ tests
|}.

Definition flags : Flags := {|
  jenkinsHostFlag := "http://jenkins";
  presubmitTestJobFlag := "presubmit-test";
  queryStringFlag := "status:open";
  logFilePathFlag := "/tmp/presubmit_log"
|}.

(** The answers of the collaborators in one scripted run. *)
Record Script : Type := {
  onJenkins : option Err;
  onLastCompletedBuildStatus : Err + BuildInfo;
  onReadLog : Err + clNumberToPatchsetMap;
  onQuery : Err + CLList;
  onWriteLog : option Err;
  onLoadConfig : Err + Config;
  onPostMessage : option Err;
  onQueuedBuilds : Err + list QueuedBuild;
  onAddBuildWithParameter : option Err
}.

(** The world of a scripted run has no state of its own. *)
Definition scripted (sc : Script) : Collaborators unit := {|
  Jenkins := fun _ w => (onJenkins sc, w);
  LastCompletedBuildStatus := fun _ w => (onLastCompletedBuildStatus sc, w);
  ReadLog := fun _ w => (onReadLog sc, w);
  gerritBaseUrl := fun w => (inr "https://review", w);
  Query := fun _ _ w => (onQuery sc, w);
  WriteLog := fun _ _ w => (onWriteLog sc, w);
  LoadManifest := fun w => (inr ["release.go.core"; "release.js.core"], w);
  LoadConfig := fun w => (onLoadConfig sc, w);
  postMessage := fun _ _ _ w => (onPostMessage sc, w);
  QueuedBuilds := fun _ w => (onQueuedBuilds sc, w);
  OngoingBuilds := fun _ w => (inr [], w);
  CancelQueuedBuild := fun _ w => (None, w);
  CancelOngoingBuild := fun _ _ w => (None, w);
  AddBuildWithParameter := fun _ _ _ _ w => (onAddBuildWithParameter sc, w);
  getSubmittableCLs := fun _ w => ([], w);
  submitCLs := fun _ w => (None, w)
|}.

Definition config : Config := {|
  ProjectTests := fun projects =>
    if bool_decide ("release.go.core" ∈ projects)
    then ["vanadium-go-test"; "vanadium-go-race"] else [];
  TestParts := fun test =>
    if String.eqb test "vanadium-go-race" then Some ["a"; "b"] else None
|}.

Definition goodBuild : BuildInfo := {|
  Building := false; Number := 7; Result := "SUCCESS";
  BuildInfo_ParseRefs := "refs/changes/00/1000/1" |}.

(** A run in which every collaborator succeeds: the log holds change 1000
    at patchset 1 and nothing is queued. *)
Definition quiet : Script := {|
  onJenkins := None;
  onLastCompletedBuildStatus := inr goodBuild;
  onReadLog := inr {[ 1000 := 1 ]};
  onQuery := inr [];
  onWriteLog := None;
  onLoadConfig := inr config;
  onPostMessage := None;
  onQueuedBuilds := inr [];
  onAddBuildWithParameter := None
|}.

Definition change (ref email : string) (t : PresubmitTestType) : Change := {|
  Reference := ref;
  Project := "release.go.core";
  OwnerEmail := email;
  PresubmitTest := t
|}.

(** The first run: the log file is absent, Gerrit has one open change. *)
Definition firstRun : Script := {|
  onJenkins := None;
  onLastCompletedBuildStatus := inr goodBuild;
  onReadLog := inr ∅;
  onQuery := inr [change "refs/changes/00/100/1" "bob@google.com"
                    PresubmitTestTypeAll];
  onWriteLog := None;
  onLoadConfig := inr config;
  onPostMessage := None;
  onQueuedBuilds := inr [];
  onAddBuildWithParameter := None
|}.

(** The log file cannot be read. *)
Definition logUnreadable : Script := {|
  onJenkins := None;
  onLastCompletedBuildStatus := inr goodBuild;
  onReadLog := inl (ErrExternal "malformed log");
  onQuery := inr [];
  onWriteLog := None;
  onLoadConfig := inr config;
  onPostMessage := None;
  onQueuedBuilds := inr [];
  onAddBuildWithParameter := None
|}.

(** The Gerrit query fails. *)
Definition queryFails : Script := {|
  onJenkins := None;
  onLastCompletedBuildStatus := inr goodBuild;
  onReadLog := inr {[ 1000 := 1 ]};
  onQuery := inl (ErrExternal "connection refused");
  onWriteLog := None;
  onLoadConfig := inr config;
  onPostMessage := None;
  onQueuedBuilds := inr [];
  onAddBuildWithParameter := None
|}.

(** The last presubmit-test build failed. *)
Definition lastBuildFailed : Script := {|
  onJenkins := None;
  onLastCompletedBuildStatus := inr {|
    Building := false; Number := 7; Result := "FAILURE";
    BuildInfo_ParseRefs := "refs/changes/00/1000/1" |};
  onReadLog := inr {[ 1000 := 1 ]};
  onQuery := inr [];
  onWriteLog := None;
  onLoadConfig := inr config;
  onPostMessage := None;
  onQueuedBuilds := inr [];
  onAddBuildWithParameter := None
|}.

(** The status of the last build cannot be fetched. *)
Definition statusUnavailable : Script := {|
  onJenkins := None;
  onLastCompletedBuildStatus := inl (ErrExternal "no such job");
  onReadLog := inr {[ 1000 := 1 ]};
  onQuery := inr [];
  onWriteLog := None;
  onLoadConfig := inr config;
  onPostMessage := None;
  onQueuedBuilds := inr [];
  onAddBuildWithParameter := None
|}.

(** [runQuery] on a script. *)
Definition run (sc : Script) : Ran unit (option Err) :=
  @runQuery unit library flags (scripted sc) tt.

(** A group whose second change has a ref that does not parse. *)
Definition malformedGroup : CLList :=
  [change "refs/changes/00/100/1" "bob@google.com" PresubmitTestTypeAll;
   change "not-a-ref" "bob@google.com" PresubmitTestTypeAll].

(** The sender of [runQuery] on a script, for the given groups. *)
Definition sender (sc : Script) (lists : list CLList) : @clsSender unit :=
  @querySender unit library flags (scripted sc)
    lists ["release.go.core"; "release.js.core"].

(** [sendCLListsToPresubmitTest] on a script. *)
Definition send (sc : Script) (lists : list CLList) : Ran unit (Z * option Err) :=
  @sendCLListsToPresubmitTest unit library (scripted sc) (sender sc lists) tt.

Definition queued (id : Z) (refs : string) : QueuedBuild :=
  {| Id := id; QueuedBuild_ParseRefs := refs |}.

(** A queue whose second build has no refs and whose first build has refs
    that do not parse. *)
Definition brokenQueue : Script := {|
  onJenkins := None;
  onLastCompletedBuildStatus := inr goodBuild;
  onReadLog := inr {[ 1000 := 1 ]};
  onQuery := inr [];
  onWriteLog := None;
  onLoadConfig := inr config;
  onPostMessage := None;
  onQueuedBuilds := inr [queued 1 "not-a-ref"; queued 2 ""];
  onAddBuildWithParameter := None
|}.

(** A queue whose second build has no refs, between two builds of change
    1000 at patchset 1. *)
Definition staleQueue : Script := {|
  onJenkins := None;
  onLastCompletedBuildStatus := inr goodBuild;
  onReadLog := inr {[ 1000 := 1 ]};
  onQuery := inr [];
  onWriteLog := None;
  onLoadConfig := inr config;
  onPostMessage := None;
  onQueuedBuilds := inr [queued 1 "refs/changes/00/1000/1"; queued 2 "";
                         queued 3 "refs/changes/00/1000/1"];
  onAddBuildWithParameter := None
|}.

(** [removeQueuedOutdatedBuilds] on a script. *)
Definition removeQueued (sc : Script) (cls : clNumberToPatchsetMap)
  : Ran unit (option Err) :=
  @removeQueuedOutdatedBuilds unit library flags (scripted sc) cls tt.

(** A group whose first owner is outside Google and whose second is not. *)
Definition mixedGroup : CLList :=
  [change "refs/changes/00/100/1" "eve@example.com" PresubmitTestTypeAll;
   change "refs/changes/00/200/3" "bob@google.com" PresubmitTestTypeAll].

(** The same two changes in the other order. *)
Definition mixedGroupSwapped : CLList :=
  [change "refs/changes/00/200/3" "bob@google.com" PresubmitTestTypeAll;
   change "refs/changes/00/100/1" "eve@example.com" PresubmitTestTypeAll].

(** A change that opts out of presubmit tests, and a plain change. *)
Definition optOutGroup : CLList :=
  [change "refs/changes/00/100/1" "bob@google.com" PresubmitTestTypeNone].

Definition plainGroup : CLList :=
  [change "refs/changes/00/200/3" "bob@google.com" PresubmitTestTypeAll].



(** The loop of the sender on a script. *)
Definition sendGroups (sc : Script) (lists : list CLList)
  : Ran unit (Z * option Err) :=
  @sendLoop unit library (scripted sc) (sender sc []) lists 0 tt.

End Sample.

(** A change passes the known-project filter of [processCLList]. *)
Definition passesFilter {World} (s : @clsSender World) (cl : Change) : bool :=
  match projects s with
  | Some ps => negb (length (Find ps (Project cl)) =? 0)%nat
  | None => true
  end.

(** The owner check on the last change of a list; false for no change. *)
Definition lastOwnerFails (cls : CLList) : bool :=
  match last cls with
  | Some cl => negb (checkEmailAddress (OwnerEmail cl))
  | None => false
  end.

(** ** Kinds of events *)

(** A build is triggered. *)
Definition triggersBuild (e : Event) : bool :=
  match e with
  | EvAddBuildWithParameter _ _ _ _ _ => true
  | _ => false
  end.

(** A queued or running build is cancelled. *)
Definition cancelsBuild (e : Event) : bool :=
  match e with
  | EvCancelQueuedBuild _ _ | EvCancelOngoingBuild _ _ _ => true
  | _ => false
  end.

(** The log file is written. *)
Definition writesLog (e : Event) : bool :=
  match e with
  | EvWriteLog _ _ _ => true
  | _ => false
  end.

(** A line is printed. *)
Definition printsOnly (e : Event) : bool :=
  match e with
  | EvPrint _ _ _ => true
  | _ => false
  end.

(** The events of [removeOutdatedBuilds]. *)
Definition outdatedEvent (e : Event) : bool :=
  match e with
  | EvJenkins _ _ | EvQueuedBuilds _ _ | EvOngoingBuilds _ _
  | EvCancelQueuedBuild _ _ | EvCancelOngoingBuild _ _ _ | EvPrint _ _ _ => true
  | _ => false
  end.

(** The events of [addPresubmitTestBuild]. *)
Definition addEvent (e : Event) : bool :=
  match e with
  | EvJenkins _ _ | EvAddBuildWithParameter _ _ _ _ _ => true
  | _ => false
  end.

(** The events of [getTestsToRun]. *)
Definition configEvent (e : Event) : bool :=
  match e with
  | EvLoadConfig _ => true
  | _ => false
  end.

(** The events of [postMessage]. *)
Definition postEvent (e : Event) : bool :=
  match e with
  | EvPostMessage _ _ _ _ => true
  | _ => false
  end.

(** The events of [sendCLListsToPresubmitTest] with the sender of
    [runQuery]. *)
Definition sendEvent (e : Event) : bool :=
  outdatedEvent e || addEvent e || configEvent e || postEvent e.

(** The events of [runQuery] after the log was written: everything but the
    status of the last build, the read and the write of the log, the Gerrit
    URL and the query. *)
Definition dispatchEvent (e : Event) : bool :=
  match e with
  | EvLastCompletedBuildStatus _ _ | EvReadLog _ _ | EvGerritBaseUrl _
  | EvQuery _ _ _ | EvWriteLog _ _ _ => false
  | _ => true
  end.

(** The events of [runQuery] from the read of the log on. *)
Definition fromLogEvent (e : Event) : bool :=
  match e with
  | EvLastCompletedBuildStatus _ _ => false
  | _ => true
  end.

(** Every event of every run of [m] is of kind [K]. *)
Definition emits {World A} (K : Event -> bool) (m : M World A) : Prop :=
  forall w, Forall (fun e => K e = true) (events (m w)).




(** The run [y] is the run [x] of one group, followed by [K] when [x]
    returned a nil error. *)
Definition continues {World} (K : Z -> M World (Z * option Err))
    (x y : Ran World (Z * option Err)) : Prop :=
  y = match outcome x with
      | Returned (sent, None) => prefix (events x) (K sent (after x))
      | _ => x
      end.



(** The log is read or written, or Gerrit is queried. *)
Definition logOrQuery (e : Event) : bool :=
  match e with
  | EvReadLog _ _ | EvQuery _ _ _ | EvWriteLog _ _ _ => true
  | _ => false
  end.

(** The tests that the spec asks for: every configured test with parts
    gives one name per index from 0 to the number of parts, a test without
    parts gives its own name. *)
Definition expandTest (config : Config) (test : string) : list string :=
  match TestParts config test with
  | Some parts =>
      map (fun i => test +:+ "-part" +:+ pretty i) (seq 0 (S (length parts)))
  | None => [test]
  end.

Definition expectedTests (config : Config) (projects : list string)
  : list string :=
  concat (map (expandTest config) (ProjectTests config projects)).

(** ** Vocabulary of the further properties *)

(** The change opts out of presubmit tests. *)
Definition optsOut (cl : Change) : bool :=
  match PresubmitTest cl with
  | PresubmitTestTypeNone => true
  | _ => false
  end.

(** The string does not contain the byte [sep]. *)
Fixpoint sepFree (sep : ascii) (s : string) : bool :=
  match s with
  | EmptyString => true
  | String c s' => negb (Ascii.eqb c sep) && sepFree sep s'
  end.

(** The line that [isKnownProject] prints for a change of an unknown
    project. *)
Definition notFoundPrint (cl : Change) : Event :=
  EvPrint Stdout "project=%q (%s) not found. Skipped.\n"
    [ArgStr (Project cl); ArgStr (Reference cl)].

(** The lines printed for a group all of whose changes are filtered out. *)
Definition emptyGroupPrints (g : CLList) : list Event :=
  map notFoundPrint g ++ [EvPrint Stdout "SKIP: Empty CL set\n" []].

(** The number of changes in a list of groups. *)
Definition changeCount (lists : list CLList) : Z :=
  Z.of_nat (length (concat lists)).

(** The events of [removeQueuedOutdatedBuilds]. *)
Definition queuedEvent (e : Event) : bool :=
  match e with
  | EvJenkins _ _ | EvQueuedBuilds _ _ | EvCancelQueuedBuild _ _
  | EvPrint _ _ _ => true
  | _ => false
  end.

(** The events of [removeOngoingOutdatedBuilds]. *)
Definition ongoingEvent (e : Event) : bool :=
  match e with
  | EvJenkins _ _ | EvOngoingBuilds _ _ | EvCancelOngoingBuild _ _ _
  | EvPrint _ _ _ => true
  | _ => false
  end.

(** The error of a failed call to Jenkins. *)
Definition failedJenkinsCall (e : Event) : option Err :=
  match e with
  | EvJenkins _ (Some err) | EvQueuedBuilds _ (inl err)
  | EvOngoingBuilds _ (inl err) | EvCancelQueuedBuild _ (Some err)
  | EvCancelOngoingBuild _ _ (Some err) => Some err
  | _ => None
  end.

(** The loop of [removeOngoingOutdatedBuilds] looks at a build only when it
    is building and has refs. *)
Definition examined (buildInfo : BuildInfo) : bool :=
  Building buildInfo && negb (String.eqb (BuildInfo_ParseRefs buildInfo) "").

(** The error of a run, as [collect.Errors] keeps it. *)
Definition collected {World} (r : Ran World (option Err)) : list (option Err) :=
  match outcome r with
  | Returned (Some err) => [Some err]
  | _ => []
  end.

(** The run never panics. *)
Definition neverPanics {World A} (m : M World A) : Prop :=
  forall w, outcome (m w) <> Panicked.

(** The events of [runQuery] before it sends anything: the calls to Jenkins
    at its start, the read and the write of the log, the Gerrit URL, the
    query, and prints. *)
Definition beforeSending (e : Event) : bool :=
  match e with
  | EvJenkins _ _ | EvLastCompletedBuildStatus _ _ | EvReadLog _ _
  | EvGerritBaseUrl _ | EvQuery _ _ _ | EvWriteLog _ _ _ | EvPrint _ _ _ => true
  | _ => false
  end.

Section RunShapes.

Context {World : Type} `{!Library} `{!Flags} `{!Collaborators World}.

(** The ways [runQuery] runs from the read of the log on: it returns the
    error of the read, of the Gerrit URL, of the query (wrapped) or of the
    write; or, the log written, it stops for an empty Jenkins host or an
    empty previous log; or it goes on to send the new groups. *)
Inductive FromLogRun : Ran World (Z * option Err) -> Prop :=
| ReadFailed err w1 :
    FromLogRun (MkRan [EvReadLog logFilePathFlag (inl err)] w1
                  (Returned (0, Some err)))
| UrlFailed prev err w2 :
    FromLogRun (MkRan [EvReadLog logFilePathFlag (inr prev);
                       EvGerritBaseUrl (inl err)] w2
                  (Returned (0, Some err)))
| QueryFailed prev url err w3 :
    FromLogRun (MkRan [EvReadLog logFilePathFlag (inr prev);
                       EvGerritBaseUrl (inr url);
                       EvQuery url queryStringFlag (inl err)] w3
                  (Returned (0, Some (ErrQueryFailed queryStringFlag err))))
| WriteFailed prev url cur err w4 :
    FromLogRun (MkRan [EvReadLog logFilePathFlag (inr prev);
                       EvGerritBaseUrl (inr url);
                       EvQuery url queryStringFlag (inr cur);
                       EvWriteLog logFilePathFlag cur (Some err)] w4
                  (Returned (0, Some err)))
| NoJenkinsHost prev url cur w4 :
    jenkinsHostFlag = "" ->
    FromLogRun (MkRan [EvReadLog logFilePathFlag (inr prev);
                       EvGerritBaseUrl (inr url);
                       EvQuery url queryStringFlag (inr cur);
                       EvWriteLog logFilePathFlag cur None;
                       EvPrint Stdout
                         "Not sending CLs to run presubmit tests due to empty Jenkins host.\n"
                         []] w4
                  (Returned (0, None)))
| EmptyLog prev url cur w4 :
    jenkinsHostFlag <> "" -> size prev = 0%nat ->
    FromLogRun (MkRan [EvReadLog logFilePathFlag (inr prev);
                       EvGerritBaseUrl (inr url);
                       EvQuery url queryStringFlag (inr cur);
                       EvWriteLog logFilePathFlag cur None;
                       EvPrint Stdout
                         "Not sending CLs to run presubmit tests due to empty log file.\n"
                         []] w4
                  (Returned (0, None)))
| Sending prev url cur w4 :
    jenkinsHostFlag <> "" -> size prev <> 0%nat ->
    FromLogRun (prefix [EvReadLog logFilePathFlag (inr prev);
                        EvGerritBaseUrl (inr url);
                        EvQuery url queryStringFlag (inr cur);
                        EvWriteLog logFilePathFlag cur None]
                  (runQuery_send prev cur w4)).

(** The ways [runQuery] runs: the connection to Jenkins fails; the last
    build failed; or, after the status of the last build (an error is
    printed), it runs from the read of the log on, and the deferred function
    prints the count. *)
Inductive QueryRun : Ran World (option Err) -> Prop :=
| JenkinsFailed err w1 :
    QueryRun (MkRan [EvJenkins jenkinsHostFlag (Some err);
                     EvPrint Stdout "%d sent.\n" [ArgInt 0]] w1
                (Returned (Some err)))
| LastBuildFailed info w2 :
    Result info = "FAILURE" ->
    QueryRun (MkRan [EvJenkins jenkinsHostFlag None;
                     EvLastCompletedBuildStatus presubmitTestJobFlag (inr info);
                     EvPrint Stdout "%s is failing. Skipping this round.\n"
                       [ArgStr presubmitTestJobFlag];
                     EvPrint Stdout "%d sent.\n" [ArgInt 0]] w2
                (Returned None))
| StatusFailed err r :
    FromLogRun r ->
    QueryRun (prefix [EvJenkins jenkinsHostFlag None;
                      EvLastCompletedBuildStatus presubmitTestJobFlag (inl err);
                      EvPrint Stderr "%v\n" [ArgErr err]]
                (deferredPrint r))
| StatusFetched info r :
    Result info <> "FAILURE" ->
    FromLogRun r ->
    QueryRun (prefix [EvJenkins jenkinsHostFlag None;
                      EvLastCompletedBuildStatus presubmitTestJobFlag (inr info)]
                (deferredPrint r)).

End RunShapes.



(** ** More scripted runs *)

Module Scenario.

(** Flags without a Jenkins host. *)
Definition noHost : Flags := {|
  jenkinsHostFlag := "";
  presubmitTestJobFlag := "presubmit-test";
  queryStringFlag := "status:open";
  logFilePathFlag := "/tmp/presubmit_log"
|}.

(** One new change is open and the log file cannot be written. *)
Definition writeFails : Sample.Script := {|
  Sample.onJenkins := None;
  Sample.onLastCompletedBuildStatus := inr Sample.goodBuild;
  Sample.onReadLog := inr {[ 1000 := 1 ]};
  Sample.onQuery := inr Sample.plainGroup;
  Sample.onWriteLog := Some (ErrExternal "disk full");
  Sample.onLoadConfig := inr Sample.config;
  Sample.onPostMessage := None;
  Sample.onQueuedBuilds := inr [];
  Sample.onAddBuildWithParameter := None
|}.

(** Jenkins cannot be reached. *)
Definition jenkinsDown : Sample.Script := {|
  Sample.onJenkins := Some (ErrExternal "no route to host");
  Sample.onLastCompletedBuildStatus := inr Sample.goodBuild;
  Sample.onReadLog := inr {[ 1000 := 1 ]};
  Sample.onQuery := inr [];
  Sample.onWriteLog := None;
  Sample.onLoadConfig := inr Sample.config;
  Sample.onPostMessage := None;
  Sample.onQueuedBuilds := inr [];
  Sample.onAddBuildWithParameter := None
|}.

(** A group of two changes of a project that the manifest does not list. *)
Definition foreignGroup : CLList :=
  [{| Reference := "refs/changes/00/300/1"; Project := "third_party";
      OwnerEmail := "bob@google.com"; PresubmitTest := PresubmitTestTypeAll |};
   {| Reference := "refs/changes/00/400/2"; Project := "third_party";
      OwnerEmail := "bob@google.com"; PresubmitTest := PresubmitTestTypeAll |}].

(** [runQuery] on a script, without a Jenkins host. *)
Definition runNoHost (sc : Sample.Script) : Ran unit (option Err) :=
  @runQuery unit Sample.library noHost (Sample.scripted sc) tt.

(** [processCLList] of the sender of [runQuery] on a script. *)
Definition process (sc : Sample.Script) (g : CLList)
  : Ran unit (option processCLListResult) :=
  @processCLList unit Sample.library (Sample.sender sc []) g tt.

(** [removeOutdatedBuilds] and [removeOngoingOutdatedBuilds] on a script. *)
Definition removeOutdated (sc : Sample.Script) (cls : clNumberToPatchsetMap)
  : Ran unit (list (option Err)) :=
  @removeOutdatedBuilds unit Sample.library Sample.flags (Sample.scripted sc)
    cls tt.

Definition removeOngoing (sc : Sample.Script) (cls : clNumberToPatchsetMap)
  : Ran unit (option Err) :=
  @removeOngoingOutdatedBuilds unit Sample.library Sample.flags
    (Sample.scripted sc) cls tt.

End Scenario.

(** ** Statistics of the IPC stress test (lib/testutil/ipc.go) *)

Module Stress.

Definition testNumServerNodes : Z := 5.
Definition testNumClientNodes : Z := 10.

(** Arithmetic on [uint64] wraps around. *)
Definition uint64_add (a b : Z) : Z := (a + b) mod 2 ^ 64.

Record stressStats : Type := {
  sumCount : Z;
  sumStreamCount : Z
}.

(** The two errors of [strconv.ParseUint]. *)
Inductive NumError : Type := ErrSyntax | ErrRange.

(** The errors of [readOneStats] and [readStats]; each keeps the value that
    the message is formatted from. *)
Inductive StatsError : Type :=
| InvalidStats (match_ : list string)
| BadNumber (err : NumError) (match_ : list string)
| ZeroCount (match_ : list string)
| InvalidClientStats (n : Z)
| InvalidServerStats (n : Z).

Section Regexp.

(** [regexp.MustCompile(pattern).FindAllStringSubmatch(out, -1)]. *)
Variable FindAllStringSubmatch : string -> string -> list (list string).

(** [strconv.ParseUint(s, 10, 64)]: a number below 2^64 or an error. *)
Variable ParseUint : string -> NumError + Z.

(** The loop of [readOneStats] over the matches. *)
Fixpoint statsLoop (matches : list (list string)) (stats : stressStats)
  : StatsError + stressStats :=
  match matches with
  | [] => inr stats
  | match_ :: rest =>
      if negb (length match_ =? 3)%nat then inl (InvalidStats match_)
      else
        match ParseUint (nth 1 match_ "") with
        | inl err => inl (BadNumber err match_)
        | inr count =>
            match ParseUint (nth 2 match_ "") with
            | inl err => inl (BadNumber err match_)
            | inr streamCount =>
                if (count =? 0) || (streamCount =? 0)
                then inl (ZeroCount match_)
                else statsLoop rest {|
                       sumCount := uint64_add (sumCount stats) count;
                       sumStreamCount :=
                         uint64_add (sumStreamCount stats) streamCount |}
            end
        end
  end.

Definition quote : string := String (ascii_of_nat 34) EmptyString.

Definition clientPattern : string :=
  "client stats: {SumCount:(\d+) SumStreamCount:(\d+)}".

Definition serverPattern : string :=
  "server stats: " +:+ quote +:+ ".+" +:+ quote
  +:+ ":{SumCount:(\d+) SumStreamCount:(\d+)}".

Definition readOneStats (re out : string)
  : Z * option stressStats * option StatsError :=
  let matches := FindAllStringSubmatch re out in
  match statsLoop matches {| sumCount := 0; sumStreamCount := 0 |} with
  | inl err => (0, None, Some err)
  | inr stats => (Z.of_nat (length matches), Some stats, None)
  end.

Definition readStats (out : string)
  : option stressStats * option stressStats * option StatsError :=
  match readOneStats clientPattern out with
  | (_, _, Some err) => (None, None, Some err)
  | (n, cStats, None) =>
      if negb (n =? testNumClientNodes) then
        (None, None, Some (InvalidClientStats n))
      else
        match readOneStats serverPattern out with
        | (_, _, Some err) => (None, None, Some err)
        | (n, sStats, None) =>
            if negb (n =? testNumServerNodes) then
              (None, None, Some (InvalidServerStats n))
            else (cStats, sStats, None)
        end
  end.

(** The two counts of a match, when it has three elements of which the
    second and the third are decimal numbers between 1 and 2^64 - 1. *)
Definition counts (match_ : list string) : option (Z * Z) :=
  match match_ with
  | [_; a; b] =>
      match ParseUint a, ParseUint b with
      | inr x, inr y => if (x =? 0) || (y =? 0) then None else Some (x, y)
      | _, _ => None
      end
  | _ => None
  end.

(** The match that an error of [readOneStats] prints. *)
Definition errorMatch (err : StatsError) : option (list string) :=
  match err with
  | InvalidStats m | BadNumber _ m | ZeroCount m => Some m
  | InvalidClientStats _ | InvalidServerStats _ => None
  end.

End Regexp.

Definition sumZ (l : list Z) : Z := fold_right Z.add 0 l.

(** A reader of decimal numbers for the examples: a byte that is not a digit
    is a syntax error, a value of 2^64 or more a range error. *)
Fixpoint parseDigits (s : string) (n : Z) : NumError + Z :=
  match s with
  | EmptyString => inr n
  | String c s' =>
      let b := Z.of_nat (nat_of_ascii c) in
      if (48 <=? b) && (b <=? 57) then
        let d := b - 48 in
        if n >=? (2 ^ 64 - 1) / 10 + 1 then inl ErrRange
        else
          let n1 := n * 10 + d in
          if n1 >? 2 ^ 64 - 1 then inl ErrRange
          else parseDigits s' n1
      else inl ErrSyntax
  end.

Definition parseDecimal (s : string) : NumError + Z :=
  match s with
  | EmptyString => inl ErrSyntax
  | _ => parseDigits s 0
  end.


(** Sample output of the stress test: [c] client lines and [s] server
    lines, every line with the counts 3 and 4. *)
Definition sampleMatches (c s : nat) (re out : string) : list (list string) :=
  if String.eqb re clientPattern then repeat ["client"; "3"; "4"] c
  else repeat ["server"; "3"; "4"] s.

End Stress.

(** * Properties *)

(** ** The outdated-build detector *)

Section OutdatedBuildFacts.

Variable ParseRefString : string -> Err + Z * Z.

Lemma elem_of_sortedKeys (cls : clNumberToPatchsetMap) (k : Z) :
  k ∈ sortedKeys cls <-> is_Some (cls !! k).
Proof.
  unfold sortedKeys. rewrite merge_sort_Permutation.
  rewrite <- elem_of_dom, dom_alt, elem_of_list_to_set. reflexivity.
Qed.

Lemma sortedKeys_eq_dom (cls1 cls2 : clNumberToPatchsetMap) :
  sortedKeys cls1 = sortedKeys cls2 <-> dom cls1 = dom cls2.
Proof.
  split; intros Heq.
  - apply set_eq. intros k.
    rewrite !elem_of_dom, <- !elem_of_sortedKeys, Heq. reflexivity.
  - unfold sortedKeys.
    apply (Sorted_unique Z.le); try apply Sorted_merge_sort; try apply _.
    rewrite !merge_sort_Permutation.
    apply NoDup_Permutation; try apply NoDup_fst_map_to_list.
    intros k.
    pose proof (elem_of_sortedKeys cls1 k) as H1.
    pose proof (elem_of_sortedKeys cls2 k) as H2.
    unfold sortedKeys in H1, H2. rewrite merge_sort_Permutation in H1, H2.
    rewrite H1, H2, <- !elem_of_dom, Heq. reflexivity.
Qed.

Lemma patchsetLoop_true (nums : list Z) (curCLs newCLs : clNumberToPatchsetMap) :
  patchsetLoop nums curCLs newCLs = true <->
  forall k, k ∈ nums -> default 0 (curCLs !! k) <= default 0 (newCLs !! k).
Proof.
  induction nums as [|n nums IH]; simpl.
  - split; [intros _ k Hk; inversion Hk | reflexivity].
  - destruct (Z.ltb_spec (default 0 (newCLs !! n)) (default 0 (curCLs !! n)))
      as [Hlt|Hge].
    + split; [discriminate|]. intros H.
      specialize (H n (list_elem_of_here _ _)). lia.
    + rewrite IH. split.
      * intros H k Hk. apply elem_of_cons in Hk as [->|Hk]; auto.
      * intros H k Hk. apply H. now apply list_elem_of_further.
Qed.

Lemma patchsetLoop_false (nums : list Z) (curCLs newCLs : clNumberToPatchsetMap) :
  patchsetLoop nums curCLs newCLs = false <->
  exists k, k ∈ nums /\ default 0 (newCLs !! k) < default 0 (curCLs !! k).
Proof.
  induction nums as [|n nums IH]; simpl.
  - split; [discriminate|]. intros (k & Hk & _). inversion Hk.
  - destruct (Z.ltb_spec (default 0 (newCLs !! n)) (default 0 (curCLs !! n)))
      as [Hlt|Hge].
    + split; [intros _|reflexivity]. exists n. split; [apply list_elem_of_here|done].
    + rewrite IH. split.
      * intros (k & Hk & H). exists k. split; [now apply list_elem_of_further|done].
      * intros (k & Hk & H). apply elem_of_cons in Hk as [->|Hk]; [lia|eauto].
Qed.

Lemma overlapLoop_true (entries : list (Z * Z)) (newCLs : clNumberToPatchsetMap) :
  overlapLoop entries newCLs = true <->
  exists k cur new,
    (k, cur) ∈ entries /\ newCLs !! k = Some new /\ new >= cur.
Proof.
  induction entries as [|[k cur] entries IH]; simpl.
  - split; [discriminate|]. intros (k & cur & new & Hin & _). inversion Hin.
  - destruct (newCLs !! k) as [new|] eqn:Hnew.
    + destruct (Z.geb_spec new cur) as [Hge|Hlt].
      * split; [intros _|reflexivity].
        exists k, cur, new. split; [apply list_elem_of_here|]. split; [done|lia].
      * rewrite IH. split.
        -- intros (k' & cur' & new' & Hin & H1 & H2).
           exists k', cur', new'. split; [now apply list_elem_of_further|done].
        -- intros (k' & cur' & new' & Hin & H1 & H2).
           apply elem_of_cons in Hin as [Heq|Hin].
           ++ injection Heq as -> ->. rewrite Hnew in H1.
              injection H1 as ->. lia.
           ++ exists k', cur', new'. done.
    + rewrite IH. split.
      * intros (k' & cur' & new' & Hin & H1 & H2).
        exists k', cur', new'. split; [now apply list_elem_of_further|done].
      * intros (k' & cur' & new' & Hin & H1 & H2).
        apply elem_of_cons in Hin as [Heq|Hin].
        -- injection Heq as -> ->. congruence.
        -- exists k', cur', new'. done.
Qed.

(** When the refs parse, [isBuildOutdated] returns a nil error. *)
Lemma isBuildOutdated_parsed (curRefs : string)
    (curCLs newCLs : clNumberToPatchsetMap) :
  parseRefs ParseRefString (Split curRefs ":"%char) ∅ = inr curCLs ->
  isBuildOutdated ParseRefString curRefs newCLs =
    (if bool_decide (dom curCLs = dom newCLs)
     then patchsetLoop (sortedKeys newCLs) curCLs newCLs
     else overlapLoop (map_to_list curCLs) newCLs, None).
Proof.
  intros Hparse. unfold isBuildOutdated. rewrite Hparse. cbv zeta.
  destruct (decide (dom curCLs = dom newCLs)) as [Hdom|Hdom].
  - rewrite (bool_decide_eq_true_2 (dom curCLs = dom newCLs)) by done.
    rewrite bool_decide_eq_true_2; [done|]. now apply sortedKeys_eq_dom.
  - rewrite (bool_decide_eq_false_2 (dom curCLs = dom newCLs)) by done.
    rewrite bool_decide_eq_false_2; [done|].
    intros H. now apply sortedKeys_eq_dom in H.
Qed.

(** C1.  When the build's refs parse to a map with the same change numbers
    as the registry, [isBuildOutdated] returns true exactly when every change
    has a registry patchset greater than or equal to the build's, and false
    exactly when some change has a registry patchset strictly less than the
    build's; the error is nil in both cases. *)
Theorem isBuildOutdated_same_change_set (curRefs : string)
    (curCLs newCLs : clNumberToPatchsetMap) :
  parseRefs ParseRefString (Split curRefs ":"%char) ∅ = inr curCLs ->
  dom curCLs = dom newCLs ->
  (isBuildOutdated ParseRefString curRefs newCLs = (true, None) <->
   forall k cur new,
     curCLs !! k = Some cur -> newCLs !! k = Some new -> new >= cur)
  /\ (isBuildOutdated ParseRefString curRefs newCLs = (false, None) <->
      exists k cur new,
        curCLs !! k = Some cur /\ newCLs !! k = Some new /\ new < cur).
Proof.
  intros Hparse Hdom.
  rewrite (isBuildOutdated_parsed _ _ _ Hparse).
  rewrite bool_decide_eq_true_2 by done.
  assert (Hall : patchsetLoop (sortedKeys newCLs) curCLs newCLs = true <->
                 forall k cur new,
                   curCLs !! k = Some cur -> newCLs !! k = Some new -> new >= cur).
  { rewrite patchsetLoop_true. split.
    - intros H k cur new Hcur Hnew.
      specialize (H k). rewrite Hcur, Hnew in H. simpl in H.
      cut (cur <= new); [lia|]. apply H.
      apply elem_of_sortedKeys. eauto.
    - intros H k Hk. apply elem_of_sortedKeys in Hk as [new Hnew].
      assert (is_Some (curCLs !! k)) as [cur Hcur].
      { apply elem_of_dom. rewrite Hdom. apply elem_of_dom. eauto. }
      rewrite Hcur, Hnew. simpl. specialize (H k cur new Hcur Hnew). lia. }
  split.
  - rewrite <- Hall. split; [intros [= ->]; done | intros ->; done].
  - split.
    + intros [= Hfalse].
      apply patchsetLoop_false in Hfalse as (k & Hk & Hlt).
      apply elem_of_sortedKeys in Hk as [new Hnew].
      assert (is_Some (curCLs !! k)) as [cur Hcur].
      { apply elem_of_dom. rewrite Hdom. apply elem_of_dom. eauto. }
      rewrite Hcur, Hnew in Hlt. simpl in Hlt. eauto 6.
    + intros (k & cur & new & Hcur & Hnew & Hlt).
      f_equal. apply not_true_is_false. intros Hloop.
      pose proof (proj1 Hall Hloop k cur new Hcur Hnew). lia.
Qed.

(** C2.  When the build's refs parse to a map whose change numbers differ
    from the registry's, [isBuildOutdated] returns true exactly when some
    change in both maps has a registry patchset greater than or equal to the
    build's, and false otherwise; for the registry {1000: 2, 2000: 1} and
    refs that parse to {1000: 1} it returns true. *)
Theorem isBuildOutdated_other_change_set (curRefs : string)
    (curCLs newCLs : clNumberToPatchsetMap) :
  parseRefs ParseRefString (Split curRefs ":"%char) ∅ = inr curCLs ->
  (dom curCLs <> dom newCLs ->
   (isBuildOutdated ParseRefString curRefs newCLs = (true, None) <->
    exists k cur new,
      curCLs !! k = Some cur /\ newCLs !! k = Some new /\ new >= cur)
   /\ (isBuildOutdated ParseRefString curRefs newCLs = (false, None) <->
       ~ exists k cur new,
           curCLs !! k = Some cur /\ newCLs !! k = Some new /\ new >= cur))
  /\ (curCLs = {[ 1000 := 1 ]} ->
      isBuildOutdated ParseRefString curRefs {[ 1000 := 2; 2000 := 1 ]}
      = (true, None)).
Proof.
  intros Hparse.
  assert (Hany : forall new' : clNumberToPatchsetMap,
    overlapLoop (map_to_list curCLs) new' = true <->
    exists k cur new,
      curCLs !! k = Some cur /\ new' !! k = Some new /\ new >= cur).
  { intros new'. rewrite overlapLoop_true. split.
    - intros (k & cur & new & Hin & H). exists k, cur, new.
      now rewrite <- elem_of_map_to_list.
    - intros (k & cur & new & Hin & H). exists k, cur, new.
      now rewrite elem_of_map_to_list. }
  split.
  - intros Hdom.
    rewrite (isBuildOutdated_parsed _ _ _ Hparse).
    rewrite bool_decide_eq_false_2 by done.
    rewrite <- Hany. split.
    + split; [intros [= ->]; done | intros ->; done].
    + split; [intros [= ->]; done|].
      intros H. destruct (overlapLoop (map_to_list curCLs) newCLs); done.
  - intros ->.
    rewrite (isBuildOutdated_parsed _ _ _ Hparse).
    rewrite bool_decide_eq_false_2.
    + reflexivity.
    + intros Hdom. assert (H : 2000 ∈ dom ({[ 1000 := 1 ]} : gmap Z Z)).
      { rewrite Hdom. apply elem_of_dom. eexists.
        rewrite lookup_insert_ne by done. apply lookup_insert_eq. }
      apply elem_of_dom in H as [x H].
      rewrite lookup_singleton_ne in H by done. discriminate.
Qed.

End OutdatedBuildFacts.

(** A build of changes 1000 (patchset 2) and 2000 (patchset 1) against a
    registry with the same two changes. *)
Lemma isBuildOutdated_same_change_set_witness :
  let curRefs := "refs/changes/00/1000/2:refs/changes/00/2000/1" in
  let curCLs : clNumberToPatchsetMap := {[ 1000 := 2; 2000 := 1 ]} in
  let newCLs : clNumberToPatchsetMap := {[ 1000 := 3; 2000 := 1 ]} in
  (isBuildOutdated Sample.parseRef curRefs newCLs = (true, None) <->
   forall k cur new,
     curCLs !! k = Some cur -> newCLs !! k = Some new -> new >= cur)
  /\ (isBuildOutdated Sample.parseRef curRefs newCLs = (false, None) <->
      exists k cur new,
        curCLs !! k = Some cur /\ newCLs !! k = Some new /\ new < cur).
Proof.
  intros curRefs curCLs newCLs.
  apply (isBuildOutdated_same_change_set Sample.parseRef curRefs curCLs newCLs).
  - vm_compute. reflexivity.
  - vm_compute. reflexivity.
Defined.

(** A build of change 1000 at patchset 1 against the registry
    {1000: 2, 2000: 1}. *)
Lemma isBuildOutdated_other_change_set_witness :
  let curRefs := "refs/changes/00/1000/1" in
  let curCLs : clNumberToPatchsetMap := {[ 1000 := 1 ]} in
  let newCLs : clNumberToPatchsetMap := {[ 1000 := 2; 2000 := 1 ]} in
  dom curCLs <> dom newCLs
  /\ (isBuildOutdated Sample.parseRef curRefs newCLs = (true, None) <->
      exists k cur new,
        curCLs !! k = Some cur /\ newCLs !! k = Some new /\ new >= cur)
  /\ isBuildOutdated Sample.parseRef curRefs newCLs = (true, None).
Proof.
  intros curRefs curCLs newCLs.
  assert (Hdom : dom curCLs <> dom newCLs) by (vm_compute; discriminate).
  destruct (isBuildOutdated_other_change_set Sample.parseRef curRefs curCLs newCLs)
    as [Hgen Hinst]; [vm_compute; reflexivity|].
  split; [exact Hdom|].
  split; [exact (proj1 (Hgen Hdom)) | exact (Hinst eq_refl)].
Defined.

(** ** Kinds of events of the parts of the run *)

Section EmitsMonad.

Context {World : Type}.

Lemma emits_ret {A} K (a : A) : emits K (ret (World := World) a).
Proof. intros w. constructor. Qed.

Lemma emits_panic {A} K : emits K (panic (World := World) (A := A)).
Proof. intros w. constructor. Qed.

Lemma emits_printf K out format args :
  K (EvPrint out format args) = true ->
  emits K (printf (World := World) out format args).
Proof. intros HK w. repeat constructor. exact HK. Qed.

Lemma emits_call {A} K (f : World -> A * World) (ev : A -> Event) :
  (forall a, K (ev a) = true) -> emits K (call f ev).
Proof.
  intros HK w. unfold call. destruct (f w) as [a w']. repeat constructor. apply HK.
Qed.

Lemma emits_bind {A B} K (m : M World A) (k : A -> M World B) :
  emits K m -> (forall a, emits K (k a)) -> emits K (bind m k).
Proof.
  intros Hm Hk w. unfold bind. specialize (Hm w).
  destruct (outcome (m w)); simpl; [|exact Hm].
  apply Forall_app. split; [exact Hm | apply Hk].
Qed.

Lemma emits_weaken {A} K K' (m : M World A) :
  (forall e, K e = true -> K' e = true) -> emits K m -> emits K' m.
Proof. intros Hsub Hm w. eapply Forall_impl; [apply Hm | exact Hsub]. Qed.

End EmitsMonad.

(** One step of a proof of [emits]: the monad operations, and a case split
    on the scrutinee of a [match]. *)
Ltac emits_step :=
  lazymatch goal with
  | |- emits _ (ret _) => apply emits_ret
  | |- emits _ panic => apply emits_panic
  | |- emits _ (printf _ _ _) =>
      apply emits_printf; first [reflexivity | auto]
  | |- emits _ (call _ _) =>
      apply emits_call; intros; first [reflexivity | auto]
  | |- emits _ (bind _ _) => apply emits_bind; [|intros ?]
  | |- emits _ (match ?x with _ => _ end) => destruct x; cbv beta iota
  end.

(** A kind is included in another. *)
Ltac kind_incl :=
  let e := fresh "e" in
  let He := fresh "He" in
  intros e He;
  first [ destruct e; first [discriminate He | reflexivity]
        | match goal with
          | H : forall e, _ = true -> _ = true |- _ =>
              apply H; destruct e; first [discriminate He | reflexivity]
          end ].

Section Emits.

Context {World : Type} `{!Library} `{!Flags} `{!Collaborators World}.

Lemma emits_isKnownProject K cl ps :
  (forall e, printsOnly e = true -> K e = true) ->
  emits K (isKnownProject (World := World) cl ps).
Proof. intros HK. unfold isKnownProject. repeat emits_step. Qed.

Lemma emits_processCLList_loop K (s : @clsSender World) g v :
  (forall e, printsOnly e = true -> K e = true) ->
  emits K (processCLList_loop s g v).
Proof.
  intros HK. revert v. induction g as [|curCL rest IH]; intros v; simpl.
  - emits_step.
  - repeat first [apply IH | apply emits_isKnownProject; assumption | emits_step].
Qed.

Lemma emits_processCLList K (s : @clsSender World) g :
  (forall e, printsOnly e = true -> K e = true) ->
  emits K (processCLList s g).
Proof. apply emits_processCLList_loop. Qed.

Lemma emits_queuedLoop K builds cls err :
  (forall e, outdatedEvent e = true -> K e = true) ->
  emits K (queuedLoop builds cls err).
Proof.
  intros HK. induction builds as [|build rest IH]; simpl.
  - emits_step.
  - repeat first [apply IH | emits_step].
Qed.

Lemma emits_removeQueuedOutdatedBuilds K cls :
  (forall e, outdatedEvent e = true -> K e = true) ->
  emits K (removeQueuedOutdatedBuilds cls).
Proof.
  intros HK. unfold removeQueuedOutdatedBuilds.
  repeat first [apply emits_queuedLoop; assumption | emits_step].
Qed.

Lemma emits_ongoingLoop K builds cls :
  (forall e, outdatedEvent e = true -> K e = true) ->
  emits K (ongoingLoop builds cls).
Proof.
  intros HK. induction builds as [|build rest IH]; simpl.
  - emits_step.
  - repeat first [apply IH | emits_step].
Qed.

Lemma emits_removeOngoingOutdatedBuilds K cls :
  (forall e, outdatedEvent e = true -> K e = true) ->
  emits K (removeOngoingOutdatedBuilds cls).
Proof.
  intros HK. unfold removeOngoingOutdatedBuilds.
  repeat first [apply emits_ongoingLoop; assumption | emits_step].
Qed.

Lemma emits_removeOutdatedBuilds K cls :
  (forall e, outdatedEvent e = true -> K e = true) ->
  emits K (removeOutdatedBuilds cls).
Proof.
  intros HK. unfold removeOutdatedBuilds, collectErrors.
  repeat first [ apply emits_removeQueuedOutdatedBuilds; assumption
               | apply emits_removeOngoingOutdatedBuilds; assumption
               | emits_step ].
Qed.

Lemma emits_addPresubmitTestBuild K cls tests :
  (forall e, addEvent e = true -> K e = true) ->
  emits K (addPresubmitTestBuild cls tests).
Proof. intros HK. unfold addPresubmitTestBuild. repeat emits_step. Qed.

Lemma emits_getTestsToRun K projects :
  (forall e, configEvent e = true -> K e = true) ->
  emits K (getTestsToRun projects).
Proof. intros HK. unfold getTestsToRun. repeat emits_step. Qed.

Lemma emits_postMessageCall K message refs success :
  (forall e, postEvent e = true -> K e = true) ->
  emits K (postMessageCall message refs success).
Proof. intros HK. unfold postMessageCall. repeat emits_step. Qed.

Lemma emits_printErrors K errs :
  (forall e, printsOnly e = true -> K e = true) ->
  emits K (printErrors (World := World) errs).
Proof.
  intros HK. induction errs as [|[err|] rest IH]; simpl;
    repeat first [apply IH | emits_step].
Qed.

Lemma emits_handleNonGoogleOwner K (s : @clsSender World) refs projects tests :
  (forall m r b, emits K (postMessageFn s m r b)) ->
  emits K (handleNonGoogleOwner s refs projects tests).
Proof. intros Hpost. unfold handleNonGoogleOwner. repeat first [apply Hpost | emits_step]. Qed.

(** The events of the loop of the sender are prints, the load of the
    configuration, and the events of its three functions. *)
Lemma emits_sendLoop K (s : @clsSender World) lists sent :
  (forall e, printsOnly e = true -> K e = true) ->
  (forall e, configEvent e = true -> K e = true) ->
  (forall cls, emits K (removeOutdatedFn s cls)) ->
  (forall cls tests, emits K (addPresubmitFn s cls tests)) ->
  (forall m r b, emits K (postMessageFn s m r b)) ->
  emits K (sendLoop s lists sent).
Proof.
  intros Hprint Hconfig Hremove Hadd Hpost. revert sent.
  induction lists as [|curCLList rest IH]; intros sent; simpl.
  - emits_step.
  - repeat first
      [ apply IH | apply Hremove | apply Hadd | apply Hpost
      | apply emits_processCLList; assumption
      | apply emits_getTestsToRun; assumption
      | apply emits_handleNonGoogleOwner; assumption
      | apply emits_printErrors; assumption
      | emits_step ].
Qed.

Lemma emits_querySender K lists projects :
  (forall e, sendEvent e = true -> K e = true) ->
  emits K (sendCLListsToPresubmitTest (querySender lists projects)).
Proof.
  intros HK. unfold sendCLListsToPresubmitTest. apply emits_sendLoop; simpl.
  - kind_incl.
  - kind_incl.
  - intros cls. apply emits_removeOutdatedBuilds. kind_incl.
  - intros cls tests. apply emits_addPresubmitTestBuild. kind_incl.
  - intros m r b. apply emits_postMessageCall. kind_incl.
Qed.

Lemma emits_multiPartLoop K errs :
  (forall e, printsOnly e = true -> K e = true) ->
  (forall e, postEvent e = true -> K e = true) ->
  emits K (multiPartLoop errs).
Proof.
  intros Hprint Hpost. induction errs as [|e rest IH]; simpl.
  - emits_step.
  - repeat first [apply IH | apply emits_postMessageCall; assumption | emits_step].
Qed.

Lemma emits_submitLoop K lists :
  (forall cls r, K (EvSubmitCLs cls r) = true) ->
  emits K (submitLoop lists).
Proof.
  intros HK. induction lists as [|cls rest IH]; simpl;
    repeat first [apply IH | emits_step].
Qed.

Lemma emits_runQuery_send prevCLsMap curCLs :
  emits dispatchEvent (runQuery_send prevCLsMap curCLs).
Proof.
  unfold runQuery_send.
  repeat first
    [ apply emits_multiPartLoop; kind_incl
    | apply emits_querySender; kind_incl
    | apply emits_submitLoop; reflexivity
    | emits_step ].
Qed.

Lemma emits_runQuery_fromLog : emits fromLogEvent runQuery_fromLog.
Proof.
  unfold runQuery_fromLog.
  repeat first
    [ apply (emits_weaken dispatchEvent); [kind_incl | apply emits_runQuery_send]
    | emits_step ].
Qed.

End Emits.

(** ** The run of the query command *)

Section RunEquations.

Context {World : Type}.

Lemma bind_call {A B} (f : World -> A * World) (ev : A -> Event)
    (k : A -> M World B) (w : World) :
  bind (call f ev) k w = prefix [ev (f w).1] (k (f w).1 (f w).2).
Proof. unfold bind, call, prefix. destruct (f w) as [a w']. reflexivity. Qed.

Lemma bind_printf {B} out format args (k : unit -> M World B) (w : World) :
  bind (printf out format args) k w = prefix [EvPrint out format args] (k tt w).
Proof. reflexivity. Qed.


Lemma prefix_nil {A} (r : Ran World A) : prefix [] r = r.
Proof. destruct r. reflexivity. Qed.

Lemma prefix_prefix {A} evs1 evs2 (r : Ran World A) :
  prefix evs1 (prefix evs2 r) = prefix (evs1 ++ evs2) r.
Proof. unfold prefix. simpl. now rewrite app_assoc. Qed.

Lemma deferredPrint_prefix evs (r : Ran World (Z * option Err)) :
  deferredPrint (prefix evs r) = prefix evs (deferredPrint r).
Proof.
  unfold deferredPrint, prefix. simpl.
  destruct (outcome r) as [[n err]|]; simpl; now rewrite app_assoc.
Qed.

End RunEquations.

(** One collaborator call of a run: the call is split from what follows
    and its result is examined. *)
Ltac run_step :=
  rewrite ?bind_printf, ?bind_call;
  match goal with
  | |- context [fst (?f ?w)] => destruct (f w) as [[] ?]; cbn [fst snd]
  end.

Section QueryFacts.

Context {World : Type} `{!Library} `{!Flags} `{!Collaborators World}.

Lemma not_emitted {A} K (m : M World A) (e : Event) (w : World) :
  emits K m -> K e = false -> ~ In e (events (m w)).
Proof.
  intros Hm HK Hin. specialize (Hm w). rewrite Forall_forall in Hm.
  apply list_elem_of_In in Hin. apply Hm in Hin. congruence.
Qed.

Lemma In_deferredPrint (r : Ran World (Z * option Err)) (e : Event) :
  In e (events (deferredPrint r)) ->
  In e (events r) \/ exists n, e = EvPrint Stdout "%d sent.\n" [ArgInt n].
Proof.
  unfold deferredPrint. destruct (outcome r) as [[n err]|]; simpl;
    intros Hin; apply in_app_or in Hin as [Hin|[<-|[]]]; eauto.
Qed.

(** The start of [runQuery], up to the read of the log. *)
Lemma runQuery_cases (w : World) :
  let j := Jenkins jenkinsHostFlag w in
  let st := LastCompletedBuildStatus presubmitTestJobFlag j.2 in
  match j.1 with
  | Some err =>
      runQuery w =
      MkRan [EvJenkins jenkinsHostFlag (Some err);
             EvPrint Stdout "%d sent.\n" [ArgInt 0]] j.2 (Returned (Some err))
  | None =>
      match st.1 with
      | inl err =>
          runQuery w =
          prefix [EvJenkins jenkinsHostFlag None;
                  EvLastCompletedBuildStatus presubmitTestJobFlag (inl err);
                  EvPrint Stderr "%v\n" [ArgErr err]]
            (deferredPrint (runQuery_fromLog st.2))
      | inr info =>
          if String.eqb (Result info) "FAILURE" then
            runQuery w =
            MkRan [EvJenkins jenkinsHostFlag None;
                   EvLastCompletedBuildStatus presubmitTestJobFlag (inr info);
                   EvPrint Stdout "%s is failing. Skipping this round.\n"
                     [ArgStr presubmitTestJobFlag];
                   EvPrint Stdout "%d sent.\n" [ArgInt 0]] st.2 (Returned None)
          else
            runQuery w =
            prefix [EvJenkins jenkinsHostFlag None;
                    EvLastCompletedBuildStatus presubmitTestJobFlag (inr info)]
              (deferredPrint (runQuery_fromLog st.2))
      end
  end.
Proof.
  cbv zeta. unfold runQuery, runQuery_body. cbv zeta.
  rewrite bind_call.
  destruct (Jenkins jenkinsHostFlag w) as [[err|] w1]; cbn [fst snd].
  - reflexivity.
  - rewrite bind_call.
    destruct (LastCompletedBuildStatus presubmitTestJobFlag w1) as [[err|info] w2];
      cbn [fst snd].
    + rewrite bind_printf, !prefix_prefix, !deferredPrint_prefix. reflexivity.
    + destruct (String.eqb (Result info) "FAILURE").
      * reflexivity.
      * rewrite !deferredPrint_prefix, prefix_prefix. reflexivity.
Qed.

Lemma status_not_fromLog job r (w : World) :
  ~ In (EvLastCompletedBuildStatus job r)
      (events (deferredPrint (runQuery_fromLog w))).
Proof.
  intros Hin. apply In_deferredPrint in Hin as [Hin|[n Hn]]; [|discriminate].
  eapply not_emitted in Hin; [done | apply emits_runQuery_fromLog | reflexivity].
Qed.

(** C10.  When Jenkins reports the result of the last completed
    presubmit-test build as FAILURE, the run prints that the job is failing
    and returns nil: its only events are the connection to Jenkins, the
    status call and the two prints, so the log is neither read nor written,
    Gerrit is not queried and nothing is sent.  When the status call fails,
    the error is printed and the run goes on from the read of the log,
    exactly as it does after a status other than FAILURE. *)
Theorem runQuery_last_build_status (w : World) :
  let evs := events (runQuery w) in
  let w' := (LastCompletedBuildStatus presubmitTestJobFlag
               (Jenkins jenkinsHostFlag w).2).2 in
  (forall info,
     In (EvLastCompletedBuildStatus presubmitTestJobFlag (inr info)) evs ->
     Result info = "FAILURE" ->
     runQuery w =
     MkRan [EvJenkins jenkinsHostFlag None;
            EvLastCompletedBuildStatus presubmitTestJobFlag (inr info);
            EvPrint Stdout "%s is failing. Skipping this round.\n"
              [ArgStr presubmitTestJobFlag];
            EvPrint Stdout "%d sent.\n" [ArgInt 0]] w' (Returned None))
  /\ (forall err,
        In (EvLastCompletedBuildStatus presubmitTestJobFlag (inl err)) evs ->
        runQuery w =
        prefix [EvJenkins jenkinsHostFlag None;
                EvLastCompletedBuildStatus presubmitTestJobFlag (inl err);
                EvPrint Stderr "%v\n" [ArgErr err]]
          (deferredPrint (runQuery_fromLog w')))
  /\ (forall info,
        In (EvLastCompletedBuildStatus presubmitTestJobFlag (inr info)) evs ->
        Result info <> "FAILURE" ->
        runQuery w =
        prefix [EvJenkins jenkinsHostFlag None;
                EvLastCompletedBuildStatus presubmitTestJobFlag (inr info)]
          (deferredPrint (runQuery_fromLog w'))).
Proof.
  cbv zeta. pose proof (runQuery_cases w) as Hrun. cbv zeta in Hrun.
  destruct (Jenkins jenkinsHostFlag w) as [[err|] w1]; cbn [fst snd] in *.
  { rewrite Hrun. simpl. repeat split; intros; intuition discriminate. }
  destruct (LastCompletedBuildStatus presubmitTestJobFlag w1) as [[err|info] w2];
    cbn [fst snd] in *.
  - rewrite Hrun. repeat split.
    + intros info Hin _. simpl in Hin.
      destruct Hin as [?|[?|[?|Hin]]]; try discriminate.
      now apply status_not_fromLog in Hin.
    + intros err' Hin. simpl in Hin.
      destruct Hin as [?|[Heq|[?|Hin]]]; try discriminate.
      * now injection Heq as ->.
      * now apply status_not_fromLog in Hin.
    + intros info Hin _. simpl in Hin.
      destruct Hin as [?|[?|[?|Hin]]]; try discriminate.
      now apply status_not_fromLog in Hin.
  - destruct (String.eqb_spec (Result info) "FAILURE") as [Hfail|Hok];
      rewrite Hrun; repeat split.
    + intros info' Hin _. simpl in Hin.
      destruct Hin as [?|[Heq|[?|[?|[]]]]]; try discriminate.
      now injection Heq as ->.
    + intros err Hin. simpl in Hin.
      destruct Hin as [?|[?|[?|[?|[]]]]]; discriminate.
    + intros info' Hin Hne. simpl in Hin.
      destruct Hin as [?|[Heq|[?|[?|[]]]]]; try discriminate.
      injection Heq as ->. done.
    + intros info' Hin Hfail. simpl in Hin.
      destruct Hin as [?|[Heq|Hin]]; try discriminate.
      * injection Heq as ->. done.
      * now apply status_not_fromLog in Hin.
    + intros err Hin. simpl in Hin.
      destruct Hin as [?|[?|Hin]]; try discriminate.
      now apply status_not_fromLog in Hin.
    + intros info' Hin _. simpl in Hin.
      destruct Hin as [?|[Heq|Hin]]; try discriminate.
      * now injection Heq as ->.
      * now apply status_not_fromLog in Hin.
Qed.

Lemma fromLog_empty_log (w : World) :
  In (EvReadLog logFilePathFlag (inr ∅)) (events (runQuery_fromLog w)) ->
  Forall (fun e => triggersBuild e = false /\ cancelsBuild e = false)
    (events (runQuery_fromLog w))
  /\ exists err, outcome (runQuery_fromLog w) = Returned (0, err).
Proof.
  unfold runQuery_fromLog. cbv zeta.
  run_step; [intros _; split; [repeat constructor | eauto] |].
  run_step; [intros _; split; [repeat constructor | eauto] |].
  run_step; [intros _; split; [repeat constructor | eauto] |].
  run_step; [intros _; split; [repeat constructor | eauto] |].
  destruct (String.eqb jenkinsHostFlag "");
    [intros _; split; [repeat constructor | eauto] |].
  match goal with |- context [Nat.eqb (size ?m) 0] =>
    destruct (Nat.eqb_spec (size m) 0) as [Hsize|Hsize] end;
    [intros _; split; [repeat constructor | eauto] |].
  intros Hin. exfalso. simpl in Hin.
  destruct Hin as [Heq|[?|[?|[?|Hin]]]]; try discriminate.
  - injection Heq as ->. now rewrite map_size_empty in Hsize.
  - eapply not_emitted in Hin; [done | apply emits_runQuery_send | reflexivity].
Qed.

Lemma deferredPrint_returned (r : Ran World (Z * option Err)) n err :
  outcome r = Returned (n, err) ->
  deferredPrint r =
  MkRan (events r ++ [EvPrint Stdout "%d sent.\n" [ArgInt n]]) (after r)
    (Returned err).
Proof. intros Hr. unfold deferredPrint. now rewrite Hr. Qed.

(** C3.  In a run whose read of the log file gives the empty map, no event
    triggers a build and no event cancels one, the run returns, and its
    last event is the print of "0 sent". *)
Theorem runQuery_empty_log (w : World) :
  In (EvReadLog logFilePathFlag (inr ∅)) (events (runQuery w)) ->
  Forall (fun e => triggersBuild e = false /\ cancelsBuild e = false)
    (events (runQuery w))
  /\ last (events (runQuery w)) = Some (EvPrint Stdout "%d sent.\n" [ArgInt 0])
  /\ exists err, outcome (runQuery w) = Returned err.
Proof.
  pose proof (runQuery_cases w) as Hrun. cbv zeta in Hrun.
  destruct (Jenkins jenkinsHostFlag w) as [[err|] w1]; cbn [fst snd] in *.
  { rewrite Hrun. simpl. intros [?|[?|[]]]; discriminate. }
  match goal with |- ?G => assert (Hlog : forall pre w2,
    Forall (fun e => triggersBuild e = false /\ cancelsBuild e = false) pre ->
    (forall r, ~ In (EvReadLog logFilePathFlag r) pre) ->
    runQuery w = prefix pre (deferredPrint (runQuery_fromLog w2)) -> G) end.
  { intros pre w2 Hpre Hnot -> Hin. simpl in Hin.
    apply in_app_or in Hin as [Hin|Hin]; [now apply Hnot in Hin|].
    apply In_deferredPrint in Hin as [Hin|[n Hn]]; [|discriminate].
    apply fromLog_empty_log in Hin as [Hquiet [err Hout]].
    rewrite (deferredPrint_returned _ _ _ Hout). simpl.
    split; [|split].
    - apply Forall_app. split; [done|]. apply Forall_app. split; [done|].
      repeat constructor.
    - now rewrite app_assoc, last_snoc.
    - eauto. }
  destruct (LastCompletedBuildStatus presubmitTestJobFlag w1) as [[err|info] w2];
    cbn [fst snd] in *.
  - eapply Hlog; [|  |exact Hrun].
    + repeat constructor.
    + intros r [?|[?|[?|[]]]]; discriminate.
  - destruct (String.eqb (Result info) "FAILURE").
    + rewrite Hrun. simpl. intros [?|[?|[?|[?|[]]]]]; discriminate.
    + eapply Hlog; [|  |exact Hrun].
      * repeat constructor.
      * intros r [?|[?|[]]]; discriminate.
Qed.

Lemma fromLog_log_written (w : World) :
  let r := runQuery_fromLog w in
  ((exists e, In e (events r) /\ writesLog e = true) <->
   (exists url cls, In (EvQuery url queryStringFlag (inr cls)) (events r)))
  /\ (forall err,
        In (EvReadLog logFilePathFlag (inl err)) (events r) ->
        Forall (fun e => writesLog e = false) (events r)
        /\ outcome r = Returned (0, Some err))
  /\ (forall url err,
        In (EvQuery url queryStringFlag (inl err)) (events r) ->
        Forall (fun e => writesLog e = false) (events r)
        /\ outcome r = Returned (0, Some (ErrQueryFailed queryStringFlag err))).
Proof.
  cbv zeta. unfold runQuery_fromLog. cbv zeta.
  run_step.
  { simpl. split; [|split].
    - split; [intros (ev & [<-|[]] & He); discriminate
             | intros (url & cls & [?|[]]); discriminate].
    - intros err [[= ->]|[]]. split; [repeat constructor | reflexivity].
    - intros url err [?|[]]; discriminate. }
  run_step.
  { simpl. split; [|split].
    - split; [intros (ev & [<-|[<-|[]]] & He); discriminate
             | intros (url & cls & [?|[?|[]]]); discriminate].
    - intros err [?|[?|[]]]; discriminate.
    - intros url err [?|[?|[]]]; discriminate. }
  run_step.
  { simpl. split; [|split].
    - split; [intros (ev & [<-|[<-|[<-|[]]]] & He); discriminate
             | intros (url & cls & [?|[?|[?|[]]]]); discriminate].
    - intros err [?|[?|[?|[]]]]; discriminate.
    - intros url err [?|[?|[[= -> ->]|[]]]]; try discriminate.
      split; [repeat constructor | reflexivity]. }
  assert (Hyes : forall (rest : Ran World (Z * option Err)) m url cls res,
    (forall e, In e (events rest) -> dispatchEvent e = true) ->
    let r := prefix [EvReadLog logFilePathFlag (inr m); EvGerritBaseUrl (inr url);
                     EvQuery url queryStringFlag (inr cls);
                     EvWriteLog logFilePathFlag cls res] rest in
    ((exists e, In e (events r) /\ writesLog e = true) <->
     (exists url cls, In (EvQuery url queryStringFlag (inr cls)) (events r)))
    /\ (forall err,
          In (EvReadLog logFilePathFlag (inl err)) (events r) ->
          Forall (fun e => writesLog e = false) (events r)
          /\ outcome r = Returned (0, Some err))
    /\ (forall url err,
          In (EvQuery url queryStringFlag (inl err)) (events r) ->
          Forall (fun e => writesLog e = false) (events r)
          /\ outcome r = Returned (0, Some (ErrQueryFailed queryStringFlag err)))).
  { intros rest m url cls res Hrest. simpl. split; [|split].
    - split; intros _.
      + exists url, cls. auto.
      + exists (EvWriteLog logFilePathFlag cls res). auto 6.
    - intros err [?|[?|[?|[?|Hin]]]]; try discriminate.
      apply Hrest in Hin. discriminate.
    - intros url' err [?|[?|[?|[?|Hin]]]]; try discriminate.
      apply Hrest in Hin. discriminate. }
  rewrite bind_call.
  match goal with |- context [fst (?f ?w)] => destruct (f w) as [res w4] end.
  cbn [fst snd]. rewrite !prefix_prefix. cbn [app].
  apply Hyes. intros e Hin.
  destruct res as [err|].
  { destruct Hin. }
  destruct (String.eqb jenkinsHostFlag "").
  { destruct Hin as [<-|[]]. reflexivity. }
  match goal with H : context [Nat.eqb (size ?m) 0] |- _ =>
    destruct (Nat.eqb (size m) 0) end.
  { destruct Hin as [<-|[]]. reflexivity. }
  match type of Hin with
  | In _ (events (runQuery_send ?m ?cls ?w)) =>
      pose proof (emits_runQuery_send m cls w) as Hsend
  end.
  rewrite Forall_forall in Hsend. apply Hsend. now apply list_elem_of_In.
Qed.

(** C4.  In a run, the log file is written exactly when the Gerrit query
    returned changes.  When the read of the previous log fails, or the query
    fails, the run returns that error (the query error wrapped) and no event
    of the run writes the log. *)
Theorem runQuery_log_written (w : World) :
  let r := runQuery w in
  ((exists e, In e (events r) /\ writesLog e = true) <->
   (exists url cls, In (EvQuery url queryStringFlag (inr cls)) (events r)))
  /\ (forall err,
        In (EvReadLog logFilePathFlag (inl err)) (events r) ->
        Forall (fun e => writesLog e = false) (events r)
        /\ outcome r = Returned (Some err))
  /\ (forall url err,
        In (EvQuery url queryStringFlag (inl err)) (events r) ->
        Forall (fun e => writesLog e = false) (events r)
        /\ outcome r = Returned (Some (ErrQueryFailed queryStringFlag err))).
Proof.
  cbv zeta.
  match goal with |- ?G => assert (Hnone : forall evs w' res,
    Forall (fun e => logOrQuery e = false) evs ->
    runQuery w = MkRan evs w' res -> G) end.
  { intros evs w' res Hevs ->. simpl. rewrite Forall_forall in Hevs.
    split; [|split].
    - split.
      + intros (e & Hin & He). apply list_elem_of_In, Hevs in Hin.
        destruct e; discriminate.
      + intros (url & cls & Hin). apply list_elem_of_In, Hevs in Hin. discriminate.
    - intros err Hin. apply list_elem_of_In, Hevs in Hin. discriminate.
    - intros url err Hin. apply list_elem_of_In, Hevs in Hin. discriminate. }
  match goal with |- ?G => assert (Hlift : forall pre w2,
    Forall (fun e => logOrQuery e = false) pre ->
    runQuery w = prefix pre (deferredPrint (runQuery_fromLog w2)) -> G) end.
  { intros pre w2 Hpre ->.
    destruct (fromLog_log_written w2) as (Hiff & Hread & Hquery).
    cbv zeta in Hiff, Hread, Hquery.
    assert (Hin : forall e, logOrQuery e = true ->
      In e (events (prefix pre (deferredPrint (runQuery_fromLog w2)))) <->
      In e (events (runQuery_fromLog w2))).
    { intros e He. simpl. rewrite in_app_iff. split.
      - intros [Hin|Hin].
        + rewrite Forall_forall in Hpre. apply list_elem_of_In, Hpre in Hin.
          congruence.
        + apply In_deferredPrint in Hin as [Hin|[n ->]]; [done|discriminate].
      - intros Hin. right. unfold deferredPrint.
        destruct (outcome (runQuery_fromLog w2)) as [[n err]|]; simpl;
          apply in_or_app; auto. }
    assert (Hquiet :
      Forall (fun e => writesLog e = false) (events (runQuery_fromLog w2)) ->
      Forall (fun e => writesLog e = false)
        (events (prefix pre (deferredPrint (runQuery_fromLog w2))))).
    { intros Hq. simpl. apply Forall_app. split.
      - eapply Forall_impl; [exact Hpre|]. intros e He. now destruct e.
      - unfold deferredPrint.
        destruct (outcome (runQuery_fromLog w2)) as [[n err]|]; simpl;
          apply Forall_app; split; try done; repeat constructor. }
    split; [|split].
    - split.
      + intros (e & He & Hw). apply Hin in He; [|now destruct e].
        destruct (proj1 Hiff (ex_intro _ e (conj He Hw))) as (url & cls & Hq).
        exists url, cls. now apply Hin.
      + intros (url & cls & Hq). apply Hin in Hq; [|done].
        destruct (proj2 Hiff (ex_intro _ url (ex_intro _ cls Hq))) as (e & He & Hw).
        exists e. split; [|done]. apply Hin; [now destruct e|done].
    - intros err He. apply Hin in He; [|done].
      destruct (Hread err He) as [Hq Hout]. split; [now apply Hquiet|].
      simpl. unfold deferredPrint. now rewrite Hout.
    - intros url err He. apply Hin in He; [|done].
      destruct (Hquery url err He) as [Hq Hout]. split; [now apply Hquiet|].
      simpl. unfold deferredPrint. now rewrite Hout. }
  pose proof (runQuery_cases w) as Hrun. cbv zeta in Hrun.
  destruct (Jenkins jenkinsHostFlag w) as [[err|] w1]; cbn [fst snd] in *.
  { eapply Hnone; [|exact Hrun]. repeat constructor. }
  destruct (LastCompletedBuildStatus presubmitTestJobFlag w1) as [[err|info] w2];
    cbn [fst snd] in *.
  - eapply Hlift; [|exact Hrun]. repeat constructor.
  - destruct (String.eqb (Result info) "FAILURE").
    + eapply Hnone; [|exact Hrun]. repeat constructor.
    + eapply Hlift; [|exact Hrun]. repeat constructor.
Qed.
End QueryFacts.

(** The first run of the tool: an absent log and one open change. *)
Lemma runQuery_empty_log_witness :
  Forall (fun e => triggersBuild e = false /\ cancelsBuild e = false)
    (events (Sample.run Sample.firstRun))
  /\ last (events (Sample.run Sample.firstRun))
     = Some (EvPrint Stdout "%d sent.\n" [ArgInt 0])
  /\ exists err, outcome (Sample.run Sample.firstRun) = Returned err.
Proof.
  apply (@runQuery_empty_log unit Sample.library Sample.flags
           (Sample.scripted Sample.firstRun) tt).
  vm_compute. auto 10.
Defined.

(** A run whose log cannot be read and a run whose query fails. *)
Lemma runQuery_log_written_witness :
  (Forall (fun e => writesLog e = false) (events (Sample.run Sample.logUnreadable))
   /\ outcome (Sample.run Sample.logUnreadable)
      = Returned (Some (ErrExternal "malformed log")))
  /\ (Forall (fun e => writesLog e = false) (events (Sample.run Sample.queryFails))
      /\ outcome (Sample.run Sample.queryFails)
         = Returned (Some (ErrQueryFailed "status:open"
                             (ErrExternal "connection refused")))).
Proof.
  split.
  - apply (proj1 (proj2 (@runQuery_log_written unit Sample.library Sample.flags
                           (Sample.scripted Sample.logUnreadable) tt))).
    vm_compute. auto 10.
  - apply (proj2 (proj2 (@runQuery_log_written unit Sample.library Sample.flags
                           (Sample.scripted Sample.queryFails) tt))
             "https://review").
    vm_compute. auto 10.
Defined.

(** A run after a failed build and a run that cannot fetch the status. *)
Lemma runQuery_last_build_status_witness :
  events (Sample.run Sample.lastBuildFailed) =
    [EvJenkins "http://jenkins" None;
     EvLastCompletedBuildStatus "presubmit-test"
       (inr {| Building := false; Number := 7; Result := "FAILURE";
               BuildInfo_ParseRefs := "refs/changes/00/1000/1" |});
     EvPrint Stdout "%s is failing. Skipping this round.\n"
       [ArgStr "presubmit-test"];
     EvPrint Stdout "%d sent.\n" [ArgInt 0]]
  /\ Sample.run Sample.statusUnavailable =
     prefix [EvJenkins "http://jenkins" None;
             EvLastCompletedBuildStatus "presubmit-test"
               (inl (ErrExternal "no such job"));
             EvPrint Stderr "%v\n" [ArgErr (ErrExternal "no such job")]]
       (deferredPrint
          (@runQuery_fromLog unit Sample.library Sample.flags
             (Sample.scripted Sample.statusUnavailable) tt)).
Proof.
  split.
  - refine (f_equal events
      (proj1 (@runQuery_last_build_status unit Sample.library Sample.flags
                (Sample.scripted Sample.lastBuildFailed) tt) _ _ _)).
    + vm_compute. auto 10.
    + reflexivity.
  - apply (proj1 (proj2 (@runQuery_last_build_status unit Sample.library
                           Sample.flags
                           (Sample.scripted Sample.statusUnavailable) tt))).
    vm_compute. auto 10.
Defined.

(** ** The test list *)

Section TestList.

Context {World : Type} `{!Collaborators World}.

Lemma partsLoop_app test parts tests :
  partsLoop test parts tests
  = tests ++ map (testNameWithPartSuffix test) (seq 0 (S (length parts))).
Proof.
  unfold partsLoop. generalize (seq 0 (S (length parts))) as indices.
  intros indices. revert tests.
  induction indices as [|i indices IH]; intros tests.
  - now rewrite app_nil_r.
  - cbn [foldl map]. rewrite IH, <- app_assoc. reflexivity.
Qed.

Lemma testsLoop_app config tmpTests tests :
  testsLoop config tmpTests tests
  = tests ++ concat (map (expandTest config) tmpTests).
Proof.
  revert tests. induction tmpTests as [|test rest IH]; intros tests.
  - now rewrite app_nil_r.
  - cbn [testsLoop map concat]. unfold expandTest at 1.
    destruct (TestParts config test) as [parts|].
    + rewrite IH, partsLoop_app, <- app_assoc. reflexivity.
    + rewrite IH, <- app_assoc. reflexivity.
Qed.

(** C7.  When the configuration loads, [getTestsToRun] returns, with a nil
    error, a list that holds exactly the names the spec asks for (for each
    configured test with parts, the names [<test>-part<i>] for [i] from 0 to
    the number of parts; a test without parts once, unchanged) and that is
    sorted in the byte-wise order of strings. *)
Theorem getTestsToRun_parts_sorted (projects : list string) (w : World)
    (config : Config) :
  (LoadConfig w).1 = inr config ->
  exists tests,
    outcome (getTestsToRun projects w) = Returned (tests, None)
    /\ tests ≡ₚ expectedTests config projects
    /\ StronglySorted String.le tests
    /\ (forall test parts,
          TestParts config test = Some parts ->
          length (expandTest config test) = S (length parts)).
Proof.
  intros Hconfig. unfold getTestsToRun. rewrite bind_call, Hconfig. cbv zeta.
  eexists. split; [reflexivity|]. split; [|split].
  - unfold SortStrings. rewrite merge_sort_Permutation, testsLoop_app.
    reflexivity.
  - unfold SortStrings. apply StronglySorted_merge_sort; apply _.
  - intros test parts Hparts. unfold expandTest. rewrite Hparts.
    now rewrite length_map, length_seq.
Qed.

End TestList.

Lemma getTestsToRun_parts_sorted_witness :
  exists tests,
    outcome (@getTestsToRun unit (Sample.scripted Sample.quiet)
               ["release.go.core"] tt) = Returned (tests, None)
    /\ tests ≡ₚ expectedTests Sample.config ["release.go.core"]
    /\ StronglySorted String.le tests
    /\ (forall test parts,
          TestParts Sample.config test = Some parts ->
          length (expandTest Sample.config test) = S (length parts)).
Proof.
  apply (@getTestsToRun_parts_sorted unit (Sample.scripted Sample.quiet)
           ["release.go.core"] tt Sample.config).
  reflexivity.
Defined.

Example getTestsToRun_sample :
  outcome (@getTestsToRun unit (Sample.scripted Sample.quiet)
             ["release.go.core"] tt)
  = Returned (["vanadium-go-race-part0"; "vanadium-go-race-part1";
               "vanadium-go-race-part2"; "vanadium-go-test"], None).
Proof. vm_compute. reflexivity. Qed.

(** ** The nil result of processCLList *)

Section NilResult.

Context {World : Type} `{!Library} `{!Flags} `{!Collaborators World}.

Lemma outcome_bind {A B} (m : M World A) (k : A -> M World B) (w : World) :
  outcome (bind m k w) =
  match outcome (m w) with
  | Returned a => outcome (k a (after (m w)))
  | Panicked => Panicked
  end.
Proof. unfold bind. destruct (outcome (m w)); reflexivity. Qed.

Lemma isKnownProject_returns cl ps (w : World) :
  outcome (isKnownProject cl ps w)
  = Returned (negb (length (Find ps (Project cl)) =? 0)%nat)
  /\ after (isKnownProject cl ps w) = w.
Proof.
  unfold isKnownProject.
  destruct (length (Find ps (Project cl)) =? 0)%nat; split; reflexivity.
Qed.

Lemma processCLList_loop_nil (s : @clsSender World) g v (w : World) :
  (exists cl err,
     In cl g /\ passesFilter s cl = true
     /\ ParseRefString (Reference cl) = inl err) ->
  outcome (processCLList_loop s g v w) = Returned None.
Proof.
  revert v w. induction g as [|curCL rest IH]; intros v w (cl & err & Hin & Hknown & Hparse).
  - destruct Hin.
  - cbn [processCLList_loop]. rewrite outcome_bind.
    unfold passesFilter in Hknown.
    destruct Hin as [->|Hin].
    + destruct (projects s) as [ps|].
      * rewrite outcome_bind.
        destruct (isKnownProject_returns cl ps w) as [-> ->].
        cbn [ret outcome after]. rewrite Hknown. cbn [negb].
        rewrite Hparse. reflexivity.
      * cbn [ret outcome after]. rewrite Hparse. reflexivity.
    + assert (Hrest : forall v' w',
        outcome (processCLList_loop s rest v' w') = Returned None).
      { intros v' w'. apply IH. exists cl, err. auto. }
      destruct (projects s) as [ps|].
      * rewrite outcome_bind.
        destruct (isKnownProject_returns curCL ps w) as [-> ->].
        cbn [ret outcome after].
        destruct (negb (negb _)); [now apply Hrest|].
        destruct (ParseRefString (Reference curCL)) as [err'|[n p]];
          [reflexivity | now apply Hrest].
      * cbn [ret outcome after].
        destruct (ParseRefString (Reference curCL)) as [err'|[n p]];
          [reflexivity | now apply Hrest].
Qed.

(** C8.  When a change of a group passes the known-project filter and its
    ref fails to parse, [processCLList] returns the nil pointer, and
    [sendCLListsToPresubmitTest] panics when it reaches that group (here:
    the first of its list), whatever follows it. *)
Theorem processCLList_nil_panics (s : @clsSender World) (g : CLList)
    (rest : list CLList) (w : World) :
  (exists cl err,
     In cl g /\ passesFilter s cl = true
     /\ ParseRefString (Reference cl) = inl err) ->
  clLists s = g :: rest ->
  outcome (processCLList s g w) = Returned None
  /\ outcome (sendCLListsToPresubmitTest s w) = Panicked.
Proof.
  intros Hbad Hlists.
  assert (Hnil : outcome (processCLList s g w) = Returned None)
    by now apply processCLList_loop_nil.
  split; [exact Hnil|].
  unfold sendCLListsToPresubmitTest. rewrite Hlists. cbn [sendLoop].
  rewrite outcome_bind, Hnil. reflexivity.
Qed.

End NilResult.

(** A group of two changes of a known project; the ref of the second does
    not parse. *)
Lemma processCLList_nil_panics_witness :
  outcome (@processCLList unit Sample.library
             (Sample.sender Sample.quiet [Sample.malformedGroup; []])
             Sample.malformedGroup tt)
  = Returned None
  /\ outcome (Sample.send Sample.quiet [Sample.malformedGroup; []]) = Panicked.
Proof.
  apply (@processCLList_nil_panics unit Sample.library
           (Sample.scripted Sample.quiet)
           (Sample.sender Sample.quiet [Sample.malformedGroup; []])
           Sample.malformedGroup [[]] tt).
  - exists (Sample.change "not-a-ref" "bob@google.com" PresubmitTestTypeAll).
    eexists. split; [right; left; reflexivity|].
    split; vm_compute; reflexivity.
  - reflexivity.
Defined.

(** ** Queued builds without refs *)

Section QueuedBuilds.

Context {World : Type} `{!Library} `{!Flags} `{!Collaborators World}.

Lemma bind_ext {A B} (m : M World A) (k1 k2 : A -> M World B) (w : World) :
  (forall a w', k1 a w' = k2 a w') -> bind m k1 w = bind m k2 w.
Proof. intros Hk. unfold bind. destruct (outcome (m w)); now rewrite ?Hk. Qed.

Lemma queuedLoop_at_empty_refs b post cls (w : World) :
  QueuedBuild_ParseRefs b = "" ->
  queuedLoop (b :: post) cls None w = MkRan [] w (Returned None).
Proof. intros Hrefs. cbn [queuedLoop]. rewrite Hrefs. reflexivity. Qed.

Lemma queuedLoop_until_empty_refs pre b post cls :
  QueuedBuild_ParseRefs b = "" ->
  forall w : World,
    queuedLoop (pre ++ b :: post) cls None w = queuedLoop pre cls None w.
Proof.
  intros Hrefs. induction pre as [|b' pre IH]; intros w.
  - now apply queuedLoop_at_empty_refs.
  - cbn [app queuedLoop].
    destruct (String.eqb (QueuedBuild_ParseRefs b') ""); [reflexivity|].
    destruct (isBuildOutdated ParseRefString (QueuedBuild_ParseRefs b') cls)
      as [[|] [err|]]; try reflexivity.
    + apply bind_ext. intros [err|] w1; [reflexivity|].
      apply bind_ext. intros _ w2. apply IH.
    + apply IH.
Qed.

(** The loop returns nil, or the error of a build whose refs do not parse,
    or the error of a failed cancellation. *)
Lemma queuedLoop_outcome builds cls (w : World) :
  outcome (queuedLoop builds cls None w) = Returned None
  \/ exists err,
       outcome (queuedLoop builds cls None w) = Returned (Some err)
       /\ ((exists b' outdated,
              In b' builds
              /\ isBuildOutdated ParseRefString (QueuedBuild_ParseRefs b') cls
                 = (outdated, Some err))
           \/ exists id,
                In (EvCancelQueuedBuild id (Some err))
                  (events (queuedLoop builds cls None w))).
Proof.
  revert w. induction builds as [|b' builds IH]; intros w.
  - left. reflexivity.
  - cbn [queuedLoop].
    destruct (String.eqb (QueuedBuild_ParseRefs b') ""); [left; reflexivity|].
    destruct (isBuildOutdated ParseRefString (QueuedBuild_ParseRefs b') cls)
      as [outdated [err|]] eqn:Hout.
    { right. exists err. split; [destruct outdated; reflexivity|].
      left. exists b', outdated. split; [now left | exact Hout]. }
    assert (Hrest : forall evs w1,
      outcome (prefix evs (queuedLoop builds cls None w1)) = Returned None
      \/ exists err,
           outcome (prefix evs (queuedLoop builds cls None w1))
           = Returned (Some err)
           /\ ((exists b'0 outdated0,
                  In b'0 (b' :: builds)
                  /\ isBuildOutdated ParseRefString
                       (QueuedBuild_ParseRefs b'0) cls = (outdated0, Some err))
               \/ exists id,
                    In (EvCancelQueuedBuild id (Some err))
                      (events (prefix evs (queuedLoop builds cls None w1))))).
    { intros evs w1. destruct (IH w1) as [Hnil|(err & Herr & Hwhy)].
      - left. exact Hnil.
      - right. exists err. split; [exact Herr|].
        destruct Hwhy as [(b0 & o0 & Hin & Hb0)|(id & Hid)].
        + left. exists b0, o0. split; [now right | exact Hb0].
        + right. exists id. simpl. apply in_or_app. now right. }
    destruct outdated.
    + rewrite bind_call.
      destruct (CancelQueuedBuild _ w) as [[err|] w1]; cbn [fst snd].
      * right. exists err. split; [reflexivity|]. right. eexists. now left.
      * rewrite bind_printf, prefix_prefix. apply Hrest.
    + rewrite <- (prefix_nil (queuedLoop builds cls None w)). apply Hrest.
Qed.

(** C9, amended.  When a queued build yields the empty string from
    [ParseRefs], the loop of [removeQueuedOutdatedBuilds] runs exactly as on
    the builds before it: nothing is checked or cancelled for that build or
    for a build after it.  At that build the loop returns at once with a nil
    error and no event; so the function returns nil unless a build before it
    already ended the loop with an error. *)
Theorem removeQueuedOutdatedBuilds_empty_refs (pre post : list QueuedBuild)
    (b : QueuedBuild) (cls : clNumberToPatchsetMap) (w : World) :
  QueuedBuild_ParseRefs b = "" ->
  (Jenkins jenkinsHostFlag w).1 = None ->
  (QueuedBuilds presubmitTestJobFlag (Jenkins jenkinsHostFlag w).2).1
  = inr (pre ++ b :: post) ->
  let w' := (QueuedBuilds presubmitTestJobFlag (Jenkins jenkinsHostFlag w).2).2 in
  removeQueuedOutdatedBuilds cls w
  = prefix [EvJenkins jenkinsHostFlag None;
            EvQueuedBuilds presubmitTestJobFlag (inr (pre ++ b :: post))]
      (queuedLoop pre cls None w')
  /\ (forall w0, queuedLoop (b :: post) cls None w0 = MkRan [] w0 (Returned None))
  /\ (pre = [] ->
      removeQueuedOutdatedBuilds cls w
      = MkRan [EvJenkins jenkinsHostFlag None;
               EvQueuedBuilds presubmitTestJobFlag (inr (b :: post))]
          w' (Returned None))
  /\ (outcome (removeQueuedOutdatedBuilds cls w) = Returned None
      \/ exists err,
           outcome (removeQueuedOutdatedBuilds cls w) = Returned (Some err)
           /\ ((exists b' outdated,
                  In b' pre
                  /\ isBuildOutdated ParseRefString (QueuedBuild_ParseRefs b') cls
                     = (outdated, Some err))
               \/ exists id,
                    In (EvCancelQueuedBuild id (Some err))
                      (events (removeQueuedOutdatedBuilds cls w)))).
Proof.
  intros Hrefs Hjenkins Hqueued w'.
  pose proof (queuedLoop_until_empty_refs pre b post cls Hrefs) as Hloop.
  assert (Hrun : removeQueuedOutdatedBuilds cls w
    = prefix [EvJenkins jenkinsHostFlag None;
              EvQueuedBuilds presubmitTestJobFlag (inr (pre ++ b :: post))]
        (queuedLoop pre cls None w')).
  { unfold removeQueuedOutdatedBuilds. rewrite bind_call, Hjenkins.
    rewrite bind_call, Hqueued, prefix_prefix, Hloop. reflexivity. }
  split; [exact Hrun|]. split; [|split].
  - intros w0. now apply queuedLoop_at_empty_refs.
  - intros ->. rewrite Hrun. reflexivity.
  - rewrite Hrun.
    destruct (queuedLoop_outcome pre cls w') as [Hnil|(err & Herr & Hwhy)].
    + left. exact Hnil.
    + right. exists err. split; [exact Herr|].
      destruct Hwhy as [Hparse|(id & Hid)]; [now left|].
      right. exists id. simpl. auto.
Qed.

End QueuedBuilds.

(** C9, as stated, fails: the second queued build has empty refs, yet the
    function returns the parse error of the first build, not nil. *)
Lemma removeQueuedOutdatedBuilds_empty_refs_counterexample :
  Sample.onQueuedBuilds Sample.brokenQueue
  = inr [Sample.queued 1 "not-a-ref"; Sample.queued 2 ""]
  /\ QueuedBuild_ParseRefs (Sample.queued 2 "") = ""
  /\ outcome (Sample.removeQueued Sample.brokenQueue {[ 1000 := 2 ]})
     = Returned (Some (ErrExternal "unexpected number of parts: not-a-ref"))
  /\ outcome (Sample.removeQueued Sample.brokenQueue {[ 1000 := 2 ]})
     <> Returned None.
Proof.
  split; [reflexivity|]. split; [reflexivity|].
  split; [vm_compute; reflexivity | vm_compute; discriminate].
Qed.

(** A queue of three builds, the second without refs: the first is
    cancelled, the third is never looked at. *)
Lemma removeQueuedOutdatedBuilds_empty_refs_witness :
  Sample.removeQueued Sample.staleQueue {[ 1000 := 2 ]}
  = prefix [EvJenkins "http://jenkins" None;
            EvQueuedBuilds "presubmit-test"
              (inr [Sample.queued 1 "refs/changes/00/1000/1";
                    Sample.queued 2 "";
                    Sample.queued 3 "refs/changes/00/1000/1"])]
      (@queuedLoop unit Sample.library (Sample.scripted Sample.staleQueue)
         [Sample.queued 1 "refs/changes/00/1000/1"] {[ 1000 := 2 ]} None tt).
Proof.
  refine (proj1 (@removeQueuedOutdatedBuilds_empty_refs unit Sample.library
                   Sample.flags (Sample.scripted Sample.staleQueue)
                   [Sample.queued 1 "refs/changes/00/1000/1"]
                   [Sample.queued 3 "refs/changes/00/1000/1"]
                   (Sample.queued 2 "") {[ 1000 := 2 ]} tt _ _ _));
    reflexivity.
Defined.

Example removeQueuedOutdatedBuilds_staleQueue :
  Sample.removeQueued Sample.staleQueue {[ 1000 := 2 ]}
  = MkRan [EvJenkins "http://jenkins" None;
           EvQueuedBuilds "presubmit-test"
             (inr [Sample.queued 1 "refs/changes/00/1000/1";
                   Sample.queued 2 "";
                   Sample.queued 3 "refs/changes/00/1000/1"]);
           EvCancelQueuedBuild "%d 1" None;
           EvPrint Stdout "Cancelled build %s as it is no longer current.\n"
             [ArgStr "refs/changes/00/1000/1"]]
      tt (Returned None).
Proof. vm_compute. reflexivity. Qed.

(** ** Failures in the loop of the sender *)

Section Guarded.

Context {World A : Type}.
Variable bad : Event -> bool.
Variable C : Event -> Ran World A -> Prop.
Hypothesis C_prefix : forall e evs r, C e r -> C e (prefix evs r).



Lemma bind_cases {B} (m : M World B) (k : B -> M World A) (w : World) :
  (exists a, outcome (m w) = Returned a
             /\ bind m k w = prefix (events (m w)) (k a (after (m w))))
  \/ (outcome (m w) = Panicked
      /\ bind m k w = MkRan (events (m w)) (after (m w)) Panicked).
Proof.
  unfold bind. destruct (outcome (m w)) as [a|]; [left|right]; eauto.
Qed.


End Guarded.

Section Continues.

Context {World : Type}.
Variable K : Z -> M World (Z * option Err).

Lemma continues_bind {B} (m : M World B) (k1 k2 : B -> M World (Z * option Err))
    (w : World) :
  (forall a w', continues K (k1 a w') (k2 a w')) ->
  continues K (bind m k1 w) (bind m k2 w).
Proof.
  intros Hk. unfold continues, bind.
  destruct (outcome (m w)) as [a|]; [|reflexivity].
  specialize (Hk a (after (m w))). unfold continues in Hk.
  cbn [outcome events after].
  destruct (outcome (k1 a (after (m w)))) as [[sent [err|]]|] eqn:Hout;
    rewrite Hk; rewrite ?Hout; try reflexivity.
  unfold prefix. cbn. now rewrite app_assoc.
Qed.

Lemma continues_error sent err (w : World) :
  continues K (ret (sent, Some err) w) (ret (sent, Some err) w).
Proof. reflexivity. Qed.

Lemma continues_panic (w : World) : continues K (panic w) (panic w).
Proof. reflexivity. Qed.

Lemma continues_next sent (w : World) :
  continues K (ret (sent, None) w) (K sent w).
Proof. unfold continues. cbn. now rewrite prefix_nil. Qed.

End Continues.

Ltac continues_step :=
  lazymatch goal with
  | |- continues _ (ret (_, Some _) _) _ => apply continues_error
  | |- continues _ (panic _) _ => apply continues_panic
  | |- continues _ (ret (_, None) _) _ => apply continues_next
  | |- continues _ (bind _ _ _) _ => apply continues_bind; intros ? ?
  | |- continues _ (match ?x with _ => _ end _) _ => destruct x; cbv beta iota
  end.



Section Failures.

Context {World : Type} `{!Library} `{!Flags} `{!Collaborators World}.

(** The run of the loop on a list is the run on its first group, followed,
    when that returned a nil error, by the run on the other groups. *)
Lemma sendLoop_cons (s : @clsSender World) g rest sent (w : World) :
  continues (sendLoop s rest) (sendLoop s [g] sent w)
    (sendLoop s (g :: rest) sent w).
Proof.
  cbn [sendLoop]. repeat continues_step.
Qed.









End Failures.



(** ** The owner check *)

Section OwnerCheck.

Context {World : Type} `{!Library} `{!Flags} `{!Collaborators World}.

Lemma processCLList_loop_flag (s : @clsSender World) g v (w : World) info :
  var_hasNonGoogleOwner v = lastOwnerFails (var_filteredCLList v) ->
  outcome (processCLList_loop s g v w) = Returned (Some info) ->
  hasNonGoogleOwner info = lastOwnerFails (filteredCLList info).
Proof.
  revert v w. induction g as [|curCL rest IH]; intros v w Hv.
  - cbn. intros [= <-]. exact Hv.
  - cbn [processCLList_loop]. rewrite outcome_bind.
    assert (Hnext : forall w' cl patchset,
      outcome (processCLList_loop s rest
        {| var_curCLMap := <[cl := patchset]> (var_curCLMap v);
           var_clStrings :=
             var_clStrings v
             ++ [Sprintf "http://go/vcl/%d/%d" [ArgInt cl; ArgInt patchset]];
           var_skipPresubmitTest :=
             match PresubmitTest curCL with
             | PresubmitTestTypeNone => true
             | _ => var_skipPresubmitTest v
             end;
           var_hasNonGoogleOwner := negb (checkEmailAddress (OwnerEmail curCL));
           var_projects := var_projects v ++ [Project curCL];
           var_refs := var_refs v ++ [Reference curCL];
           var_filteredCLList := var_filteredCLList v ++ [curCL] |} w')
      = Returned (Some info) ->
      hasNonGoogleOwner info = lastOwnerFails (filteredCLList info)).
    { intros w' cl patchset. apply IH. cbn. unfold lastOwnerFails.
      now rewrite last_snoc. }
    destruct (projects s) as [ps|].
    + rewrite outcome_bind.
      destruct (isKnownProject_returns curCL ps w) as [-> ->].
      cbn [ret outcome after].
      destruct (negb (negb _)); [now apply IH|].
      destruct (ParseRefString (Reference curCL)) as [err|[cl patchset]];
        [discriminate | apply Hnext].
    + cbn [ret outcome after].
      destruct (ParseRefString (Reference curCL)) as [err|[cl patchset]];
        [discriminate | apply Hnext].
Qed.

(** The flag that [processCLList] returns is the owner check of the last
    change that passed the project filter, whatever the owners before it. *)
Lemma processCLList_flag_last_owner (s : @clsSender World) g (w : World) info :
  outcome (processCLList s g w) = Returned (Some info) ->
  hasNonGoogleOwner info = lastOwnerFails (filteredCLList info).
Proof. apply processCLList_loop_flag. reflexivity. Qed.

End OwnerCheck.

(** C6 fails on the code: in a group whose first owner is outside Google
    and not whitelisted and whose second owner is from Google, the flag
    [hasNonGoogleOwner] is false, no message is posted, and the group is
    sent to presubmit testing.  With the two changes in the other order the
    link is posted and nothing is sent. *)
Theorem sendCLLists_untrusted_first_owner_sent :
  checkEmailAddress "eve@example.com" = false
  /\ option_map hasNonGoogleOwner
       (match outcome (@processCLList unit Sample.library
                         (Sample.sender Sample.quiet [Sample.mixedGroup])
                         Sample.mixedGroup tt) with
        | Returned info => info
        | Panicked => None
        end) = Some false
  /\ outcome (Sample.send Sample.quiet [Sample.mixedGroup])
     = Returned (2, None)
  /\ List.filter triggersBuild (events (Sample.send Sample.quiet [Sample.mixedGroup]))
     = [EvAddBuildWithParameter "presubmit-test"
          "refs/changes/00/100/1:refs/changes/00/200/3"
          "release.go.core:release.go.core"
          "vanadium-go-race-part0 vanadium-go-race-part1 vanadium-go-race-part2 vanadium-go-test"
          None]
  /\ List.filter postEvent (events (Sample.send Sample.quiet [Sample.mixedGroup]))
     = []
  /\ outcome (Sample.send Sample.quiet [Sample.mixedGroupSwapped])
     = Returned (0, None)
  /\ List.filter triggersBuild
       (events (Sample.send Sample.quiet [Sample.mixedGroupSwapped])) = []
  /\ length (List.filter postEvent
               (events (Sample.send Sample.quiet [Sample.mixedGroupSwapped])))
     = 1%nat.
Proof. repeat split; vm_compute; reflexivity. Qed.

(** * Further properties *)

(** ** Refs of a build *)

Section MoreOutdatedBuildFacts.

Variable ParseRefString : string -> Err + Z * Z.

Lemma parseRefs_app (refs1 refs2 : list string) (m : clNumberToPatchsetMap) :
  parseRefs ParseRefString (refs1 ++ refs2) m =
  match parseRefs ParseRefString refs1 m with
  | inl err => inl err
  | inr m' => parseRefs ParseRefString refs2 m'
  end.
Proof.
  revert m. induction refs1 as [|r refs1 IH]; intros m; [reflexivity|].
  cbn. destruct (ParseRefString r) as [err|[cl p]]; [reflexivity | apply IH].
Qed.

Lemma parseRefs_all_ok (refs : list string) (m : clNumberToPatchsetMap) :
  Forall (fun r => exists p, ParseRefString r = inr p) refs ->
  exists m', parseRefs ParseRefString refs m = inr m'.
Proof.
  revert m. induction refs as [|r refs IH]; intros m Hok; [cbn; eauto|].
  apply Forall_cons in Hok as [[[cl p] Hr] Hok]. cbn. rewrite Hr. now apply IH.
Qed.

(** X1.  The first ref that fails to parse decides the result: [false] with the
    error of that ref, whatever the registry holds. *)
Theorem isBuildOutdated_first_parse_error (curRefs : string)
    (newCLs : clNumberToPatchsetMap) (pre post : list string) (bad : string)
    (err : Err) :
  Split curRefs ":"%char = pre ++ bad :: post ->
  Forall (fun r => exists p, ParseRefString r = inr p) pre ->
  ParseRefString bad = inl err ->
  isBuildOutdated ParseRefString curRefs newCLs = (false, Some err).
Proof.
  intros Hsplit Hpre Hbad. unfold isBuildOutdated.
  rewrite Hsplit, parseRefs_app.
  destruct (parseRefs_all_ok pre ∅ Hpre) as [m' ->].
  cbn. now rewrite Hbad.
Qed.

(** A build is outdated against the registry that records exactly the
    patchsets it was started with: an equal patchset counts as outdated. *)
Lemma isBuildOutdated_own_refs (curRefs : string)
    (curCLs : clNumberToPatchsetMap) :
  parseRefs ParseRefString (Split curRefs ":"%char) ∅ = inr curCLs ->
  isBuildOutdated ParseRefString curRefs curCLs = (true, None).
Proof.
  intros Hparse.
  rewrite (isBuildOutdated_parsed _ _ _ _ Hparse).
  rewrite bool_decide_eq_true_2 by done.
  f_equal. apply patchsetLoop_true. intros k _. lia.
Qed.

End MoreOutdatedBuildFacts.

(** X2.  [sortedKeys] lists every key of the map once, in strictly increasing
    order. *)
Theorem sortedKeys_increasing (cls : clNumberToPatchsetMap) :
  StronglySorted Z.lt (sortedKeys cls)
  /\ forall k, k ∈ sortedKeys cls <-> is_Some (cls !! k).
Proof.
  split; [|intros k; apply elem_of_sortedKeys].
  assert (Hnd : NoDup (sortedKeys cls)).
  { unfold sortedKeys. rewrite merge_sort_Permutation.
    apply NoDup_fst_map_to_list. }
  assert (Hs : StronglySorted Z.le (sortedKeys cls)).
  { unfold sortedKeys. apply StronglySorted_merge_sort; apply _. }
  induction Hs as [|x l Hl IH Hx]; constructor.
  - apply IH. now apply NoDup_cons in Hnd as [_ ?].
  - apply NoDup_cons in Hnd as [Hx' _].
    rewrite Forall_forall in Hx |- *. intros y Hy.
    specialize (Hx y Hy). assert (x <> y) by (intros ->; done). lia.
Qed.

(** ** The result of processCLList *)

Section SplitJoin.

Lemma Split_sepFree sep s : sepFree sep s = true -> Split s sep = [s].
Proof.
  induction s as [|c s IH]; [reflexivity|]. cbn.
  destruct (Ascii.eqb c sep); [discriminate|]. cbn. intros Hs.
  now rewrite (IH Hs).
Qed.

Lemma app_String c s t : String c s +:+ t = String c (s +:+ t).
Proof. reflexivity. Qed.

Lemma app_empty t : "" +:+ t = t.
Proof. reflexivity. Qed.

Lemma Split_append_sep sep s rest :
  sepFree sep s = true ->
  Split (s +:+ String sep rest) sep = s :: Split rest sep.
Proof.
  induction s as [|c s IH].
  - intros _. rewrite app_empty. cbn. now rewrite Ascii.eqb_refl.
  - rewrite app_String. cbn.
    destruct (Ascii.eqb c sep); [discriminate|]. cbn. intros Hs.
    now rewrite (IH Hs).
Qed.

(** Joining pieces that do not contain the separator and splitting the
    result gives the pieces back. *)
Lemma Split_Join sep (elems : list string) :
  elems <> [] ->
  Forall (fun s => sepFree sep s = true) elems ->
  Split (Join elems (String sep EmptyString)) sep = elems.
Proof.
  induction elems as [|e elems IH]; [done|]. intros _ Hfree.
  apply Forall_cons in Hfree as [He Hfree].
  destruct elems as [|e' elems].
  - cbn. now apply Split_sepFree.
  - change (Join (e :: e' :: elems) (String sep EmptyString))
      with (e +:+ String sep EmptyString +:+ Join (e' :: elems) (String sep EmptyString)).
    rewrite app_String, app_empty, Split_append_sep by done.
    f_equal. now apply IH.
Qed.

End SplitJoin.

Section ProcessFacts.

Context {World : Type} `{!Library} `{!Flags} `{!Collaborators World}.

Lemma parseRefs_inr_all_ok refs (m m' : clNumberToPatchsetMap) :
  parseRefs ParseRefString refs m = inr m' ->
  Forall (fun r => exists p, ParseRefString r = inr p) refs.
Proof.
  revert m. induction refs as [|r refs IH]; intros m; cbn; [constructor|].
  destruct (ParseRefString r) as [err|[cl p]] eqn:Hr; [discriminate|].
  intros Hm. constructor; [eauto | eapply IH; eauto].
Qed.

Lemma bind_silent {A B} (m : M World A) (k : A -> M World B) (w : World) a :
  outcome (m w) = Returned a -> after (m w) = w ->
  outcome (bind m k w) = outcome (k a w)
  /\ after (bind m k w) = after (k a w).
Proof. intros Ho Ha. unfold bind. rewrite Ho, Ha. done. Qed.

(** The project filter at the head of the loop of [processCLList] returns
    whether the change is skipped, and leaves the world as it is. *)
Lemma filter_run (s : @clsSender World) curCL (w : World) :
  let m := match projects s with
           | Some ps => known <- isKnownProject curCL ps;; ret (negb known)
           | None => ret false
           end in
  outcome (m w) = Returned (negb (passesFilter s curCL)) /\ after (m w) = w.
Proof.
  unfold passesFilter. destruct (projects s) as [ps|]; [|done].
  destruct (isKnownProject_returns curCL ps w) as [Ho Ha].
  cbv zeta. destruct (bind_silent (isKnownProject curCL ps)
    (fun known => ret (negb known)) w _ Ho Ha) as [-> ->]. done.
Qed.

Lemma processCLList_loop_result (s : @clsSender World) g v (w : World) info :
  outcome (processCLList_loop s g v w) = Returned (Some info) ->
  let kept := List.filter (passesFilter s) g in
  filteredCLList info = var_filteredCLList v ++ kept
  /\ refs info = var_refs v ++ map Reference kept
  /\ result_projects info = var_projects v ++ map Project kept
  /\ skipPresubmitTest info = var_skipPresubmitTest v || existsb optsOut kept
  /\ parseRefs ParseRefString (map Reference kept) (var_curCLMap v)
     = inr (clMap info)
  /\ after (processCLList_loop s g v w) = w.
Proof.
  revert v w. induction g as [|curCL rest IH]; intros v w.
  - cbn. intros [= <-]. cbn. rewrite !app_nil_r, orb_false_r. done.
  - cbn [processCLList_loop List.filter].
    destruct (filter_run s curCL w) as [Ho Ha]. cbv zeta in Ho, Ha.
    match goal with |- context [bind ?m ?k w] =>
      destruct (bind_silent m k w _ Ho Ha) as [-> ->] end.
    destruct (passesFilter s curCL); cbn [negb].
    + destruct (ParseRefString (Reference curCL)) as [err|[cl p]] eqn:Hr;
        [discriminate|].
      intros Hout. destruct (IH _ _ Hout) as (H1 & H2 & H3 & H4 & H5 & H6).
      cbn in H1, H2, H3, H4, H5. cbn [map existsb parseRefs].
      rewrite Hr, H1, H2, H3, H4, <- !app_assoc.
      repeat split; try done.
      unfold optsOut.
      destruct (PresubmitTest curCL), (var_skipPresubmitTest v); reflexivity.
    + apply IH.
Qed.

Lemma processCLList_loop_some (s : @clsSender World) g v (w : World) :
  Forall (fun cl => exists p, ParseRefString (Reference cl) = inr p)
    (List.filter (passesFilter s) g) ->
  exists info, outcome (processCLList_loop s g v w) = Returned (Some info).
Proof.
  revert v w. induction g as [|curCL rest IH]; intros v w Hok.
  - cbn. eauto.
  - cbn [processCLList_loop]. cbn [List.filter] in Hok.
    destruct (filter_run s curCL w) as [Ho Ha]. cbv zeta in Ho, Ha.
    match goal with |- context [bind ?m ?k w] =>
      destruct (bind_silent m k w _ Ho Ha) as [-> _] end.
    destruct (passesFilter s curCL); cbn [negb].
    + apply Forall_cons in Hok as [[[cl p] Hr] Hok]. rewrite Hr. now apply IH.
    + now apply IH.
Qed.

Lemma processCLList_facts (s : @clsSender World) g (w : World) info :
  outcome (processCLList s g w) = Returned (Some info) ->
  filteredCLList info = List.filter (passesFilter s) g
  /\ refs info = map Reference (List.filter (passesFilter s) g)
  /\ result_projects info = map Project (List.filter (passesFilter s) g)
  /\ skipPresubmitTest info = existsb optsOut (List.filter (passesFilter s) g)
  /\ parseRefs ParseRefString (refs info) ∅ = inr (clMap info)
  /\ after (processCLList s g w) = w.
Proof.
  intros Hout. destruct (processCLList_loop_result _ _ _ _ _ Hout)
    as (H1 & H2 & H3 & H4 & H5 & H6).
  cbn in H1, H2, H3, H4, H5. rewrite H2. done.
Qed.

Lemma processCLList_some (s : @clsSender World) g (w : World) :
  Forall (fun cl => exists p, ParseRefString (Reference cl) = inr p)
    (List.filter (passesFilter s) g) ->
  exists info, outcome (processCLList s g w) = Returned (Some info).
Proof. apply processCLList_loop_some. Qed.

(** X3.  What [processCLList] returns, when it returns a result: the changes
    that passed the project filter, in order; their refs and projects; the
    map of their parsed refs; and the opt-out flag, which is set as soon as
    one of them opts out.  The world is left as it is. *)
Theorem processCLList_result (s : @clsSender World) (g : CLList) (w : World)
    (info : processCLListResult) :
  outcome (processCLList s g w) = Returned (Some info) ->
  let kept := List.filter (passesFilter s) g in
  filteredCLList info = kept
  /\ refs info = map Reference kept
  /\ result_projects info = map Project kept
  /\ skipPresubmitTest info = existsb optsOut kept
  /\ parseRefs ParseRefString (refs info) ∅ = inr (clMap info)
  /\ after (processCLList s g w) = w.
Proof.
  intros Hout. cbv zeta. now apply processCLList_facts.
Qed.

Lemma parse_all_or_some_bad (cls : CLList) :
  Forall (fun cl => exists p, ParseRefString (Reference cl) = inr p) cls
  \/ Exists (fun cl => exists err, ParseRefString (Reference cl) = inl err) cls.
Proof.
  induction cls as [|cl cls [IH|IH]].
  - left. constructor.
  - destruct (ParseRefString (Reference cl)) as [err|p] eqn:Hr.
    + right. apply Exists_cons_hd. eauto.
    + left. constructor; eauto.
  - right. now apply Exists_cons_tl.
Qed.

(** X4.  [processCLList] returns a result exactly when the ref of every change
    that passes the project filter parses, and the nil pointer exactly when
    the ref of one of them does not; it never panics. *)
Theorem processCLList_result_iff (s : @clsSender World) (g : CLList) (w : World) :
  let kept := List.filter (passesFilter s) g in
  ((exists info, outcome (processCLList s g w) = Returned (Some info)) <->
   Forall (fun cl => exists p, ParseRefString (Reference cl) = inr p) kept)
  /\ (outcome (processCLList s g w) = Returned None <->
      Exists (fun cl => exists err, ParseRefString (Reference cl) = inl err)
        kept).
Proof.
  intros kept.
  assert (Hbad : Exists (fun cl => exists err,
                   ParseRefString (Reference cl) = inl err) kept ->
                 outcome (processCLList s g w) = Returned None).
  { intros Hex. apply Exists_exists in Hex as (cl & Hin & err & Herr).
    apply list_elem_of_In, filter_In in Hin as [Hin Hpass].
    apply processCLList_loop_nil. eauto. }
  assert (Hok : Forall (fun cl => exists p,
                  ParseRefString (Reference cl) = inr p) kept ->
                exists info, outcome (processCLList s g w) = Returned (Some info))
    by apply processCLList_some.
  destruct (parse_all_or_some_bad kept) as [Hall|Hex].
  - destruct (Hok Hall) as [info Hinfo]. split; split; eauto; intros Hx;
      first [congruence | specialize (Hbad Hx); congruence].
  - specialize (Hbad Hex). split; split; eauto; intros Hx;
      first [ destruct Hx as [info Hinfo]; congruence
            | destruct (Hok Hx) as [info Hinfo]; congruence ].
Qed.

Lemma addPresubmitTestBuild_parameters cls tests (w : World) job a b c r :
  In (EvAddBuildWithParameter job a b c r)
    (events (addPresubmitTestBuild cls tests w)) ->
  job = presubmitTestJobFlag /\ a = Join (map Reference cls) ":"
  /\ b = Join (map Project cls) ":" /\ c = Join tests " ".
Proof.
  unfold addPresubmitTestBuild. rewrite bind_call.
  destruct (Jenkins jenkinsHostFlag w) as [[err|] w1]; cbn [fst snd].
  - intros [?|[]]. discriminate.
  - unfold call. cbn.
    match goal with |- context [AddBuildWithParameter ?j ?x ?y ?z ?w] =>
      destruct (AddBuildWithParameter j x y z w) as [res w2] end.
    cbn. intros [?|[Heq|[]]]; [discriminate|]. injection Heq as <- <- <- <- <-.
    done.
Qed.

(** X5.  The refs that a build is requested with lead back to the group: when no
    ref of the group contains a colon, the REFS parameter of the request
    that [addPresubmitTestBuild] sends for the filtered changes splits and
    parses to the map [clMap] of [processCLList], and [isBuildOutdated]
    finds that build outdated against this map.  So a later run that sends
    the same group again cancels the build of this run. *)
Theorem requested_build_outdated_by_own_group (s : @clsSender World)
    (g : CLList) (w : World) (info : processCLListResult) :
  outcome (processCLList s g w) = Returned (Some info) ->
  filteredCLList info <> [] ->
  Forall (fun cl => sepFree ":"%char (Reference cl) = true) (filteredCLList info) ->
  let REFS := Join (map Reference (filteredCLList info)) ":" in
  (forall tests w' job a b c r,
     In (EvAddBuildWithParameter job a b c r)
       (events (addPresubmitTestBuild (filteredCLList info) tests w')) ->
     a = REFS)
  /\ parseRefs ParseRefString (Split REFS ":"%char) ∅ = inr (clMap info)
  /\ isBuildOutdated ParseRefString REFS (clMap info) = (true, None).
Proof.
  intros Hout Hne Hfree REFS.
  destruct (processCLList_facts _ _ _ _ Hout) as (H1 & H2 & _ & _ & H5 & _).
  rewrite <- H1 in H2.
  assert (Hparse : parseRefs ParseRefString (Split REFS ":"%char) ∅
                   = inr (clMap info)).
  { unfold REFS. rewrite Split_Join.
    - now rewrite <- H2.
    - destruct (filteredCLList info); [done | discriminate].
    - apply Forall_map. exact Hfree. }
  split; [|split; [exact Hparse|]].
  - intros tests w' job a b c r Hin.
    now apply addPresubmitTestBuild_parameters in Hin as (_ & -> & _).
  - now apply isBuildOutdated_own_refs.
Qed.

End ProcessFacts.

(** ** Groups that are not sent *)

(** One step in the analysis of the outcome of a run: the outcome of a
    [bind] is that of its continuation, a [match] is split on its
    scrutinee, and a [ret] gives its value. *)
Ltac outcome_step H :=
  lazymatch type of H with
  | outcome (bind _ _ _) = _ => rewrite outcome_bind in H
  | match outcome ?r with _ => _ end = _ =>
      let E := fresh "Hout" in
      destruct (outcome r) eqn:E; [|discriminate H]
  | outcome (match ?x with _ => _ end _) = _ => destruct x eqn:?
  | outcome (ret _ _) = _ => cbn [ret outcome] in H
  | outcome (panic _) = _ => discriminate H
  end.

Section SendFacts.

Context {World : Type} `{!Library} `{!Flags} `{!Collaborators World}.

Lemma sendLoop_group_sent_bounds (s : @clsSender World) g sent (w : World)
    sent' err :
  outcome (sendLoop s [g] sent w) = Returned (sent', err) ->
  sent <= sent' <= sent + Z.of_nat (length g).
Proof.
  cbn [sendLoop]. intros Hrun.
  rewrite outcome_bind in Hrun.
  destruct (outcome (processCLList s g w)) as [[info|]|] eqn:Hp;
    try discriminate Hrun.
  assert (Hlen : (length (filteredCLList info) <= length g)%nat).
  { destruct (processCLList_facts _ _ _ _ Hp) as (-> & _).
    apply List.filter_length_le. }
  repeat outcome_step Hrun; try (injection Hrun as <- <-); try lia.
Qed.

Lemma sendLoop_sent_bounds (s : @clsSender World) lists sent (w : World)
    sent' err :
  outcome (sendLoop s lists sent w) = Returned (sent', err) ->
  sent <= sent' <= sent + changeCount lists.
Proof.
  unfold changeCount. revert w sent.
  induction lists as [|g rest IH]; intros w sent Hrun.
  - cbn in Hrun. injection Hrun as <- <-. cbn. lia.
  - pose proof (sendLoop_cons s g rest sent w) as Hcons.
    unfold continues in Hcons. rewrite Hcons in Hrun. clear Hcons.
    cbn [concat]. rewrite length_app, Nat2Z.inj_add.
    destruct (outcome (sendLoop s [g] sent w)) as [[sent1 [err1|]]|] eqn:Hg.
    + rewrite Hg in Hrun. injection Hrun as <- <-.
      apply sendLoop_group_sent_bounds in Hg. lia.
    + cbn [prefix outcome] in Hrun. apply IH in Hrun.
      apply sendLoop_group_sent_bounds in Hg. lia.
    + rewrite Hg in Hrun. discriminate.
Qed.

(** X6.  The count of sent CLs never decreases and grows by at most the number
    of changes in the groups: for every sender, when
    [sendCLListsToPresubmitTest] returns, with or without an error, the new
    [clsSent] lies between the old one and the old one plus the number of
    changes. *)
Theorem sendCLLists_sent_bounds (s : @clsSender World) (w : World)
    (sent' : Z) (err : option Err) :
  outcome (sendCLListsToPresubmitTest s w) = Returned (sent', err) ->
  clsSent s <= sent' <= clsSent s + changeCount (clLists s).
Proof.
  apply sendLoop_sent_bounds.
Qed.

Lemma bind_run {A B} (m : M World A) (k : A -> M World B) (w w' : World)
    evs a :
  m w = MkRan evs w' (Returned a) -> bind m k w = prefix evs (k a w').
Proof. intros Hm. unfold bind. rewrite Hm. reflexivity. Qed.

Lemma processCLList_loop_unknown (s : @clsSender World) ps g v (w : World) :
  projects s = Some ps ->
  Forall (fun cl => Find ps (Project cl) = []) g ->
  processCLList_loop s g v w
  = MkRan (map notFoundPrint g) w
      (Returned (Some {|
         clMap := var_curCLMap v;
         clString := Join (var_clStrings v) ", ";
         skipPresubmitTest := var_skipPresubmitTest v;
         hasNonGoogleOwner := var_hasNonGoogleOwner v;
         result_projects := var_projects v;
         refs := var_refs v;
         filteredCLList := var_filteredCLList v |})).
Proof.
  intros Hps. induction g as [|cl g IH]; intros Hunknown; [reflexivity|].
  apply Forall_cons in Hunknown as [Hcl Hunknown].
  cbn [processCLList_loop map]. rewrite Hps.
  assert (Hknown : isKnownProject cl ps w
                   = MkRan [notFoundPrint cl] w (Returned false)).
  { unfold isKnownProject. rewrite Hcl. reflexivity. }
  rewrite (bind_run _ _ _ _ _ _
             (bind_run _ (fun known => ret (negb known)) _ _ _ _ Hknown)).
  cbn [negb ret prefix events after outcome app].
  rewrite (IH Hunknown). reflexivity.
Qed.

(** X7.  Groups of unknown projects only: when the sender has a project set and
    no change of any group belongs to it, [sendCLListsToPresubmitTest]
    prints one line for each change and one "SKIP: Empty CL set" for each
    group, calls no collaborator and none of its three functions, and
    returns a nil error with [clsSent] unchanged. *)
Theorem sendCLLists_unknown_projects (s : @clsSender World) (ps : Projects)
    (w : World) :
  projects s = Some ps ->
  Forall (Forall (fun cl => Find ps (Project cl) = [])) (clLists s) ->
  sendCLListsToPresubmitTest s w
  = MkRan (concat (map emptyGroupPrints (clLists s))) w
      (Returned (clsSent s, None)).
Proof.
  intros Hps. unfold sendCLListsToPresubmitTest.
  generalize (clsSent s) as sent.
  induction (clLists s) as [|g rest IH]; intros sent Hunknown; [reflexivity|].
  apply Forall_cons in Hunknown as [Hg Hunknown].
  cbn [sendLoop map concat]. unfold processCLList.
  rewrite (bind_run _ _ _ _ _ _ (processCLList_loop_unknown s ps g _ w Hps Hg)).
  cbn [filteredCLList var_filteredCLList length Nat.eqb].
  rewrite bind_printf, prefix_prefix, (IH sent Hunknown).
  unfold emptyGroupPrints, prefix. cbn [events after outcome].
  now rewrite <- !app_assoc.
Qed.

Lemma filter_none (K : Event -> bool) (evs : list Event) :
  Forall (fun e => K e = false) evs -> List.filter K evs = [].
Proof.
  induction 1 as [|e evs He _ IH]; [reflexivity|]. cbn. now rewrite He.
Qed.

Lemma processCLList_prints (s : @clsSender World) g (w : World) :
  Forall (fun e => printsOnly e = true) (events (processCLList s g w)).
Proof. apply emits_processCLList. auto. Qed.

(** X8.  A group in which a change opts out of presubmit tests, sent with the
    sender of [runQuery]: when the refs of the changes that pass the project
    filter parse, the only call is one post of "Presubmit tests skipped."
    for the refs of these changes, with the verified label; the test
    configuration is not loaded and no build is triggered or cancelled,
    whoever owns the changes.  The result is the result of the post, with
    [clsSent] unchanged. *)
Theorem sendLoop_opt_out_group (lists : list CLList) (ps : Projects)
    (g : CLList) (sent : Z) (w : World) :
  let s := querySender lists ps in
  let kept := List.filter (passesFilter s) g in
  Forall (fun cl => exists p, ParseRefString (Reference cl) = inr p) kept ->
  existsb optsOut kept = true ->
  let r := sendLoop s [g] sent w in
  Forall (fun e => triggersBuild e = false /\ cancelsBuild e = false
                   /\ configEvent e = false) (events r)
  /\ exists res,
       List.filter postEvent (events r)
       = [EvPostMessage "Presubmit tests skipped.\n" (map Reference kept)
            true res]
       /\ outcome r = Returned (sent, res).
Proof.
  intros s kept Hok Hopt r.
  destruct (processCLList_some s g w Hok) as [info Hinfo].
  destruct (processCLList_facts _ _ _ _ Hinfo)
    as (Hkept & Hrefs & _ & Hskip & _ & Hafter).
  fold s kept in Hkept, Hrefs, Hskip. rewrite Hopt in Hskip.
  pose proof (processCLList_prints s g w) as Hprints.
  assert (Hne : (length (filteredCLList info) =? 0)%nat = false).
  { rewrite Hkept. destruct kept; [discriminate Hopt | reflexivity]. }
  assert (Hr : r = prefix (events (processCLList s g w))
                 (bind (postMessageCall "Presubmit tests skipped.\n"
                          (map Reference kept) true)
                    (fun e =>
                       match e with
                       | Some err => ret (sent, Some err)
                       | None =>
                           printf Stdout "SKIP: Add %s (presubmit=none)\n"
                             [ArgStr (clString info)];;;
                           ret (sent, None)
                       end) w)).
  { unfold r. cbn [sendLoop].
    match goal with |- bind (processCLList s g) ?k w = _ =>
      destruct (bind_cases (processCLList s g) k w) as [(a & Ha & ->)|[Ha _]];
        [|congruence] end.
    rewrite Hinfo in Ha. injection Ha as <-.
    rewrite Hafter, Hne, Hskip, Hrefs. reflexivity. }
  rewrite Hr. unfold postMessageCall. rewrite bind_call.
  destruct (postMessage "Presubmit tests skipped.\n" (map Reference kept) true w)
    as [[err|] w1]; cbn [fst snd prefix events outcome ret bind printf app].
  - split.
    + apply Forall_app. split; [|repeat constructor].
      eapply Forall_impl; [exact Hprints|]. intros e He. now destruct e.
    + eexists. split; [|reflexivity].
      rewrite List.filter_app, filter_none; [reflexivity|].
      eapply Forall_impl; [exact Hprints|]. intros e He. now destruct e.
  - split.
    + apply Forall_app. split; [|repeat constructor].
      eapply Forall_impl; [exact Hprints|]. intros e He. now destruct e.
    + eexists. split; [|reflexivity].
      rewrite List.filter_app, filter_none; [reflexivity|].
      eapply Forall_impl; [exact Hprints|]. intros e He. now destruct e.
Qed.

End SendFacts.

(** ** Removal of outdated builds *)

Section NeverPanics.

Context {World : Type}.

Lemma neverPanics_ret {A} (a : A) : neverPanics (ret (World := World) a).
Proof. intros w. discriminate. Qed.

Lemma neverPanics_printf out format args :
  neverPanics (printf (World := World) out format args).
Proof. intros w. discriminate. Qed.

Lemma neverPanics_call {A} (f : World -> A * World) ev :
  neverPanics (call f ev).
Proof. intros w. unfold call. destruct (f w). discriminate. Qed.

Lemma neverPanics_bind {A B} (m : M World A) (k : A -> M World B) :
  neverPanics m -> (forall a, neverPanics (k a)) -> neverPanics (bind m k).
Proof.
  intros Hm Hk w. rewrite outcome_bind. specialize (Hm w).
  destruct (outcome (m w)); [apply Hk | done].
Qed.

End NeverPanics.

Ltac neverPanics_step :=
  lazymatch goal with
  | |- neverPanics (ret _) => apply neverPanics_ret
  | |- neverPanics (printf _ _ _) => apply neverPanics_printf
  | |- neverPanics (call _ _) => apply neverPanics_call
  | |- neverPanics (bind _ _) => apply neverPanics_bind; [|intros ?]
  | |- neverPanics (match ?x with _ => _ end) => destruct x; cbv beta iota
  end.

Section OutdatedFacts.

Context {World : Type} `{!Library} `{!Flags} `{!Collaborators World}.

Lemma neverPanics_queuedLoop builds cls err :
  neverPanics (queuedLoop builds cls err).
Proof.
  induction builds as [|b builds IH]; cbn [queuedLoop];
    repeat first [apply IH | neverPanics_step].
Qed.

Lemma neverPanics_ongoingLoop builds cls : neverPanics (ongoingLoop builds cls).
Proof.
  induction builds as [|b builds IH]; cbn [ongoingLoop];
    repeat first [apply IH | neverPanics_step].
Qed.

Lemma neverPanics_removeQueued cls : neverPanics (removeQueuedOutdatedBuilds cls).
Proof.
  unfold removeQueuedOutdatedBuilds.
  repeat first [apply neverPanics_queuedLoop | neverPanics_step].
Qed.

Lemma neverPanics_removeOngoing cls : neverPanics (removeOngoingOutdatedBuilds cls).
Proof.
  unfold removeOngoingOutdatedBuilds.
  repeat first [apply neverPanics_ongoingLoop | neverPanics_step].
Qed.

Lemma collectErrors_run (fn : M World (option Err)) errs (w : World) :
  outcome (fn w) <> Panicked ->
  collectErrors fn errs w
  = MkRan (events (fn w)) (after (fn w)) (Returned (errs ++ collected (fn w))).
Proof.
  intros Hfn. unfold collectErrors, collected, bind.
  destruct (outcome (fn w)) as [[err|]|]; [| |done];
    cbn [ret events after outcome]; rewrite !app_nil_r; reflexivity.
Qed.

Lemma removeOutdatedBuilds_run (cls : clNumberToPatchsetMap) (w : World) :
  removeOutdatedBuilds cls w
  = MkRan (events (removeQueuedOutdatedBuilds cls w)
           ++ events (removeOngoingOutdatedBuilds cls
                        (after (removeQueuedOutdatedBuilds cls w))))
      (after (removeOngoingOutdatedBuilds cls
                (after (removeQueuedOutdatedBuilds cls w))))
      (Returned (collected (removeQueuedOutdatedBuilds cls w)
                 ++ collected (removeOngoingOutdatedBuilds cls
                                 (after (removeQueuedOutdatedBuilds cls w))))).
Proof.
  unfold removeOutdatedBuilds.
  rewrite (bind_run _ _ _ _ _ _
             (collectErrors_run _ [] w (neverPanics_removeQueued cls w))).
  rewrite (collectErrors_run _ _ _
             (neverPanics_removeOngoing cls
                (after (removeQueuedOutdatedBuilds cls w)))).
  reflexivity.
Qed.

(** X9.  [removeOutdatedBuilds] always runs both removals, the ongoing builds
    after the queued ones and also when the queued ones end with an error;
    it never panics, and it returns the errors of the two, so at most two
    errors and never a nil one. *)
Theorem removeOutdatedBuilds_runs_both (cls : clNumberToPatchsetMap) (w : World) :
  let queued := removeQueuedOutdatedBuilds cls w in
  let ongoing := removeOngoingOutdatedBuilds cls (after queued) in
  removeOutdatedBuilds cls w
  = MkRan (events queued ++ events ongoing) (after ongoing)
      (Returned (collected queued ++ collected ongoing))
  /\ (length (collected queued ++ collected ongoing) <= 2)%nat
  /\ Forall is_Some (collected queued ++ collected ongoing).
Proof.
  intros queued ongoing. split; [apply removeOutdatedBuilds_run|].
  unfold collected.
  destruct (outcome queued) as [[e1|]|], (outcome ongoing) as [[e2|]|];
    cbn; split; try lia; repeat constructor; eauto.
Qed.

Lemma emits_queued cls : emits queuedEvent (removeQueuedOutdatedBuilds cls).
Proof.
  unfold removeQueuedOutdatedBuilds.
  assert (Hloop : forall builds err, emits queuedEvent (queuedLoop builds cls err)).
  { intros builds err. induction builds as [|b builds IH]; cbn [queuedLoop];
      repeat first [apply IH | emits_step]. }
  repeat first [apply Hloop | emits_step].
Qed.

Lemma emits_ongoing cls : emits ongoingEvent (removeOngoingOutdatedBuilds cls).
Proof.
  unfold removeOngoingOutdatedBuilds.
  assert (Hloop : forall builds, emits ongoingEvent (ongoingLoop builds cls)).
  { intros builds. induction builds as [|b builds IH]; cbn [ongoingLoop];
      repeat first [apply IH | emits_step]. }
  repeat first [apply Hloop | emits_step].
Qed.

Lemma queuedLoop_cancels builds cls err (w : World) id r :
  In (EvCancelQueuedBuild id r) (events (queuedLoop builds cls err w)) ->
  exists b,
    In b builds /\ id = Sprintf "%d" [ArgInt (Id b)]
    /\ QueuedBuild_ParseRefs b <> ""
    /\ isBuildOutdated ParseRefString (QueuedBuild_ParseRefs b) cls
       = (true, None).
Proof.
  revert w. induction builds as [|b builds IH]; intros w; cbn [queuedLoop].
  - intros [].
  - assert (Hrest : forall evs w',
      Forall (fun e => cancelsBuild e = false) evs ->
      In (EvCancelQueuedBuild id r)
        (events (prefix evs (queuedLoop builds cls err w'))) ->
      exists b0,
        In b0 (b :: builds) /\ id = Sprintf "%d" [ArgInt (Id b0)]
        /\ QueuedBuild_ParseRefs b0 <> ""
        /\ isBuildOutdated ParseRefString (QueuedBuild_ParseRefs b0) cls
           = (true, None)).
    { intros evs w' Hevs Hin. cbn in Hin. apply in_app_or in Hin as [Hin|Hin].
      - rewrite Forall_forall in Hevs. apply list_elem_of_In, Hevs in Hin.
        discriminate.
      - destruct (IH _ Hin) as (b0 & Hb0 & Hrest). exists b0.
        split; [now right | exact Hrest]. }
    destruct (String.eqb_spec (QueuedBuild_ParseRefs b) "") as [Hrefs|Hrefs];
      [intros []|].
    destruct (isBuildOutdated ParseRefString (QueuedBuild_ParseRefs b) cls)
      as [outdated [e|]] eqn:Hout; [intros []|].
    destruct outdated.
    + rewrite bind_call.
      destruct (CancelQueuedBuild _ w) as [[e|] w1]; cbn [fst snd].
      * intros [Heq|[]]. injection Heq as <- <-. exists b. split; [now left|done].
      * rewrite bind_printf, prefix_prefix. cbn [app]. intros Hin.
        cbn in Hin. destruct Hin as [Heq|[Heq|Hin]]; try discriminate.
        -- injection Heq as <- <-. exists b. split; [now left|done].
        -- apply (Hrest [] w1); [constructor | exact Hin].
    + apply (Hrest [] w). constructor.
Qed.

Lemma ongoingLoop_cancels builds cls (w : World) job n r :
  In (EvCancelOngoingBuild job n r) (events (ongoingLoop builds cls w)) ->
  job = presubmitTestJobFlag
  /\ exists b,
       In b builds /\ n = Number b /\ Building b = true
       /\ BuildInfo_ParseRefs b <> ""
       /\ isBuildOutdated ParseRefString (BuildInfo_ParseRefs b) cls
          = (true, None).
Proof.
  revert w. induction builds as [|b builds IH]; intros w; cbn [ongoingLoop].
  - intros [].
  - assert (Hrest : forall w',
      In (EvCancelOngoingBuild job n r) (events (ongoingLoop builds cls w')) ->
      job = presubmitTestJobFlag
      /\ exists b0,
           In b0 (b :: builds) /\ n = Number b0 /\ Building b0 = true
           /\ BuildInfo_ParseRefs b0 <> ""
           /\ isBuildOutdated ParseRefString (BuildInfo_ParseRefs b0) cls
              = (true, None)).
    { intros w' Hin. destruct (IH _ Hin) as (Hjob & b0 & Hb0 & Hmore).
      split; [exact Hjob|]. exists b0. split; [now right | exact Hmore]. }
    destruct (Building b) eqn:Hbuilding; cbn [negb]; [|apply Hrest].
    destruct (String.eqb_spec (BuildInfo_ParseRefs b) "") as [Hrefs|Hrefs];
      cbn [negb]; [apply Hrest|].
    destruct (isBuildOutdated ParseRefString (BuildInfo_ParseRefs b) cls)
      as [outdated [e|]] eqn:Hout.
    { rewrite bind_printf. cbn. intros [?|Hin]; [discriminate | exact (Hrest _ Hin)]. }
    destruct outdated; [|apply Hrest].
    rewrite bind_call.
    destruct (CancelOngoingBuild _ _ w) as [[e|] w1]; cbn [fst snd].
    + intros [Heq|[]]. injection Heq as <- <- <-. split; [done|].
      exists b. split; [now left|done].
    + rewrite bind_printf, prefix_prefix. cbn [app]. intros Hin. cbn in Hin.
      destruct Hin as [Heq|[Heq|Hin]]; try discriminate.
      * injection Heq as <- <- <-. split; [done|].
        exists b. split; [now left|done].
      * exact (Hrest _ Hin).
Qed.

(** X10.  [removeOutdatedBuilds] cancels nothing but outdated builds: every
    cancelled queued build is a build of the queue that Jenkins returned in
    this run, with refs that are not empty and that [isBuildOutdated] finds
    outdated; every cancelled running build is a build that Jenkins returned
    in this run as building, with such refs. *)
Theorem removeOutdatedBuilds_cancels_only_outdated
    (cls : clNumberToPatchsetMap) (w : World) :
  let evs := events (removeOutdatedBuilds cls w) in
  (forall id r,
     In (EvCancelQueuedBuild id r) evs ->
     exists builds b,
       In (EvQueuedBuilds presubmitTestJobFlag (inr builds)) evs
       /\ In b builds /\ id = Sprintf "%d" [ArgInt (Id b)]
       /\ QueuedBuild_ParseRefs b <> ""
       /\ isBuildOutdated ParseRefString (QueuedBuild_ParseRefs b) cls
          = (true, None))
  /\ (forall job n r,
        In (EvCancelOngoingBuild job n r) evs ->
        job = presubmitTestJobFlag
        /\ exists builds b,
             In (EvOngoingBuilds presubmitTestJobFlag (inr builds)) evs
             /\ In b builds /\ n = Number b /\ Building b = true
             /\ BuildInfo_ParseRefs b <> ""
             /\ isBuildOutdated ParseRefString (BuildInfo_ParseRefs b) cls
                = (true, None)).
Proof.
  cbv zeta. rewrite removeOutdatedBuilds_run. cbn [events].
  set (w1 := after (removeQueuedOutdatedBuilds cls w)).
  split.
  - intros id r Hin. apply in_app_or in Hin as [Hin|Hin].
    + revert Hin. unfold removeQueuedOutdatedBuilds at 1. rewrite bind_call.
      destruct (Jenkins jenkinsHostFlag w) as [[e|] w2] eqn:Hj; cbn [fst snd].
      { intros [?|[]]. discriminate. }
      rewrite bind_call.
      destruct (QueuedBuilds presubmitTestJobFlag w2) as [[e|builds] w3] eqn:Hq;
        cbn [fst snd].
      { intros [?|[?|[]]]; discriminate. }
      intros Hin. cbn in Hin. destruct Hin as [?|[?|Hin]]; try discriminate.
      destruct (queuedLoop_cancels _ _ _ _ _ _ Hin) as (b & Hb & Hmore).
      exists builds, b. split; [|done].
      apply in_or_app. left. unfold removeQueuedOutdatedBuilds.
      rewrite bind_call, Hj. cbn [fst snd]. rewrite bind_call, Hq. cbn. auto.
    + eapply not_emitted in Hin; [done | apply emits_ongoing | reflexivity].
  - intros job n r Hin. apply in_app_or in Hin as [Hin|Hin].
    + eapply not_emitted in Hin; [done | apply emits_queued | reflexivity].
    + revert Hin. unfold removeOngoingOutdatedBuilds at 1. rewrite bind_call.
      destruct (Jenkins jenkinsHostFlag w1) as [[e|] w2] eqn:Hj; cbn [fst snd].
      { intros [?|[]]. discriminate. }
      rewrite bind_call.
      destruct (OngoingBuilds presubmitTestJobFlag w2) as [[e|builds] w3] eqn:Hq;
        cbn [fst snd].
      { intros [?|[?|[]]]; discriminate. }
      intros Hin. cbn in Hin. destruct Hin as [?|[?|Hin]]; try discriminate.
      destruct (ongoingLoop_cancels _ _ _ _ _ _ Hin) as (Hjob & b & Hb & Hmore).
      split; [exact Hjob|]. exists builds, b. split; [|done].
      apply in_or_app. right. unfold removeOngoingOutdatedBuilds.
      rewrite bind_call, Hj. cbn [fst snd]. rewrite bind_call, Hq. cbn. auto.
Qed.

Lemma ongoingLoop_error builds cls (w : World) err :
  outcome (ongoingLoop builds cls w) = Returned (Some err) ->
  exists n,
    last (events (ongoingLoop builds cls w))
    = Some (EvCancelOngoingBuild presubmitTestJobFlag n (Some err)).
Proof.
  revert w. induction builds as [|b builds IH]; intros w; cbn [ongoingLoop].
  - discriminate.
  - assert (Hrest : forall evs w',
      outcome (prefix evs (ongoingLoop builds cls w')) = Returned (Some err) ->
      exists n,
        last (events (prefix evs (ongoingLoop builds cls w')))
        = Some (EvCancelOngoingBuild presubmitTestJobFlag n (Some err))).
    { intros evs w' Hout. cbn in Hout. destruct (IH _ Hout) as [n Hn].
      exists n. cbn. destruct (events (ongoingLoop builds cls w')) as [|e l] eqn:He;
        [discriminate Hn|]. rewrite <- He. rewrite last_app, He.
      now rewrite Hn. }
    destruct (Building b); cbn [negb]; [|apply IH].
    destruct (String.eqb (BuildInfo_ParseRefs b) ""); cbn [negb]; [apply IH|].
    destruct (isBuildOutdated ParseRefString (BuildInfo_ParseRefs b) cls)
      as [outdated [e|]].
    { rewrite bind_printf. apply Hrest. }
    destruct outdated; [|apply IH].
    rewrite bind_call.
    destruct (CancelOngoingBuild _ _ w) as [[e|] w1]; cbn [fst snd].
    + cbn. intros [= ->]. eauto.
    + rewrite bind_printf, prefix_prefix. apply Hrest.
Qed.

(** X11.  [removeOngoingOutdatedBuilds] is lenient: a build that is not building
    or has no refs is passed over, and refs that do not parse are only
    printed.  So the loop runs as on the builds it examines, and an error
    that the function returns is always the error of its last call to
    Jenkins (the connection, the list of builds or a cancellation). *)
Theorem removeOngoingOutdatedBuilds_lenient (cls : clNumberToPatchsetMap)
    (w : World) :
  (forall builds w',
     ongoingLoop builds cls w' = ongoingLoop (List.filter examined builds) cls w')
  /\ (forall err,
        outcome (removeOngoingOutdatedBuilds cls w) = Returned (Some err) ->
        exists e,
          last (events (removeOngoingOutdatedBuilds cls w)) = Some e
          /\ failedJenkinsCall e = Some err).
Proof.
  split.
  - intros builds. induction builds as [|b builds IH]; intros w'; [reflexivity|].
    cbn [List.filter]. unfold examined at 1.
    destruct (Building b) eqn:Hb; cbn [andb].
    + destruct (String.eqb (BuildInfo_ParseRefs b) "") eqn:Hrefs; cbn [negb].
      * cbn [ongoingLoop]. rewrite Hb, Hrefs. cbn [negb]. apply IH.
      * cbn [ongoingLoop]. rewrite Hb, Hrefs. cbn [negb].
        destruct (isBuildOutdated ParseRefString (BuildInfo_ParseRefs b) cls)
          as [outdated [e|]].
        -- apply bind_ext. intros _ w2. apply IH.
        -- destruct outdated; [|apply IH].
           apply bind_ext. intros [e|] w2; [reflexivity|].
           apply bind_ext. intros _ w3. apply IH.
    + cbn [ongoingLoop]. rewrite Hb. cbn [negb]. apply IH.
  - intros err. unfold removeOngoingOutdatedBuilds. rewrite bind_call.
    destruct (Jenkins jenkinsHostFlag w) as [[e|] w2]; cbn [fst snd].
    { cbn. intros [= ->]. eauto. }
    rewrite bind_call.
    destruct (OngoingBuilds presubmitTestJobFlag w2) as [[e|builds] w3];
      cbn [fst snd].
    { cbn. intros [= ->]. eauto. }
    rewrite prefix_prefix. cbn [app outcome prefix events]. intros Hout.
    destruct (ongoingLoop_error _ _ _ _ Hout) as [n Hn].
    destruct (events (ongoingLoop builds cls w3)) as [|e l] eqn:He;
      [discriminate Hn|].
    eexists. split; [exact Hn | reflexivity].
Qed.

End OutdatedFacts.

(** ** The shapes of a run of the query *)

Section RunShapeFacts.

Context {World : Type} `{!Library} `{!Flags} `{!Collaborators World}.

Lemma runQuery_fromLog_run (w : World) : FromLogRun (runQuery_fromLog w).
Proof.
  unfold runQuery_fromLog. cbv zeta.
  run_step; [apply ReadFailed|].
  run_step; [apply UrlFailed|].
  run_step; [apply QueryFailed|].
  run_step; [apply WriteFailed|].
  destruct (String.eqb_spec jenkinsHostFlag "") as [Hhost|Hhost];
    [now apply NoJenkinsHost|].
  match goal with |- context [Nat.eqb (size ?m) 0] =>
    destruct (Nat.eqb_spec (size m) 0) as [Hsize|Hsize] end;
    [now apply EmptyLog|].
  rewrite !prefix_prefix. now apply Sending.
Qed.

Lemma runQuery_run (w : World) : QueryRun (runQuery w).
Proof.
  pose proof (runQuery_cases w) as Hrun. cbv zeta in Hrun.
  destruct (Jenkins jenkinsHostFlag w) as [[err|] w1]; cbn [fst snd] in *.
  { rewrite Hrun. apply JenkinsFailed. }
  destruct (LastCompletedBuildStatus presubmitTestJobFlag w1) as [[err|info] w2];
    cbn [fst snd] in *.
  - rewrite Hrun. apply StatusFailed, runQuery_fromLog_run.
  - destruct (String.eqb_spec (Result info) "FAILURE") as [Hfail|Hok];
      rewrite Hrun.
    + now apply LastBuildFailed.
    + apply StatusFetched; [exact Hok | apply runQuery_fromLog_run].
Qed.

Lemma deferredPrint_events (r : Ran World (Z * option Err)) :
  exists n, events (deferredPrint r)
            = events r ++ [EvPrint Stdout "%d sent.\n" [ArgInt n]].
Proof.
  unfold deferredPrint. destruct (outcome r) as [[n err]|]; cbn; eauto.
Qed.

Lemma deferredPrint_error (r : Ran World (Z * option Err)) n err :
  outcome r = Returned (n, err) -> outcome (deferredPrint r) = Returned err.
Proof. intros Hr. unfold deferredPrint. now rewrite Hr. Qed.

Lemma runQuery_send_events prev cur (w : World) e :
  In e (events (runQuery_send prev cur w)) -> dispatchEvent e = true.
Proof.
  intros Hin. pose proof (emits_runQuery_send prev cur w) as Hsend.
  rewrite Forall_forall in Hsend. apply Hsend. now apply list_elem_of_In.
Qed.

(** X12.  With an empty Jenkins host, [runQuery] sends nothing: its events are
    the calls at its start, the read of the log, the query, the write of the
    log and prints; no message is posted, no build is triggered or
    cancelled, and nothing is submitted.  It returns, and the count it
    prints is 0. *)
Theorem runQuery_empty_jenkins_host (w : World) :
  jenkinsHostFlag = "" ->
  Forall (fun e => beforeSending e = true) (events (runQuery w))
  /\ last (events (runQuery w)) = Some (EvPrint Stdout "%d sent.\n" [ArgInt 0])
  /\ exists err, outcome (runQuery w) = Returned err.
Proof.
  intros Hhost.
  assert (Hfrom : forall r pre,
    FromLogRun r -> Forall (fun e => beforeSending e = true) pre ->
    Forall (fun e => beforeSending e = true)
      (events (prefix pre (deferredPrint r)))
    /\ last (events (prefix pre (deferredPrint r)))
       = Some (EvPrint Stdout "%d sent.\n" [ArgInt 0])
    /\ exists err, outcome (prefix pre (deferredPrint r)) = Returned err).
  { intros r pre Hr Hpre.
    destruct Hr; try contradiction; cbn [prefix deferredPrint events outcome after];
      (split; [apply Forall_app; split; [exact Hpre | repeat constructor]|]);
      (split; [now rewrite app_assoc, last_snoc | eauto]). }
  destruct (runQuery_run w) as [err w1|info w2 Hfail|err r Hr|info r Hok Hr].
  - split; [repeat constructor|]. split; [reflexivity | eauto].
  - split; [repeat constructor|]. split; [reflexivity | eauto].
  - apply Hfrom; [exact Hr | repeat constructor].
  - apply Hfrom; [exact Hr | repeat constructor].
Qed.

(** X13.  The log is written at most once in a run, to the log file of the flag,
    and with exactly the changes that the Gerrit query of this run
    returned. *)
Theorem runQuery_writes_query_result (w : World) :
  (length (List.filter writesLog (events (runQuery w))) <= 1)%nat
  /\ forall path cls res,
       In (EvWriteLog path cls res) (events (runQuery w)) ->
       path = logFilePathFlag
       /\ exists url,
            In (EvQuery url queryStringFlag (inr cls)) (events (runQuery w)).
Proof.
  assert (Hfrom : forall r pre,
    FromLogRun r -> Forall (fun e => logOrQuery e = false) pre ->
    (length (List.filter writesLog (events (prefix pre (deferredPrint r)))) <= 1)%nat
    /\ forall path cls res,
         In (EvWriteLog path cls res) (events (prefix pre (deferredPrint r))) ->
         path = logFilePathFlag
         /\ exists url,
              In (EvQuery url queryStringFlag (inr cls))
                (events (prefix pre (deferredPrint r)))).
  { intros r pre Hr Hpre.
    assert (Hpre' : List.filter writesLog pre = []).
    { apply filter_none. eapply Forall_impl; [exact Hpre|].
      intros e He. now destruct e. }
    assert (Hnot : forall path cls res, ~ In (EvWriteLog path cls res) pre).
    { intros path cls res Hin. rewrite Forall_forall in Hpre.
      apply list_elem_of_In, Hpre in Hin. discriminate. }
    destruct (deferredPrint_events r) as [n Hn].
    cbn [prefix events]. rewrite Hn, !List.filter_app, Hpre'. cbn [app].
    split.
    - destruct Hr; cbn; try lia.
      rewrite (filter_none writesLog (events (runQuery_send _ _ _))).
      + cbn. lia.
      + apply Forall_forall. intros e He. apply list_elem_of_In in He.
        apply runQuery_send_events in He. now destruct e.
    - intros path cls res Hin.
      apply in_app_or in Hin as [Hin|Hin]; [now apply Hnot in Hin|].
      apply in_app_or in Hin as [Hin|[?|[]]]; [|discriminate].
      destruct Hr; cbn in Hin;
        repeat (destruct Hin as [Heq|Hin]; [try discriminate Heq|]);
        try (destruct Hin);
        try (injection Heq as <- <- <-; split; [reflexivity|];
             eexists; apply in_or_app; right; apply in_or_app; left;
             cbn; eauto 6).
      apply runQuery_send_events in Hin. discriminate. }
  destruct (runQuery_run w) as [err w1|info w2 Hfail|err r Hr|info r Hok Hr].
  - cbn. split; [lia|]. intros path cls res [?|[?|[]]]; discriminate.
  - cbn. split; [lia|].
    intros path cls res [?|[?|[?|[?|[]]]]]; discriminate.
  - apply Hfrom; [exact Hr | repeat constructor].
  - apply Hfrom; [exact Hr | repeat constructor].
Qed.

(** X14.  When the write of the log fails, [runQuery] returns that error and
    sends nothing. *)
Theorem runQuery_write_failure (w : World) (path : string) (cls : CLList)
    (err : Err) :
  In (EvWriteLog path cls (Some err)) (events (runQuery w)) ->
  outcome (runQuery w) = Returned (Some err)
  /\ Forall (fun e => beforeSending e = true) (events (runQuery w)).
Proof.
  assert (Hfrom : forall r pre,
    FromLogRun r -> Forall (fun e => logOrQuery e = false) pre ->
    Forall (fun e => beforeSending e = true) pre ->
    In (EvWriteLog path cls (Some err)) (events (prefix pre (deferredPrint r))) ->
    outcome (prefix pre (deferredPrint r)) = Returned (Some err)
    /\ Forall (fun e => beforeSending e = true)
         (events (prefix pre (deferredPrint r)))).
  { intros r pre Hr Hpre Hpre' Hin.
    destruct (deferredPrint_events r) as [n Hn].
    cbn [prefix events outcome] in *. rewrite Hn in *.
    apply in_app_or in Hin as [Hin|Hin].
    { rewrite Forall_forall in Hpre. apply list_elem_of_In, Hpre in Hin.
      discriminate. }
    apply in_app_or in Hin as [Hin|[?|[]]]; [|discriminate].
    destruct Hr; cbn in Hin;
      repeat (destruct Hin as [Heq|Hin]; [try discriminate Heq|]);
      try (destruct Hin).
    - injection Heq as Hp Hc He. subst. split; [reflexivity|].
      apply Forall_app. split; [exact Hpre'|]. repeat constructor.
    - apply runQuery_send_events in Hin. discriminate. }
  destruct (runQuery_run w) as [e w1|info w2 Hfail|e r Hr|info r Hok Hr].
  - intros [?|[?|[]]]; discriminate.
  - intros [?|[?|[?|[?|[]]]]]; discriminate.
  - apply Hfrom; [exact Hr | repeat constructor | repeat constructor].
  - apply Hfrom; [exact Hr | repeat constructor | repeat constructor].
Qed.

End RunShapeFacts.

(** ** Multi-part errors, the reported count and owner addresses *)

Section MultiPartFacts.

Context {World : Type} `{!Library} `{!Flags} `{!Collaborators World}.



End MultiPartFacts.

Section CountFacts.

Context {World : Type} `{!Library} `{!Flags} `{!Collaborators World}.

Lemma runQuery_send_count prev cur (w : World) n err :
  outcome (runQuery_send prev cur w) = Returned (n, err) ->
  0 <= n <= changeCount (NewOpenCLs prev cur).1.
Proof.
  unfold runQuery_send. destruct (NewOpenCLs prev cur) as [newCLLists errs].
  cbn [fst]. intros Hrun.
  assert (Hpos : 0 <= changeCount newCLLists) by (unfold changeCount; lia).
  rewrite outcome_bind in Hrun.
  destruct (outcome (multiPartLoop errs w)) as [[]|]; [|discriminate].
  rewrite outcome_bind in Hrun.
  destruct (outcome (call LoadManifest EvLoadManifest _)) as [[e|ps]|];
    [| |discriminate].
  { cbn in Hrun. injection Hrun as <- <-. lia. }
  rewrite outcome_bind in Hrun.
  destruct (outcome (sendCLListsToPresubmitTest _ _)) as [[sent [e|]]|] eqn:Hsend;
    [| |discriminate].
  { cbn in Hrun. injection Hrun as <- <-. lia. }
  apply sendLoop_sent_bounds in Hsend. cbn [clsSent querySender clLists] in Hsend.
  repeat outcome_step Hrun; injection Hrun as <- <-; lia.
Qed.

(** X16.  The count that [runQuery] prints last is never negative and never more
    than the number of changes in the new groups: it is 0, or the run read a
    previous log and queried Gerrit, and the count is at most the number of
    changes in the groups that [NewOpenCLs] gives for the two. *)
Theorem runQuery_reported_count (w : World) :
  exists n,
    last (events (runQuery w)) = Some (EvPrint Stdout "%d sent.\n" [ArgInt n])
    /\ (n = 0
        \/ exists prev url cur,
             In (EvReadLog logFilePathFlag (inr prev)) (events (runQuery w))
             /\ In (EvQuery url queryStringFlag (inr cur)) (events (runQuery w))
             /\ 0 <= n <= changeCount (NewOpenCLs prev cur).1).
Proof.
  assert (Hfrom : forall r pre,
    FromLogRun r ->
    exists n,
      last (events (prefix pre (deferredPrint r)))
      = Some (EvPrint Stdout "%d sent.\n" [ArgInt n])
      /\ (n = 0
          \/ exists prev url cur,
               In (EvReadLog logFilePathFlag (inr prev))
                 (events (prefix pre (deferredPrint r)))
               /\ In (EvQuery url queryStringFlag (inr cur))
                    (events (prefix pre (deferredPrint r)))
               /\ 0 <= n <= changeCount (NewOpenCLs prev cur).1)).
  { intros r pre Hr.
    destruct Hr as [e w1|prev e w2|prev url e w3|prev url cur e w4
                   |prev url cur w4 Hh|prev url cur w4 Hh Hs|prev url cur w4 Hh Hs];
      try (exists 0; split;
           [cbn [prefix deferredPrint events outcome after];
            now rewrite app_assoc, last_snoc | now left]).
    unfold deferredPrint. cbn [prefix outcome events after].
    destruct (outcome (runQuery_send prev cur w4)) as [[n err]|] eqn:Hsend.
    - exists n. cbn [events]. split; [now rewrite !app_assoc, last_snoc|].
      right. exists prev, url, cur.
      split; [apply in_or_app; right; cbn; auto|].
      split; [apply in_or_app; right; cbn; auto|].
      now apply runQuery_send_count in Hsend.
    - exists 0. cbn [events]. split; [now rewrite !app_assoc, last_snoc | now left]. }
  destruct (runQuery_run w) as [err w1|info w2 Hfail|err r Hr|info r Hok Hr].
  - exists 0. split; [reflexivity | now left].
  - exists 0. split; [reflexivity | now left].
  - now apply Hfrom.
  - now apply Hfrom.
Qed.

End CountFacts.

(** ** The email check *)








(** ** Statistics of the stress test *)

Section StressFacts.

Import Stress.

Variable FindAllStringSubmatch : string -> string -> list (list string).
Variable ParseUint : string -> NumError + Z.

Local Abbreviation statsLoop := (statsLoop ParseUint).
Local Abbreviation counts := (counts ParseUint).
Local Abbreviation readOneStats :=
  (readOneStats FindAllStringSubmatch ParseUint).
Local Abbreviation readStats := (readStats FindAllStringSubmatch ParseUint).

Lemma statsLoop_step (m : list string) (rest : list (list string))
    (st : stressStats) (x y : Z) :
  counts m = Some (x, y) ->
  statsLoop (m :: rest) st
  = statsLoop rest {| sumCount := uint64_add (sumCount st) x;
                      sumStreamCount := uint64_add (sumStreamCount st) y |}.
Proof.
  unfold Stress.counts. intros Hc.
  destruct m as [|a [|b [|c [|d m]]]]; try discriminate.
  cbn [Stress.statsLoop length Nat.eqb negb nth].
  destruct (ParseUint b) as [e|x']; [discriminate|].
  destruct (ParseUint c) as [e|y']; [discriminate|].
  destruct ((x' =? 0) || (y' =? 0)); [discriminate|].
  injection Hc as -> ->. reflexivity.
Qed.

Lemma statsLoop_bad (m : list string) (rest : list (list string))
    (st : stressStats) :
  counts m = None ->
  exists err, statsLoop (m :: rest) st = inl err /\ errorMatch err = Some m.
Proof.
  unfold Stress.counts. intros Hc.
  destruct m as [|a [|b [|c [|d m]]]];
    try (eexists; split; [reflexivity|reflexivity]).
  cbn [Stress.statsLoop length Nat.eqb negb nth].
  destruct (ParseUint b) as [e|x'];
    [eexists; split; reflexivity|].
  destruct (ParseUint c) as [e|y'];
    [eexists; split; reflexivity|].
  destruct ((x' =? 0) || (y' =? 0));
    [eexists; split; reflexivity|discriminate].
Qed.

Lemma uint64_add_sum (a x s : Z) :
  uint64_add a x = (a + x) mod 2 ^ 64 /\
  (uint64_add a x + s) mod 2 ^ 64 = (a + (x + s)) mod 2 ^ 64.
Proof.
  unfold uint64_add. split; [reflexivity|].
  rewrite Zplus_mod_idemp_l. f_equal. lia.
Qed.

Lemma statsLoop_sums (matches : list (list string)) (vals : list (Z * Z))
    (st : stressStats) :
  mapM counts matches = Some vals ->
  exists st',
    statsLoop matches st = inr st' /\
    (sumCount st') mod 2 ^ 64
    = (sumCount st + sumZ (map fst vals)) mod 2 ^ 64 /\
    (sumStreamCount st') mod 2 ^ 64
    = (sumStreamCount st + sumZ (map snd vals)) mod 2 ^ 64 /\
    (matches <> [] -> sumCount st' = (sumCount st') mod 2 ^ 64 /\
                      sumStreamCount st' = (sumStreamCount st') mod 2 ^ 64).
Proof.
  revert vals st. induction matches as [|m rest IH]; intros vals st Hm.
  - injection Hm as <-. exists st. cbn.
    rewrite !Z.add_0_r. repeat split; congruence.
  - cbn [mapM] in Hm.
    destruct (counts m) as [[x y]|] eqn:Hc; [|discriminate].
    cbn in Hm. destruct (mapM counts rest) as [vs|] eqn:Hr; [|discriminate].
    cbn in Hm. injection Hm as <-.
    rewrite (statsLoop_step m rest st x y Hc).
    edestruct (IH vs) as (st' & Hl & Hs1 & Hs2 & Hn); [reflexivity|].
    exists st'. cbn [sumCount sumStreamCount] in Hs1, Hs2.
    split; [exact Hl|]. cbn [map fst snd sumZ fold_right].
    fold (sumZ (map fst vs)). fold (sumZ (map snd vs)).
    split; [rewrite Hs1; apply uint64_add_sum|].
    split; [rewrite Hs2; apply uint64_add_sum|].
    intros _. destruct rest as [|m' rest'].
    + cbn [Stress.statsLoop] in Hl. injection Hl as <-.
      unfold uint64_add. cbn [sumCount sumStreamCount].
      rewrite !Zmod_mod. split; reflexivity.
    + apply Hn. discriminate.
Qed.

Lemma statsLoop_first_bad (pre post : list (list string)) (bad : list string)
    (st : stressStats) :
  Forall (fun m => is_Some (counts m)) pre ->
  counts bad = None ->
  exists err,
    statsLoop (pre ++ bad :: post) st = inl err /\ errorMatch err = Some bad.
Proof.
  intros Hpre Hbad. revert st.
  induction Hpre as [|m pre [[x y] Hm] _ IH]; intros st.
  - apply statsLoop_bad, Hbad.
  - cbn [app]. rewrite (statsLoop_step m _ st x y Hm). apply IH.
Qed.

Lemma mapM_counts_length (matches : list (list string))
    (vals : list (Z * Z)) :
  mapM counts matches = Some vals -> length vals = length matches.
Proof.
  revert vals. induction matches as [|m rest IH]; intros vals Hm.
  - injection Hm as <-. reflexivity.
  - cbn [mapM] in Hm. destruct (counts m) as [p|]; [|discriminate].
    cbn in Hm. destruct (mapM counts rest) as [vs|]; [|discriminate].
    cbn in Hm. injection Hm as <-. cbn [length]. f_equal. apply IH.
    reflexivity.
Qed.

Lemma readOneStats_ok (re out : string) (vals : list (Z * Z)) :
  mapM counts (FindAllStringSubmatch re out) = Some vals ->
  readOneStats re out
  = (Z.of_nat (length (FindAllStringSubmatch re out)),
     Some {| sumCount := sumZ (map fst vals) mod 2 ^ 64;
             sumStreamCount := sumZ (map snd vals) mod 2 ^ 64 |},
     None).
Proof.
  intros Hm. unfold Stress.readOneStats.
  destruct (statsLoop_sums _ vals {| sumCount := 0; sumStreamCount := 0 |} Hm)
    as (st' & Hl & Hs1 & Hs2 & Hn).
  rewrite Hl. cbn [sumCount sumStreamCount] in Hs1, Hs2.
  rewrite Z.add_0_l in Hs1, Hs2.
  destruct (FindAllStringSubmatch re out) as [|m rest] eqn:Hf.
  - cbn in Hm. injection Hm as <-. cbn in Hl. injection Hl as <-.
    reflexivity.
  - destruct Hn as [Hn1 Hn2]; [discriminate|].
    destruct st' as [a b]. cbn [sumCount sumStreamCount] in *.
    rewrite <- Hs1, <- Hs2, <- Hn1, <- Hn2. reflexivity.
Qed.

Lemma readOneStats_bad (re out : string) (pre post : list (list string))
    (bad : list string) :
  FindAllStringSubmatch re out = pre ++ bad :: post ->
  Forall (fun m => is_Some (counts m)) pre ->
  counts bad = None ->
  exists err,
    readOneStats re out = (0, None, Some err) /\ errorMatch err = Some bad.
Proof.
  intros Hf Hpre Hbad. unfold Stress.readOneStats. rewrite Hf.
  destruct (statsLoop_first_bad pre post bad
              {| sumCount := 0; sumStreamCount := 0 |} Hpre Hbad)
    as (err & -> & He).
  exists err. split; [reflexivity|exact He].
Qed.

Lemma mapM_counts_cases (matches : list (list string)) :
  (exists vals, mapM counts matches = Some vals) \/
  (exists pre bad post,
     matches = pre ++ bad :: post /\
     Forall (fun m => is_Some (counts m)) pre /\ counts bad = None).
Proof.
  induction matches as [|m rest IH].
  - left. exists []. reflexivity.
  - destruct (counts m) as [[x y]|] eqn:Hc.
    + destruct IH as [[vals Hv]|(pre & bad & post & -> & Hpre & Hbad)].
      * left. exists ((x, y) :: vals). cbn. rewrite Hc. cbn. rewrite Hv.
        reflexivity.
      * right. exists (m :: pre), bad, post. split; [reflexivity|].
        split; [|exact Hbad]. constructor; [rewrite Hc; eauto|exact Hpre].
    + right. exists [], m, rest. repeat split; [constructor|exact Hc].
Qed.

(** X18.  The sums of [readOneStats]: when every match has three elements whose
    last two are read as numbers other than zero, the result is the number
    of matches and the two sums of these numbers modulo 2^64, and no
    error. *)
Theorem readOneStats_sums (re out : string) (vals : list (Z * Z)) :
  mapM counts (FindAllStringSubmatch re out) = Some vals ->
  readOneStats re out
  = (Z.of_nat (length (FindAllStringSubmatch re out)),
     Some {| sumCount := sumZ (map fst vals) mod 2 ^ 64;
             sumStreamCount := sumZ (map snd vals) mod 2 ^ 64 |},
     None).
Proof. apply readOneStats_ok. Qed.

(** X19.  The first match that is not well formed (not three elements, a count
    that is not read as a number, or a zero count) makes [readOneStats]
    return 0, no statistics and an error that prints this match; the
    matches after it are not looked at. *)
Theorem readOneStats_first_bad_match (re out : string)
    (pre post : list (list string)) (bad : list string) :
  FindAllStringSubmatch re out = pre ++ bad :: post ->
  Forall (fun m => is_Some (counts m)) pre ->
  counts bad = None ->
  exists err,
    readOneStats re out = (0, None, Some err) /\ errorMatch err = Some bad.
Proof. apply readOneStats_bad. Qed.

(** X20.  [readStats] returns the two statistics together or an error and none of
    them; it returns them only when the output holds exactly
    [testNumClientNodes] client lines and [testNumServerNodes] server lines,
    all well formed, and then they are the sums of [readOneStats]. *)
Theorem readStats_node_counts (out : string)
    (c s : option stressStats) (e : option StatsError) :
  readStats out = (c, s, e) ->
  (e <> None /\ c = None /\ s = None) \/
  (e = None /\
   exists cvals svals,
     mapM counts (FindAllStringSubmatch clientPattern out) = Some cvals /\
     mapM counts (FindAllStringSubmatch serverPattern out) = Some svals /\
     Z.of_nat (length cvals) = testNumClientNodes /\
     Z.of_nat (length svals) = testNumServerNodes /\
     c = Some {| sumCount := sumZ (map fst cvals) mod 2 ^ 64;
                 sumStreamCount := sumZ (map snd cvals) mod 2 ^ 64 |} /\
     s = Some {| sumCount := sumZ (map fst svals) mod 2 ^ 64;
                 sumStreamCount := sumZ (map snd svals) mod 2 ^ 64 |}).
Proof.
  unfold Stress.readStats. intros Hrun.
  destruct (mapM_counts_cases (FindAllStringSubmatch clientPattern out))
    as [[cvals Hc]|(pre & bad & post & Hf & Hpre & Hbad)].
  2:{ destruct (readOneStats_bad _ _ _ _ _ Hf Hpre Hbad) as (err & Hr & _).
      rewrite Hr in Hrun. injection Hrun as <- <- <-.
      left. repeat split. discriminate. }
  rewrite (readOneStats_ok _ _ _ Hc) in Hrun.
  rewrite <- (mapM_counts_length _ _ Hc) in Hrun.
  destruct (Z.of_nat (length cvals) =? testNumClientNodes) eqn:Hn;
    cbn [negb] in Hrun.
  2:{ injection Hrun as <- <- <-. left. repeat split. discriminate. }
  destruct (mapM_counts_cases (FindAllStringSubmatch serverPattern out))
    as [[svals Hs]|(pre & bad & post & Hf & Hpre & Hbad)].
  2:{ destruct (readOneStats_bad _ _ _ _ _ Hf Hpre Hbad) as (err & Hr & _).
      rewrite Hr in Hrun. injection Hrun as <- <- <-.
      left. repeat split. discriminate. }
  rewrite (readOneStats_ok _ _ _ Hs) in Hrun.
  rewrite <- (mapM_counts_length _ _ Hs) in Hrun.
  destruct (Z.of_nat (length svals) =? testNumServerNodes) eqn:Hm;
    cbn [negb] in Hrun.
  2:{ injection Hrun as <- <- <-. left. repeat split. discriminate. }
  injection Hrun as <- <- <-. right. split; [reflexivity|].
  exists cvals, svals. apply Z.eqb_eq in Hn, Hm.
  repeat split; assumption.
Qed.

End StressFacts.

(** ** The further properties on scripted runs *)

(** Three refs, the second of which does not parse. *)
Lemma isBuildOutdated_first_parse_error_witness :
  isBuildOutdated Sample.parseRef
    "refs/changes/00/1000/2:not-a-ref:refs/changes/00/2000/1"
    {[ 1000 := 2 ]}
  = (false, Some (ErrExternal "unexpected number of parts: not-a-ref")).
Proof.
  apply (isBuildOutdated_first_parse_error Sample.parseRef _ _
           ["refs/changes/00/1000/2"] ["refs/changes/00/2000/1"] "not-a-ref").
  - reflexivity.
  - repeat constructor. exists (1000, 2). reflexivity.
  - reflexivity.
Defined.

(** A group of two changes of a known project. *)
Lemma processCLList_result_witness :
  exists info,
    outcome (Scenario.process Sample.quiet Sample.mixedGroup)
    = Returned (Some info)
    /\ filteredCLList info = Sample.mixedGroup
    /\ refs info = ["refs/changes/00/100/1"; "refs/changes/00/200/3"]
    /\ result_projects info = ["release.go.core"; "release.go.core"]
    /\ skipPresubmitTest info = false
    /\ parseRefs Sample.parseRef (refs info) ∅ = inr (clMap info)
    /\ after (Scenario.process Sample.quiet Sample.mixedGroup) = tt.
Proof.
  eexists. split; [vm_compute; reflexivity|].
  apply (@processCLList_result unit Sample.library
           (Sample.sender Sample.quiet []) Sample.mixedGroup tt).
  vm_compute. reflexivity.
Defined.

(** The build requested for a group of two changes has the refs of both,
    which parse back to the map of the group. *)
Lemma requested_build_outdated_by_own_group_witness :
  exists info,
    outcome (Scenario.process Sample.quiet Sample.mixedGroup)
    = Returned (Some info)
    /\ parseRefs Sample.parseRef
         (Split "refs/changes/00/100/1:refs/changes/00/200/3" ":"%char) ∅
       = inr (clMap info)
    /\ isBuildOutdated Sample.parseRef
         "refs/changes/00/100/1:refs/changes/00/200/3" (clMap info)
       = (true, None).
Proof.
  eexists. split; [vm_compute; reflexivity|].
  match goal with
  | |- context [clMap ?i] =>
      destruct (@requested_build_outdated_by_own_group unit Sample.library
                  Sample.flags (Sample.scripted Sample.quiet)
                  (Sample.sender Sample.quiet []) Sample.mixedGroup tt i)
        as [_ Hrefs]
  end.
  - vm_compute. reflexivity.
  - discriminate.
  - repeat constructor.
  - exact Hrefs.
Defined.

(** Two groups of one change each: one build is requested, for one change. *)
Lemma sendCLLists_sent_bounds_witness :
  outcome (Sample.send Sample.quiet [Sample.plainGroup; Sample.optOutGroup])
  = Returned (1, None)
  /\ 0 <= 1 <= 0 + changeCount [Sample.plainGroup; Sample.optOutGroup].
Proof.
  assert (Hrun : outcome (Sample.send Sample.quiet
                            [Sample.plainGroup; Sample.optOutGroup])
                 = Returned (1, None)) by (vm_compute; reflexivity).
  split; [exact Hrun|].
  exact (@sendCLLists_sent_bounds unit Sample.library
           (Sample.scripted Sample.quiet)
           (Sample.sender Sample.quiet [Sample.plainGroup; Sample.optOutGroup])
           tt 1 None Hrun).
Defined.

(** A group of two changes of an unknown project, and an empty group. *)
Lemma sendCLLists_unknown_projects_witness :
  Sample.send Sample.quiet [Scenario.foreignGroup; []]
  = MkRan
      [EvPrint Stdout "project=%q (%s) not found. Skipped.\n"
         [ArgStr "third_party"; ArgStr "refs/changes/00/300/1"];
       EvPrint Stdout "project=%q (%s) not found. Skipped.\n"
         [ArgStr "third_party"; ArgStr "refs/changes/00/400/2"];
       EvPrint Stdout "SKIP: Empty CL set\n" [];
       EvPrint Stdout "SKIP: Empty CL set\n" []]
      tt (Returned (0, None)).
Proof.
  apply (@sendCLLists_unknown_projects unit Sample.library
           (Sample.scripted Sample.quiet)
           (Sample.sender Sample.quiet [Scenario.foreignGroup; []])
           ["release.go.core"; "release.js.core"] tt).
  - reflexivity.
  - repeat constructor.
Defined.

(** A group of one change that opts out of the tests. *)
Lemma sendLoop_opt_out_group_witness :
  let r := Sample.sendGroups Sample.quiet [Sample.optOutGroup] in
  Forall (fun e => triggersBuild e = false /\ cancelsBuild e = false
                   /\ configEvent e = false) (events r)
  /\ exists res,
       List.filter postEvent (events r)
       = [EvPostMessage "Presubmit tests skipped.\n"
            ["refs/changes/00/100/1"] true res]
       /\ outcome r = Returned (0, res).
Proof.
  apply (@sendLoop_opt_out_group unit Sample.library Sample.flags
           (Sample.scripted Sample.quiet) []
           ["release.go.core"; "release.js.core"] Sample.optOutGroup 0 tt).
  - repeat constructor. exists (100, 1). reflexivity.
  - reflexivity.
Defined.

(** A run with one new change and no Jenkins host. *)
Lemma runQuery_empty_jenkins_host_witness :
  Forall (fun e => beforeSending e = true)
    (events (Scenario.runNoHost Sample.firstRun))
  /\ last (events (Scenario.runNoHost Sample.firstRun))
     = Some (EvPrint Stdout "%d sent.\n" [ArgInt 0])
  /\ exists err, outcome (Scenario.runNoHost Sample.firstRun) = Returned err.
Proof.
  apply (@runQuery_empty_jenkins_host unit Sample.library Scenario.noHost
           (Sample.scripted Sample.firstRun) tt).
  reflexivity.
Defined.

(** A run that cannot write the log file. *)
Lemma runQuery_write_failure_witness :
  outcome (Sample.run Scenario.writeFails)
  = Returned (Some (ErrExternal "disk full"))
  /\ Forall (fun e => beforeSending e = true)
       (events (Sample.run Scenario.writeFails)).
Proof.
  apply (@runQuery_write_failure unit Sample.library Sample.flags
           (Sample.scripted Scenario.writeFails) tt
           "/tmp/presubmit_log" Sample.plainGroup (ErrExternal "disk full")).
  vm_compute. auto 10.
Defined.

(** The first run of the tool writes the one open change to the log. *)
Lemma runQuery_writes_query_result_witness :
  "/tmp/presubmit_log" = "/tmp/presubmit_log"
  /\ exists url,
       In (EvQuery url "status:open"
             (inr [Sample.change "refs/changes/00/100/1" "bob@google.com"
                     PresubmitTestTypeAll]))
         (events (Sample.run Sample.firstRun)).
Proof.
  apply (proj2 (@runQuery_writes_query_result unit Sample.library Sample.flags
                  (Sample.scripted Sample.firstRun) tt)
           "/tmp/presubmit_log" _ None).
  vm_compute. auto 10.
Defined.

(** A queue with two builds of change 1000 at patchset 1 and one without
    refs, against a registry with patchset 2: the build that is cancelled
    has id 1. *)
Lemma removeOutdatedBuilds_cancels_only_outdated_witness :
  exists builds b,
    In (EvQueuedBuilds "presubmit-test" (inr builds))
      (events (Scenario.removeOutdated Sample.staleQueue {[ 1000 := 2 ]}))
    /\ In b builds
    /\ Sample.sprintf "%d" [ArgInt 1] = Sample.sprintf "%d" [ArgInt (Id b)]
    /\ QueuedBuild_ParseRefs b <> ""
    /\ isBuildOutdated Sample.parseRef (QueuedBuild_ParseRefs b)
         {[ 1000 := 2 ]} = (true, None).
Proof.
  apply (proj1 (@removeOutdatedBuilds_cancels_only_outdated unit
                  Sample.library Sample.flags
                  (Sample.scripted Sample.staleQueue) {[ 1000 := 2 ]} tt)
           (Sample.sprintf "%d" [ArgInt 1]) None).
  vm_compute. auto 10.
Defined.

(** Jenkins cannot be reached: the error is that of the last call. *)
Lemma removeOngoingOutdatedBuilds_lenient_witness :
  exists e,
    last (events (Scenario.removeOngoing Scenario.jenkinsDown {[ 1000 := 2 ]}))
    = Some e
    /\ failedJenkinsCall e = Some (ErrExternal "no route to host").
Proof.
  apply (proj2 (@removeOngoingOutdatedBuilds_lenient unit Sample.library
                  Sample.flags (Sample.scripted Scenario.jenkinsDown)
                  {[ 1000 := 2 ]} tt)).
  reflexivity.
Defined.

(** Two client lines with the counts 3 and 4. *)
Lemma readOneStats_sums_witness :
  Stress.readOneStats (Stress.sampleMatches 2 0) Stress.parseDecimal
    Stress.clientPattern "out"
  = (2, Some {| Stress.sumCount := 6; Stress.sumStreamCount := 8 |}, None).
Proof.
  apply (readOneStats_sums (Stress.sampleMatches 2 0) Stress.parseDecimal
           Stress.clientPattern "out" [(3, 4); (3, 4)]).
  reflexivity.
Defined.

(** Three matches, the second of which has a zero count. *)
Lemma readOneStats_first_bad_match_witness :
  let matches := fun _ _ : string =>
    [["a"; "3"; "4"]; ["b"; "0"; "4"]; ["c"; "x"; "4"]] in
  exists err,
    Stress.readOneStats matches Stress.parseDecimal Stress.clientPattern "out"
    = (0, None, Some err)
    /\ Stress.errorMatch err = Some ["b"; "0"; "4"].
Proof.
  intros matches.
  apply (readOneStats_first_bad_match matches Stress.parseDecimal
           Stress.clientPattern "out" [["a"; "3"; "4"]] [["c"; "x"; "4"]]
           ["b"; "0"; "4"]).
  - reflexivity.
  - repeat constructor. exists (3, 4). reflexivity.
  - reflexivity.
Defined.

(** Ten client lines and five server lines, and ten client lines with four
    server lines. *)
Lemma readStats_node_counts_witness :
  (exists cvals svals,
     mapM (Stress.counts Stress.parseDecimal)
       (Stress.sampleMatches 10 5 Stress.clientPattern "out") = Some cvals
     /\ mapM (Stress.counts Stress.parseDecimal)
          (Stress.sampleMatches 10 5 Stress.serverPattern "out") = Some svals
     /\ Z.of_nat (length cvals) = 10 /\ Z.of_nat (length svals) = 5)
  /\ Stress.readStats (Stress.sampleMatches 10 4) Stress.parseDecimal "out"
     = (None, None, Some (Stress.InvalidServerStats 4)).
Proof.
  split.
  - destruct (readStats_node_counts (Stress.sampleMatches 10 5)
                Stress.parseDecimal "out"
                (Some {| Stress.sumCount := 30; Stress.sumStreamCount := 40 |})
                (Some {| Stress.sumCount := 15; Stress.sumStreamCount := 20 |})
                None)
      as [(Hne & _)|(_ & cvals & svals & Hc & Hs & Hnc & Hns & _)].
    + vm_compute. reflexivity.
    + contradiction Hne. reflexivity.
    + exists cvals, svals. repeat split; assumption.
  - vm_compute. reflexivity.
Defined.

(** A group whose second change has a ref that does not parse. *)
Lemma processCLList_result_iff_witness :
  outcome (Scenario.process Sample.quiet Sample.malformedGroup) = Returned None.
Proof.
  apply (proj2 (proj2 (@processCLList_result_iff unit Sample.library
                         (Sample.sender Sample.quiet [])
                         Sample.malformedGroup tt))).
  apply Exists_cons_tl, Exists_cons_hd. eexists. reflexivity.
Defined.
